(** * Study assistant: mastery model, quiz engine and session bookkeeping

    A shallow embedding of the React components
    [Flashcards.tsx], the quiz component, [Documents.tsx] (with
    [lib/fileParser.ts]), [Chat.tsx] and [Dashboard.tsx].

    Conventions.
    - A React component is a record of its [useState] cells; an event handler
      is a function on that record.  What a handler sends to the store
      (insert and update requests) is returned next to the new state.
    - A handler that throws is [None] for handlers without a [try], and an
      error value for handlers whose body sits in [try]/[catch].
    - The wall clock is an input: a handler that calls [Date.now()] takes the
      current time in milliseconds as an argument.
    - JavaScript numbers that only ever hold small integers (indices, counters,
      mastery levels, millisecond stamps) are [Z].  [Math.round] of one
      division of such integers is computed exactly ([Js.round_div]) and
      checked against doubles on ranges of inputs.  The quiz score goes
      through a division followed by a multiplication and is computed on
      binary64 floats ([PrimFloat]), as the engine does. *)

From Stdlib Require Import String Ascii ZArith List Bool Lia Floats DecimalString.
Import ListNotations.
Open Scope string_scope.
Open Scope list_scope.
Open Scope Z_scope.
Set Warnings "-register-all".

(** ** JavaScript numbers *)

Module Js.

(** The result of [Math.round]: an integer, an infinity, or NaN. *)
Inductive number : Type :=
| Int (z : Z)
| Inf (negative : bool)
| NaN.

(** A length or a count, as a double.  Exact below 2^53. *)
Definition of_length (n : nat) : float :=
  PrimFloat.of_uint63 (Uint63.of_Z (Z.of_nat n)).

(** [Math.round x]: the integer closest to [x], ties towards +infinity.
    The double is decoded to [m * 2^e] and rounded exactly. *)
Definition Math_round (x : float) : number :=
  match Prim2SF x with
  | S754_zero _ => Int 0
  | S754_infinity s => Inf s
  | S754_nan => NaN
  | S754_finite s m e =>
      let sm := if s then Z.neg m else Z.pos m in
      if 0 <=? e then Int (sm * 2 ^ e)
      else let d := 2 ^ (- e) in Int ((2 * sm + d) / (2 * d))
  end.

(** [x >= k] for an integer literal [k]; every comparison with NaN is
    false. *)
Definition geb (x : number) (k : Z) : bool :=
  match x with
  | Int z => k <=? z
  | Inf negative => negb negative
  | NaN => false
  end.

(** [Math.round (a / b)] for integers [a] and [b > 0] of moderate size.
    A single division is correctly rounded and every half-integer in range
    is a double, so the double quotient lies on the same side of each
    half-integer as the exact quotient: the result is the exact quotient
    rounded half up, [floor (a/b + 1/2)]. *)
Definition round_div (a b : Z) : Z := (2 * a + b) / (2 * b).

(** The same quantity computed on doubles, for cross-checking
    [round_div] on concrete inputs. *)
Definition round_div_float (a b : Z) : number :=
  Math_round (PrimFloat.div (PrimFloat.of_uint63 (Uint63.of_Z a))
                            (PrimFloat.of_uint63 (Uint63.of_Z b))).

(** [a % n] on non-negative integers; [None] is the NaN of [a % 0]. *)
Definition rem (a n : Z) : option Z :=
  if n =? 0 then None else Some (Z.rem a n).

End Js.

(** ** Strings *)

Module Str.

Local Open Scope string_scope.

(** A string holds the UTF-8 encoding of a JavaScript text.

    White space removed by [String.prototype.trim] that is one byte long:
    tab, line feed, vertical tab, form feed, carriage return, space. *)
Definition is_space (c : ascii) : bool :=
  let n := nat_of_ascii c in
  ((9 <=? n) && (n <=? 13))%nat || (n =? 32)%nat.

(** The white space of two bytes: U+00A0 (no-break space), [C2 A0]. *)
Definition wide2 (a b : ascii) : bool :=
  ((nat_of_ascii a =? 194) && (nat_of_ascii b =? 160))%nat.

(** The white space of three bytes: U+1680 [E1 9A 80], U+2000 to U+200A
    [E2 80 80] to [E2 80 8A], the line and paragraph separators U+2028 and
    U+2029 [E2 80 A8], [E2 80 A9], U+202F [E2 80 AF], U+205F [E2 81 9F],
    U+3000 [E3 80 80] and the byte order mark U+FEFF [EF BB BF]. *)
Definition wide3 (a b c : ascii) : bool :=
  let x := nat_of_ascii a in
  let y := nat_of_ascii b in
  let z := nat_of_ascii c in
  (((x =? 225) && (y =? 154) && (z =? 128))
   || ((x =? 226) && (y =? 128)
       && (((128 <=? z) && (z <=? 138)) || (z =? 168) || (z =? 169) || (z =? 175)))
   || ((x =? 226) && (y =? 129) && (z =? 159))
   || ((x =? 227) && (y =? 128) && (z =? 128))
   || ((x =? 239) && (y =? 187) && (z =? 191)))%nat.

(** The text after one leading white space character, if there is one. *)
Definition strip1 (s : string) : option string :=
  match s with
  | String a r =>
      if is_space a then Some r
      else match r with
           | String b r2 =>
               if wide2 a b then Some r2
               else match r2 with
                    | String c r3 => if wide3 a b c then Some r3 else None
                    | EmptyString => None
                    end
           | EmptyString => None
           end
  | EmptyString => None
  end.

(** The text is exactly one white space character of two or three bytes. *)
Definition is_wide (s : string) : bool :=
  match s with
  | String a (String b EmptyString) => wide2 a b
  | String a (String b (String c EmptyString)) => wide3 a b c
  | _ => false
  end.

Fixpoint trim_start (s : string) : string :=
  match s with
  | String a r =>
      if is_space a then trim_start r
      else match r with
           | String b r2 =>
               if wide2 a b then trim_start r2
               else match r2 with
                    | String c r3 => if wide3 a b c then trim_start r3 else s
                    | EmptyString => s
                    end
           | EmptyString => s
           end
  | EmptyString => EmptyString
  end.

(** Drops trailing white space, from the end: a byte is kept when
    something non-blank follows it or it is itself not blank; a white
    space character of several bytes is dropped when its first byte is
    reached and only its own bytes are left after it. *)
Fixpoint trim_end (s : string) : string :=
  match s with
  | EmptyString => EmptyString
  | String c r =>
      if is_wide (String c (trim_end r)) then EmptyString
      else match trim_end r with
           | EmptyString => if is_space c then EmptyString else String c EmptyString
           | r' => String c r'
           end
  end.

Definition trim (s : string) : string := trim_end (trim_start s).

(** U+00A0, U+3000 and U+FEFF in UTF-8. *)
Definition nbsp : string :=
  String (ascii_of_nat 194) (String (ascii_of_nat 160) EmptyString).

Definition ideographic_space : string :=
  String (ascii_of_nat 227)
    (String (ascii_of_nat 128) (String (ascii_of_nat 128) EmptyString)).

Definition byte_order_mark : string :=
  String (ascii_of_nat 239)
    (String (ascii_of_nat 187) (String (ascii_of_nat 191) EmptyString)).

(** Every byte is below 128: the text is ASCII. *)
Fixpoint ascii_only (s : string) : bool :=
  match s with
  | EmptyString => true
  | String c r => (nat_of_ascii c <? 128)%nat && ascii_only r
  end.

(** Truthiness of a string: non-empty. *)
Definition truthy (s : string) : bool :=
  match s with EmptyString => false | _ => true end.

(** [toLowerCase] of an ASCII letter; other bytes are left alone.  On
    ASCII text ([ascii_only]) this is [String.prototype.toLowerCase]; the
    case mapping of letters outside ASCII is not modelled.  The only use is
    the file extension in [FileParser.extension_of], which is compared
    with pdf, txt, md, doc and docx: no letter outside ASCII has one of
    their letters as its lower case, so which files are accepted does not
    depend on what is left out; the text of the extension inside the
    "Unsupported file type" message does, for an extension that is not
    ASCII. *)
Definition lower (c : ascii) : ascii :=
  let n := nat_of_ascii c in
  if ((65 <=? n) && (n <=? 90))%nat then ascii_of_nat (n + 32) else c.

Fixpoint toLowerCase (s : string) : string :=
  match s with
  | EmptyString => EmptyString
  | String c r => String (lower c) (toLowerCase r)
  end.

(** [s.split(sep)] on a one-character separator: never empty. *)
Fixpoint split (sep : ascii) (s : string) : list string :=
  match s with
  | EmptyString => [EmptyString]
  | String c r =>
      if Ascii.eqb c sep then EmptyString :: split sep r
      else match split sep r with
           | h :: t => String c h :: t
           | [] => [String c EmptyString]
           end
  end.

Fixpoint join (sep : string) (l : list string) : string :=
  match l with
  | [] => EmptyString
  | [x] => x
  | x :: r => x ++ sep ++ join sep r
  end.

Fixpoint contains (c : ascii) (s : string) : bool :=
  match s with
  | EmptyString => false
  | String d r => Ascii.eqb c d || contains c r
  end.

End Str.

(** ** Flashcards.tsx *)

Module Flashcards.

Inductive Difficulty : Type := easy | medium | hard.

Record Flashcard : Type := {
  id : string;
  question : string;
  answer : string;
  difficulty : Difficulty;
  mastery_level : Z
}.

(** The [useState] cells of the component that the handlers touch. *)
Record State : Type := {
  flashcards : list Flashcard;
  currentIndex : Z;
  flipped : bool
}.

(** The row update sent to the store by [handleMastery]. *)
Record Update : Type := {
  upd_id : string;
  upd_mastery_level : Z;
  upd_last_reviewed : Z
}.

(** [flashcards[i]]: [None] is [undefined]. *)
Definition card_at (cards : list Flashcard) (i : Z) : option Flashcard :=
  if i <? 0 then None else nth_error cards (Z.to_nat i).

Definition handleFlip (s : State) : State :=
  {| flashcards := flashcards s;
     currentIndex := currentIndex s;
     flipped := negb (flipped s) |}.

Definition deck_size (s : State) : Z := Z.of_nat (length (flashcards s)).

(** [setFlipped(false); setCurrentIndex(prev => (prev + 1) % length)].
    [None] when the deck is empty (the index would be NaN); the view shows
    no navigation button then. *)
Definition handleNext (s : State) : option State :=
  match Js.rem (currentIndex s + 1) (deck_size s) with
  | Some i => Some {| flashcards := flashcards s; currentIndex := i; flipped := false |}
  | None => None
  end.

(** [setFlipped(false);
     setCurrentIndex(prev => (prev - 1 + length) % length)]. *)
Definition handlePrevious (s : State) : option State :=
  match Js.rem (currentIndex s - 1 + deck_size s) (deck_size s) with
  | Some i => Some {| flashcards := flashcards s; currentIndex := i; flipped := false |}
  | None => None
  end.

(** [correct ? Math.min(m + 1, 5) : Math.max(m - 1, 0)]. *)
Definition newMasteryLevel (m : Z) (correct : bool) : Z :=
  if correct then Z.min (m + 1) 5 else Z.max (m - 1) 0.

Definition set_mastery (c : Flashcard) (m : Z) : Flashcard :=
  {| id := id c; question := question c; answer := answer c;
     difficulty := difficulty c; mastery_level := m |}.

(** [updatedCards[i].mastery_level = m] on a copy of the array. *)
Fixpoint update_at (cards : list Flashcard) (i : nat) (m : Z) : list Flashcard :=
  match cards, i with
  | [], _ => []
  | c :: r, O => set_mastery c m :: r
  | c :: r, S j => c :: update_at r j m
  end.

(** [handleMastery(correct)] at time [now], when nothing happens on the
    page while the update is awaited: the update request and the state
    after the local write and [handleNext].  [None] when there is no
    current card ([card.mastery_level] on [undefined] throws).  The new
    level is computed before the [await] of the update, and the local write
    after it goes to the card the handler was called for.  The two halves
    of the call are [handleMastery_call] and [handleMastery_resume] below,
    with the events that can come between them in [step]. *)
Definition handleMastery (now : Z) (correct : bool) (s : State)
  : option (State * Update) :=
  match card_at (flashcards s) (currentIndex s) with
  | None => None
  | Some card =>
      let m := newMasteryLevel (mastery_level card) correct in
      let u := {| upd_id := id card; upd_mastery_level := m;
                  upd_last_reviewed := now |} in
      let s1 := {| flashcards := update_at (flashcards s) (Z.to_nat (currentIndex s)) m;
                   currentIndex := currentIndex s;
                   flipped := flipped s |} in
      match handleNext s1 with
      | Some s2 => Some (s2, u)
      | None => None
      end
  end.

Definition sample_card : Flashcard :=
  {| id := "card-1"; question := "What is mitosis?"; answer := "Cell division";
     difficulty := medium; mastery_level := 5 |}.

(** One card at the top level, shown flipped. *)
Definition sample_state : State :=
  {| flashcards := [sample_card]; currentIndex := 0; flipped := true |}.

(** Three cards, the first one shown flipped. *)
Definition sample_deck : State :=
  {| flashcards := [sample_card; set_mastery sample_card 0; set_mastery sample_card 2];
     currentIndex := 0; flipped := true |}.

(** Two cards, the first one at level 2 and shown flipped. *)
Definition level_two_deck : State :=
  {| flashcards := [set_mastery sample_card 2; sample_card];
     currentIndex := 0; flipped := true |}.

(** The contract's formula: [clamp(x, lo, hi)]. *)
Definition clamp (x lo hi : Z) : Z := Z.max lo (Z.min x hi).

(** The contract's [applyReview]: the mastery level after a review. *)
Definition applyReview_spec (m : Z) (correct : bool) : Z :=
  clamp (m + (if correct then 1 else -1)) 0 5.

(** The component as first rendered, before [loadFlashcards] returns. *)
Definition initial : State :=
  {| flashcards := []; currentIndex := 0; flipped := false |}.

(** [if (!error && data && data.length > 0) setFlashcards(data)]. *)
Definition loadFlashcards (error : bool) (data : option (list Flashcard))
    (s : State) : State :=
  match data with
  | Some cards =>
      if negb error && (0 <? length cards)%nat
      then {| flashcards := cards; currentIndex := currentIndex s;
              flipped := flipped s |}
      else s
  | None => s
  end.

Definition mount (error : bool) (data : option (list Flashcard)) : State :=
  loadFlashcards error data initial.

(** The row [finishSession] inserts into [study_sessions]; [content_id] is
    [flashcards[currentIndex]?.id], absent without a current card. *)
Record StudySession : Type := {
  user_id : string;
  session_type : string;
  content_id : option string;
  completed : bool;
  duration_minutes : Z
}.

Definition finishSession (now sessionStart : Z) (user : string) (s : State)
  : StudySession :=
  {| user_id := user; session_type := "flashcard";
     content_id := option_map id (card_at (flashcards s) (currentIndex s));
     completed := true;
     duration_minutes := Js.round_div (now - sessionStart) 60000 |}.

(** [handleMastery] is asynchronous: it reads the card and computes the
    new level when the button is clicked, sends the update, and only after
    the [await] writes the level to the card and calls [handleNext].  What
    a call carries across its [await] is the index it was called at and the
    level it computed. *)
Record Pending : Type := {
  at_index : Z;
  new_level : Z
}.

(** [handleMastery(correct)] at time [now], up to its [await]: the update
    request, and what the rest of the call will use.  [None] when there is
    no current card. *)
Definition handleMastery_call (now : Z) (correct : bool) (s : State)
  : option (Pending * Update) :=
  match card_at (flashcards s) (currentIndex s) with
  | None => None
  | Some card =>
      let m := newMasteryLevel (mastery_level card) correct in
      Some ({| at_index := currentIndex s; new_level := m |},
            {| upd_id := id card; upd_mastery_level := m;
               upd_last_reviewed := now |})
  end.

(** [handleMastery] after its [await], on the state as it is by then.  The
    cards are objects shared by every copy of the array, and no handler
    reorders or replaces them: the write
    [updatedCards[currentIndex].mastery_level = newMasteryLevel] lands on
    the card at the index of the call, whatever is shown now, and
    [handleNext] then moves on from the index shown now. *)
Definition handleMastery_resume (q : Pending) (s : State) : option State :=
  handleNext {| flashcards := update_at (flashcards s) (Z.to_nat (at_index q))
                                (new_level q);
                currentIndex := currentIndex s;
                flipped := flipped s |}.

(** The study page: what is shown, and the calls of [handleMastery] whose
    update has not settled yet, oldest first. *)
Record Page : Type := {
  shown : State;
  in_flight : list Pending
}.

Definition loaded (error : bool) (data : option (list Flashcard)) : Page :=
  {| shown := mount error data; in_flight := [] |}.

Definition remove_nth {A : Type} (k : nat) (l : list A) : list A :=
  firstn k l ++ skipn (S k) l.

(** The controls of the study page, and the settling of an update.  The
    page with an empty deck has none of the controls; the two review
    buttons are rendered while the card is flipped, also while an earlier
    review is still waiting for its update; updates settle in any order. *)
Inductive Event : Type :=
| Flip
| Next
| Previous
| Review (correct : bool)
| UpdateSettled (k : nat).

Definition is_review (e : Event) : bool :=
  match e with Review _ => true | _ => false end.

(** One event on the page, with the updates it sends; [None] when the
    page does not offer the event. *)
Definition step (now : Z) (e : Event) (p : Page)
  : option (Page * list Update) :=
  match flashcards (shown p) with
  | [] => None
  | _ =>
      match e with
      | Flip => Some ({| shown := handleFlip (shown p); in_flight := in_flight p |}, [])
      | Next =>
          option_map (fun s' => ({| shown := s'; in_flight := in_flight p |}, []))
                     (handleNext (shown p))
      | Previous =>
          option_map (fun s' => ({| shown := s'; in_flight := in_flight p |}, []))
                     (handlePrevious (shown p))
      | Review correct =>
          if flipped (shown p)
          then option_map
                 (fun r => ({| shown := shown p;
                               in_flight := in_flight p ++ [fst r] |}, [snd r]))
                 (handleMastery_call now correct (shown p))
          else None
      | UpdateSettled k =>
          match nth_error (in_flight p) k with
          | Some q =>
              option_map
                (fun s' => ({| shown := s';
                               in_flight := remove_nth k (in_flight p) |}, []))
                (handleMastery_resume q (shown p))
          | None => None
          end
      end
  end.

(** A timed sequence of events, with the updates sent along the way. *)
Fixpoint run (trace : list (Z * Event)) (p : Page)
  : option (Page * list Update) :=
  match trace with
  | [] => Some (p, [])
  | (now, e) :: rest =>
      match step now e p with
      | Some (p1, us) =>
          match run rest p1 with
          | Some (p2, us') => Some (p2, us ++ us')
          | None => None
          end
      | None => None
      end
  end.

(** The update of a review clicked at time [fst tc] with verdict [snd tc]
    on a card. *)
Definition update_for (card : Flashcard) (tc : Z * bool) : Update :=
  {| upd_id := id card;
     upd_mastery_level := newMasteryLevel (mastery_level card) (snd tc);
     upd_last_reviewed := fst tc |}.

(** "Next" clicked [k] times. *)
Fixpoint next_times (k : nat) (s : State) : option State :=
  match k with
  | O => Some s
  | S k' =>
      match handleNext s with
      | Some s' => next_times k' s'
      | None => None
      end
  end.

(** Every card of the deck has its level in [0, 5]. *)
Definition levels_in_range (cards : list Flashcard) : Prop :=
  Forall (fun c => 0 <= mastery_level c <= 5) cards.

(** What a review never touches. *)
Definition face (c : Flashcard) : string * string * string * Difficulty :=
  (id c, question c, answer c, difficulty c).

End Flashcards.

(** ** The quiz component *)

Module Quizzes.

Record QuizQuestion : Type := {
  question : string;
  options : list string;
  correct_answer : Z;
  explanation : option string
}.

Record Quiz : Type := {
  id : string;
  title : string;
  questions : list QuizQuestion;
  total_questions : Z
}.

(** A row inserted into [study_sessions] by [finishQuiz]. *)
Record StudySession : Type := {
  user_id : string;
  session_type : string;
  content_id : string;
  score : Js.number;
  completed : bool;
  duration_minutes : Z
}.

(** The [useState] cells of the component after [loadQuizzes] has returned
    ([loading] is false from then on), the signed-in user, and the two
    effects of [finishQuiz]: the rows it has sent to the store, and the
    number of its calls that are suspended at [await], each of which still
    has [setFinished(true)] to run. *)
Record State : Type := {
  user : string;
  quizzes : list Quiz;
  selectedQuiz : option Quiz;
  currentQuestion : nat;
  selectedAnswer : option Z;
  showResult : bool;
  answers : list bool;
  finished : bool;
  sessionStart : Z;
  study_sessions : list StudySession;
  pending : nat
}.

(** First render at time [now] ([useState(Date.now())]) followed by
    [loadQuizzes] returning [data]. *)
Definition mount (now : Z) (u : string) (data : list Quiz) : State :=
  {| user := u; quizzes := data; selectedQuiz := None; currentQuestion := 0;
     selectedAnswer := None; showResult := false; answers := [];
     finished := false; sessionStart := now; study_sessions := [];
     pending := 0 |}.

Definition startQuiz (quiz : Quiz) (s : State) : State :=
  {| user := user s; quizzes := quizzes s; selectedQuiz := Some quiz;
     currentQuestion := 0; selectedAnswer := None; showResult := false;
     answers := []; finished := false; sessionStart := sessionStart s;
     study_sessions := study_sessions s; pending := pending s |}.

Definition setSelectedAnswer (a : option Z) (s : State) : State :=
  {| user := user s; quizzes := quizzes s; selectedQuiz := selectedQuiz s;
     currentQuestion := currentQuestion s; selectedAnswer := a;
     showResult := showResult s; answers := answers s;
     finished := finished s; sessionStart := sessionStart s;
     study_sessions := study_sessions s; pending := pending s |}.

Definition setSelectedQuiz (q : option Quiz) (s : State) : State :=
  {| user := user s; quizzes := quizzes s; selectedQuiz := q;
     currentQuestion := currentQuestion s; selectedAnswer := selectedAnswer s;
     showResult := showResult s; answers := answers s;
     finished := finished s; sessionStart := sessionStart s;
     study_sessions := study_sessions s; pending := pending s |}.

Definition setFinished (b : bool) (s : State) : State :=
  {| user := user s; quizzes := quizzes s; selectedQuiz := selectedQuiz s;
     currentQuestion := currentQuestion s; selectedAnswer := selectedAnswer s;
     showResult := showResult s; answers := answers s;
     finished := b; sessionStart := sessionStart s;
     study_sessions := study_sessions s; pending := pending s |}.

(** [handleAnswer]: returns at once without a selection or a quiz;
    otherwise appends the outcome and reveals.  [None]: the current
    question is [undefined] and reading [correct_answer] throws. *)
Definition handleAnswer (s : State) : option State :=
  match selectedAnswer s, selectedQuiz s with
  | Some a, Some q =>
      match nth_error (questions q) (currentQuestion s) with
      | None => None
      | Some qq =>
          let isCorrect := a =? correct_answer qq in
          Some {| user := user s; quizzes := quizzes s;
                  selectedQuiz := selectedQuiz s;
                  currentQuestion := currentQuestion s;
                  selectedAnswer := selectedAnswer s;
                  showResult := true;
                  answers := answers s ++ [isCorrect];
                  finished := finished s; sessionStart := sessionStart s;
                  study_sessions := study_sessions s; pending := pending s |}
      end
  | _, _ => Some s
  end.

(** [Math.round((answers.filter(a => a).length / answers.length) * 100)],
    on doubles. *)
Definition quizScore (outcomes : list bool) : Js.number :=
  Js.Math_round
    (PrimFloat.mul
       (PrimFloat.div (Js.of_length (length (filter (fun a => a) outcomes)))
                      (Js.of_length (length outcomes)))
       100%float).

(** [Math.round((Date.now() - sessionStart) / 60000)]. *)
Definition sessionDuration (now start : Z) : Z := Js.round_div (now - start) 60000.

(** [finishQuiz] up to its [await]: the score and the duration are
    computed, the insert is sent, and the call suspends. *)
Definition finishQuiz (now : Z) (s : State) : State :=
  match selectedQuiz s with
  | None => s
  | Some q =>
      let row := {| user_id := user s; session_type := "quiz";
                    content_id := id q; score := quizScore (answers s);
                    completed := true;
                    duration_minutes := sessionDuration now (sessionStart s) |} in
      {| user := user s; quizzes := quizzes s; selectedQuiz := selectedQuiz s;
         currentQuestion := currentQuestion s;
         selectedAnswer := selectedAnswer s; showResult := showResult s;
         answers := answers s; finished := finished s;
         sessionStart := sessionStart s;
         study_sessions := study_sessions s ++ [row];
         pending := S (pending s) |}
  end.

(** The rest of a suspended [finishQuiz], run when the insert settles:
    [setFinished(true)]. *)
Definition finishQuiz_resume (s : State) : State :=
  {| user := user s; quizzes := quizzes s; selectedQuiz := selectedQuiz s;
     currentQuestion := currentQuestion s; selectedAnswer := selectedAnswer s;
     showResult := showResult s; answers := answers s;
     finished := true; sessionStart := sessionStart s;
     study_sessions := study_sessions s; pending := Nat.pred (pending s) |}.

(** [handleNext]: next question while
    [currentQuestion < questions.length - 1], else [finishQuiz()]. *)
Definition handleNext (now : Z) (s : State) : State :=
  match selectedQuiz s with
  | None => s
  | Some q =>
      if Z.of_nat (currentQuestion s) <? Z.of_nat (length (questions q)) - 1 then
        {| user := user s; quizzes := quizzes s; selectedQuiz := selectedQuiz s;
           currentQuestion := S (currentQuestion s); selectedAnswer := None;
           showResult := false; answers := answers s; finished := finished s;
           sessionStart := sessionStart s;
           study_sessions := study_sessions s; pending := pending s |}
      else finishQuiz now s
  end.

Definition getScoreMessage (sc : Js.number) : string * string :=
  if Js.geb sc 90 then ("Outstanding!", "text-green-600")
  else if Js.geb sc 70 then ("Great job!", "text-blue-600")
  else if Js.geb sc 50 then ("Good effort!", "text-yellow-600")
  else ("Keep studying!", "text-orange-600").

(** What the component renders, in the order of its [return]s: the empty
    page, the results page, the question page, the list of quizzes.  The
    question page reads [questions[currentQuestion].question]; when that
    question is [undefined] the render throws. *)
Inductive View : Type :=
| NoQuizzes
| Results (q : Quiz) (sc : Js.number) (text : string)
| Question (q : Quiz) (qq : QuizQuestion)
| RenderError
| QuizList.

Definition view (s : State) : View :=
  match quizzes s with
  | [] => NoQuizzes
  | _ =>
      match selectedQuiz s with
      | Some q =>
          if finished s then
            let sc := quizScore (answers s) in
            Results q sc (fst (getScoreMessage sc))
          else
            match nth_error (questions q) (currentQuestion s) with
            | Some qq => Question q qq
            | None => RenderError
            end
      | None => QuizList
      end
  end.

(** What can happen to a mounted component: a click on a control of the
    current page, or the insert of a suspended [finishQuiz] settling. *)
Inductive Event : Type :=
| ClickStart (k : nat)
| ClickOption (i : nat)
| ClickSubmit
| ClickNext
| ClickBack
| ClickRetake
| ClickBackToQuizzes
| InsertSettled.

(** One event at time [now].  [None]: the page shown has no such enabled
    control (or nothing is suspended, or the render has thrown). *)
Definition step (now : Z) (e : Event) (s : State) : option State :=
  match view s, e with
  | RenderError, _ => None
  | _, InsertSettled =>
      match pending s with
      | O => None
      | S _ => Some (finishQuiz_resume s)
      end
  | QuizList, ClickStart k =>
      match nth_error (quizzes s) k with
      | Some q => Some (startQuiz q s)
      | None => None
      end
  | Question _ qq, ClickOption i =>
      if showResult s then None
      else if (i <? length (options qq))%nat
           then Some (setSelectedAnswer (Some (Z.of_nat i)) s)
           else None
  | Question _ _, ClickSubmit =>
      if showResult s then None
      else match selectedAnswer s with
           | None => None
           | Some _ => handleAnswer s
           end
  | Question _ _, ClickNext =>
      if showResult s then Some (handleNext now s) else None
  | Question _ _, ClickBack => Some (setSelectedQuiz None s)
  | Results q _ _, ClickRetake => Some (startQuiz q s)
  | Results _ _ _, ClickBackToQuizzes =>
      Some (setFinished false (setSelectedQuiz None s))
  | _, _ => None
  end.

(** A timed sequence of events. *)
Fixpoint run (trace : list (Z * Event)) (s : State) : option State :=
  match trace with
  | [] => Some s
  | (now, e) :: rest =>
      match step now e s with
      | Some s' => run rest s'
      | None => None
      end
  end.

(** States reachable from a mount. *)
Inductive reachable : State -> Prop :=
| reach_mount : forall now u data, reachable (mount now u data)
| reach_step : forall s now e s',
    reachable s -> step now e s = Some s' -> reachable s'.

(** The bookkeeping that ties the outcomes to the position in the quiz. *)
Definition in_step (s : State) : Prop :=
  length (answers s) = (currentQuestion s + (if showResult s then 1 else 0))%nat.

(** What holds after each event when every insert settles at once. *)
Definition settled (s : State) : Prop :=
  pending s = 0%nat /\ in_step s /\
  (finished s = true ->
   exists q, selectedQuiz s = Some q /\
             length (answers s) = length (questions q) /\
             (1 <= length (answers s))%nat).

(** The machine in which no event comes between a [finishQuiz] call and
    the settling of its insert: whatever is suspended after an event resumes
    at once. *)
Definition settle (s : State) : State :=
  match pending s with
  | O => s
  | S _ => finishQuiz_resume s
  end.

Definition step_prompt (now : Z) (e : Event) (s : State) : option State :=
  option_map settle (step now e s).

Inductive reachable_prompt : State -> Prop :=
| prompt_mount : forall now u data, reachable_prompt (mount now u data)
| prompt_step : forall s now e s',
    reachable_prompt s -> step_prompt now e s = Some s' -> reachable_prompt s'.

(** The score the contract asks for, [round(100 * correct / total)], with
    exact arithmetic and ties rounded up. *)
Definition score_spec (outcomes : list bool) : Z :=
  Js.round_div (100 * Z.of_nat (length (filter (fun a => a) outcomes)))
               (Z.of_nat (length outcomes)).

(** The same formula evaluated on doubles in the order the contract writes
    it: [Math.round(100 * correct / total)]. *)
Definition score_spec_float (outcomes : list bool) : Js.number :=
  Js.Math_round
    (PrimFloat.div
       (PrimFloat.mul 100%float
          (Js.of_length (length (filter (fun a => a) outcomes))))
       (Js.of_length (length outcomes))).

(** Whether the exact and the double computation of the duration agree
    at every half minute up to [bound] half minutes, one millisecond before
    and one after. *)
Definition duration_exact_up_to (bound : nat) : bool :=
  forallb (fun k =>
    forallb (fun d =>
      match Js.round_div_float d 60000 with
      | Js.Int z => z =? sessionDuration d 0
      | _ => false
      end)
      [Z.max 0 (30000 * Z.of_nat k - 1); 30000 * Z.of_nat k; 30000 * Z.of_nat k + 1])
    (seq 0 bound).

(** [c] correct outcomes followed by [n - c] wrong ones. *)
Definition outcomes_of (c n : nat) : list bool :=
  repeat true c ++ repeat false (n - c).

(** Whether [quizScore] agrees with [score_spec] and stays within
    [0, 100] for every quiz of [1] to [bound] questions. *)
Definition score_exact_up_to (bound : nat) : bool :=
  forallb (fun n =>
    forallb (fun c =>
      match quizScore (outcomes_of c n) with
      | Js.Int z => (z =? score_spec (outcomes_of c n)) && (0 <=? z) && (z <=? 100)
      | _ => false
      end) (seq 0 (S n))) (seq 1 bound).

Definition sample_question : QuizQuestion :=
  {| question := "2 + 2 = ?"; options := ["3"; "4"]; correct_answer := 1;
     explanation := None |}.

Definition sample_quiz : Quiz :=
  {| id := "quiz-1"; title := "Sums"; questions := [sample_question];
     total_questions := 1 |}.

(** The results page of [sample_quiz] after one attempt, answered right,
    in a component mounted at time 0. *)
Definition results_state : State :=
  {| user := "user-1"; quizzes := [sample_quiz]; selectedQuiz := Some sample_quiz;
     currentQuestion := 0; selectedAnswer := Some 1; showResult := true;
     answers := [true]; finished := true; sessionStart := 0;
     study_sessions :=
       [{| user_id := "user-1"; session_type := "quiz"; content_id := "quiz-1";
           score := Js.Int 100; completed := true; duration_minutes := 0 |}];
     pending := 0 |}.

(** The quiz is answered and "Finish Quiz" is clicked; before the insert
    settles the user goes back to the list and starts the quiz again; then
    the insert settles. *)
Definition stale_finish_trace : list (Z * Event) :=
  [ (1000, ClickStart 0%nat); (2000, ClickOption 1%nat); (3000, ClickSubmit);
    (4000, ClickNext); (4100, ClickBack); (4200, ClickStart 0%nat);
    (4300, InsertSettled) ].

(** A first attempt, then "Retake Quiz" ten minutes after the mount and a
    second attempt finished one minute later. *)
Definition retake_trace : list (Z * Event) :=
  [ (1000, ClickStart 0%nat); (2000, ClickOption 1%nat); (3000, ClickSubmit);
    (4000, ClickNext); (4500, InsertSettled);
    (600000, ClickRetake);
    (620000, ClickOption 0%nat); (640000, ClickSubmit);
    (660000, ClickNext); (660500, InsertSettled) ].

(** Answering a quiz: for each question the option chosen and the time of
    the three clicks (choose, "Submit Answer", "Next Question" or "Finish
    Quiz"). *)
Fixpoint play (moves : list (Z * nat)) : list (Z * Event) :=
  match moves with
  | [] => []
  | (t, c) :: rest =>
      (t, ClickOption c) :: (t, ClickSubmit) :: (t, ClickNext) :: play rest
  end.

(** Whether each choice is the question's [correct_answer]. *)
Fixpoint outcomes_for (qs : list QuizQuestion) (moves : list (Z * nat))
  : list bool :=
  match qs, moves with
  | qq :: qs', (_, c) :: ms =>
      (Z.of_nat c =? correct_answer qq) :: outcomes_for qs' ms
  | _, _ => []
  end.

(** One move per question, each an option the question has. *)
Fixpoint valid_moves (qs : list QuizQuestion) (moves : list (Z * nat)) : Prop :=
  match qs, moves with
  | [], [] => True
  | qq :: qs', (_, c) :: ms =>
      (c < length (options qq))%nat /\ valid_moves qs' ms
  | _, _ => False
  end.

(** How many of the events are clicks on "Next Question" / "Finish Quiz". *)
Fixpoint next_clicks (trace : list (Z * Event)) : nat :=
  match trace with
  | [] => O
  | (_, ClickNext) :: rest => S (next_clicks rest)
  | _ :: rest => next_clicks rest
  end.

(** A row as [finishQuiz] writes it for user [u] and a quiz of [data]. *)
Definition quiz_row (u : string) (data : list Quiz) (row : StudySession) : Prop :=
  user_id row = u /\ session_type row = "quiz" /\ completed row = true /\
  In (content_id row) (map id data).

(** What every event keeps: the user, the list of quizzes, the selected
    quiz being one of them, and the shape of the rows sent so far. *)
Definition rows_kept (u : string) (data : list Quiz) (s : State) : Prop :=
  user s = u /\ quizzes s = data /\
  (forall q, selectedQuiz s = Some q -> In q data) /\
  Forall (quiz_row u data) (study_sessions s).

Definition two_questions : Quiz :=
  {| id := "quiz-2"; title := "More sums";
     questions := [sample_question;
                   {| question := "3 + 3 = ?"; options := ["5"; "6"; "7"];
                      correct_answer := 1; explanation := Some "Count." |}];
     total_questions := 2 |}.

(** The last question of [sample_quiz], answered and revealed. *)
Definition revealed_state : State :=
  {| user := "user-1"; quizzes := [sample_quiz]; selectedQuiz := Some sample_quiz;
     currentQuestion := 0; selectedAnswer := Some 1; showResult := true;
     answers := [true]; finished := false; sessionStart := 0;
     study_sessions := []; pending := 0 |}.

End Quizzes.

(** ** Values received from the network *)

Module Json.

(** What [response.json()] can return, plus [undefined] for absent
    properties.  [JNum z] stands for the number [z] where [z] is a safe
    integer (at most 2^53 - 1 in absolute value, [safe_integer]): there a
    double holds [z] exactly and [String] prints all its digits.  Other
    numbers (fractions, larger values) are outside the model; see
    [safe]. *)
Inductive value : Type :=
| JUndefined
| JNull
| JBool (b : bool)
| JNum (z : Z)
| JStr (s : string)
| JArr (items : list value)
| JObj (fields : list (string * value)).

(** What a [catch] clause receives: an [Error] with its message. *)
Inductive exn : Type :=
| Error (message : string)
| TypeError (message : string).

Definition message_of (e : exn) : string :=
  match e with Error m => m | TypeError m => m end.

Definition truthy (v : value) : bool :=
  match v with
  | JUndefined | JNull => false
  | JBool b => b
  | JNum z => negb (z =? 0)
  | JStr s => Str.truthy s
  | JArr _ | JObj _ => true
  end.

Definition isArray (v : value) : bool :=
  match v with JArr _ => true | _ => false end.

(** The elements of an array. *)
Definition items_of (v : value) : list value :=
  match v with JArr items => items | _ => [] end.

(** The value of a key in a parsed object: the last occurrence wins. *)
Fixpoint lookup (key : string) (fields : list (string * value)) : value :=
  match fields with
  | [] => JUndefined
  | (k, v) :: rest =>
      match lookup key rest with
      | JUndefined => if String.eqb k key then v else JUndefined
      | later => later
      end
  end.

(** [v.key] for the property names read by the components ([error],
    [flashcards], [questions], [response], [question], [answer],
    [difficulty]): none of them is a built-in property of a string, a
    number, a boolean or an array.  Reading a property of [null] or
    [undefined] throws; the message is V8's. *)
Definition get (v : value) (key : string) : exn + value :=
  match v with
  | JUndefined =>
      inl (TypeError ("Cannot read properties of undefined (reading '" ++ key ++ "')"))
  | JNull =>
      inl (TypeError ("Cannot read properties of null (reading '" ++ key ++ "')"))
  | JObj fields => inr (lookup key fields)
  | _ => inr JUndefined
  end.

(** [String(z)] for a safe integer [z]: its decimal digits.  (From 1e21
    on [String] switches to exponent notation, and above 2^53 it prints the
    shortest digits that read back as the same double; neither is
    modelled.) *)
Definition decimal (z : Z) : string :=
  DecimalString.NilZero.string_of_int (Z.to_int z).



(** [String(v)], the message of [new Error(v)]. *)
Fixpoint to_string (v : value) : string :=
  match v with
  | JUndefined => "undefined"
  | JNull => "null"
  | JBool true => "true"
  | JBool false => "false"
  | JNum z => decimal z
  | JStr s => s
  | JArr items =>
      Str.join ","
        (map (fun e => match e with
                       | JUndefined | JNull => EmptyString
                       | _ => to_string e
                       end) items)
  | JObj _ => "[object Object]"
  end.

(** How a [fetch] followed by [response.json()] can end. *)
Inductive body : Type :=
| BadJson (message : string)
| Parsed (data : value).

Inductive reply : Type :=
| FetchFailed (message : string)
| Response (ok : bool) (statusText : string) (b : body).

End Json.

(** ** lib/fileParser.ts *)

Module FileParser.

(** What pdf.js yields for a file: a failure, or for each page its text
    items, each with its [str] (absent: [None]). *)
Inductive pdf : Type :=
| PdfFailed (message : string)
| PdfPages (pages : list (list (option string))).

Inductive text_read : Type :=
| ReadFailed (message : string)
| ReadOk (text : string).

Record File : Type := {
  name : string;
  as_text : text_read;
  as_pdf : pdf
}.

Record Parsed : Type := {
  content : string;
  type : string
}.

(** One page: [items.map(i => i.str ? i.str.trim() : '')
    .filter(Boolean).join(' ')]. *)
Definition pageText (items : list (option string)) : string :=
  Str.join " "
    (filter Str.truthy
       (map (fun i => match i with
                      | Some s => if Str.truthy s then Str.trim s else EmptyString
                      | None => EmptyString
                      end) items)).

Definition newline : string := String (ascii_of_nat 10) EmptyString.

Fixpoint fullText (pages : list (list (option string))) : string :=
  match pages with
  | [] => EmptyString
  | p :: rest => (pageText p ++ newline ++ fullText rest)%string
  end.

Definition parsePDF (f : File) : Json.exn + string :=
  match as_pdf f with
  | PdfFailed m => inl (Json.Error ("Failed to parse PDF: " ++ m))
  | PdfPages pages =>
      let t := Str.trim (fullText pages) in
      if Str.truthy t then inr t
      else inl (Json.Error ("Failed to parse PDF: " ++ "PDF contains no readable text"))
  end.

Definition parseTextFile (f : File) : Json.exn + string :=
  match as_text f with
  | ReadFailed m => inl (Json.Error m)
  | ReadOk t => inr t
  end.

(** [file.name.split('.').pop()?.toLowerCase() || '']. *)
Definition extension_of (n : string) : string :=
  Str.toLowerCase (last (Str.split "." n) EmptyString).

Definition text_extensions : list string := ["txt"; "md"; "doc"; "docx"].

Definition includes (l : list string) (x : string) : bool :=
  existsb (String.eqb x) l.

Definition parseFile (f : File) : Json.exn + Parsed :=
  let extension := extension_of (name f) in
  if String.eqb extension "pdf" then
    match parsePDF f with
    | inl e => inl e
    | inr c => inr {| content := c; type := "pdf" |}
    end
  else if includes text_extensions extension then
    match parseTextFile f with
    | inl e =>
        inl (Json.Error ("Failed to parse " ++ extension ++ " file: " ++ Json.message_of e))
    | inr c =>
        if negb (Str.truthy c) || negb (Str.truthy (Str.trim c)) then
          inl (Json.Error ("Failed to parse " ++ extension ++ " file: "
                           ++ "File content is empty"))
        else inr {| content := c; type := extension |}
    end
  else
    inl (Json.Error ("Unsupported file type: ." ++ extension
                     ++ ". Supported types: PDF, TXT, MD, DOC, DOCX")).

End FileParser.

(** ** Documents.tsx *)

Module Doc.

(** A row of [documents] as the components read it. *)
Record Document : Type := {
  id : string;
  title : string;
  content : string;
  file_type : string;
  created_at : string
}.

End Doc.

Module Documents.

Import Doc(Document).

(** The object passed to [insert] on [documents]. *)
Record DocumentRow : Type := {
  row_user_id : string;
  row_title : string;
  row_content : string;
  row_file_type : string
}.

(** The store's answer to [insert(...).select().single()]. *)
Inductive db_reply : Type :=
| DbError (message : string)
| DbData (data : Document).

Record State : Type := {
  user : option string;
  supabase : bool;
  documents : list Document;
  uploading : bool;
  title : string;
  content : string
}.

(** A handler's effects: rows sent to the store and alerts shown. *)
Record Effects (row : Type) : Type := {
  inserts : list row;
  alerts : list string
}.
Arguments inserts {row} _.
Arguments alerts {row} _.

(** [name.replace(/\.[^/.]+$/, '')]: a final dot followed by at least one
    character, none of them a slash, is cut off. *)
Definition strip_extension (n : string) : string :=
  match rev (Str.split "." n) with
  | ext :: (_ :: _) as before =>
      if Str.truthy ext && negb (Str.contains "/" ext)
      then Str.join "." (rev before)
      else n
  | _ => n
  end.

Definition handleFileUpload (file : option FileParser.File) (s : State)
  : State * Effects DocumentRow :=
  match file with
  | None => (s, {| inserts := []; alerts := [] |})
  | Some f =>
      match FileParser.parseFile f with
      | inr p =>
          ({| user := user s; supabase := supabase s; documents := documents s;
              uploading := false;
              title := strip_extension (FileParser.name f);
              content := FileParser.content p |},
           {| inserts := []; alerts := [] |})
      | inl e =>
          ({| user := user s; supabase := supabase s; documents := documents s;
              uploading := false; title := title s; content := content s |},
           {| inserts := []; alerts := [Json.message_of e] |})
      end
  end.

Definition handleSubmit (store : DocumentRow -> db_reply) (s : State)
  : State * Effects DocumentRow :=
  match user s with
  | None =>
      (s, {| inserts := [];
             alerts := ["You must be logged in to upload documents"] |})
  | Some uid =>
      if negb (Str.truthy (title s)) || negb (Str.truthy (content s)) then
        (s, {| inserts := [];
               alerts := ["Please provide both a title and content for your document"] |})
      else
        let failed (sent : list DocumentRow) (m : string) :=
          ({| user := user s; supabase := supabase s; documents := documents s;
              uploading := false; title := title s; content := content s |},
           {| inserts := sent;
              alerts := [("Error uploading document: " ++ m
                          ++ ". Please try again.")%string] |}) in
        if negb (supabase s) then
          failed [] "Supabase is not configured. Please check your environment variables."
        else
          let row := {| row_user_id := uid; row_title := title s;
                        row_content := content s; row_file_type := "text" |} in
          match store row with
          | DbError m =>
              failed [row]
                (if Str.truthy m then m else "Failed to upload document to database")
          | DbData data =>
              ({| user := user s; supabase := supabase s;
                  documents := data :: documents s;
                  uploading := false; title := EmptyString;
                  content := EmptyString |},
               {| inserts := [row];
                  alerts := ["Document uploaded successfully!"] |})
          end
  end.

(** [import.meta.env] and the store client. *)
Record Env : Type := {
  VITE_SUPABASE_URL : option string;
  VITE_SUPABASE_ANON_KEY : option string
}.

Definition configured (v : option string) : bool :=
  match v with Some s => Str.truthy s | None => false end.

(** A row of the array passed to [insert] on [flashcards]. *)
Record FlashcardRow : Type := {
  fc_user_id : string;
  fc_document_id : string;
  fc_question : Json.value;
  fc_answer : Json.value;
  fc_difficulty : Json.value
}.

(** [data.flashcards.map(fc => ({ user_id: user!.id, ... }))]: the
    callback throws when there is no user or an element is [null]. *)
Fixpoint flashcardsToInsert (u : option string) (doc : Document)
    (items : list Json.value) : Json.exn + list FlashcardRow :=
  match items with
  | [] => inr []
  | fc :: rest =>
      match u with
      | None => inl (Json.TypeError "Cannot read properties of null (reading 'id')")
      | Some uid =>
          match Json.get fc "question", Json.get fc "answer", Json.get fc "difficulty" with
          | inr q, inr a, inr d =>
              match flashcardsToInsert u doc rest with
              | inl e => inl e
              | inr rows =>
                  inr ({| fc_user_id := uid; fc_document_id := Doc.id doc;
                          fc_question := q; fc_answer := a; fc_difficulty := d |}
                       :: rows)
              end
          | inl e, _, _ => inl e
          | _, inl e, _ => inl e
          | _, _, inl e => inl e
          end
      end
  end.

(** How [generateFlashcards] ends: in its [catch], or after the insert. *)
Inductive Outcome : Type :=
| Failed (e : Json.exn)
| Generated (rows : list FlashcardRow).

(** The [try] block of [generateFlashcards], statement by statement. *)
Definition generateFlashcards (env : Env) (s : State) (doc : Document)
    (r : Json.reply) : Outcome :=
  if negb (configured (VITE_SUPABASE_URL env))
     || negb (configured (VITE_SUPABASE_ANON_KEY env)) then
    Failed (Json.Error "Supabase configuration is missing")
  else
    match r with
    | Json.FetchFailed m => Failed (Json.TypeError m)
    | Json.Response ok statusText b =>
        if negb ok then Failed (Json.Error ("API error: " ++ statusText))
        else
          match b with
          | Json.BadJson m => Failed (Json.Error m)
          | Json.Parsed data =>
              match Json.get data "error" with
              | inl e => Failed e
              | inr err =>
                  if Json.truthy err then Failed (Json.Error (Json.to_string err))
                  else
                    match Json.get data "flashcards" with
                    | inl e => Failed e
                    | inr fl =>
                        if negb (Json.truthy fl) || negb (Json.isArray fl) then
                          Failed (Json.Error "Invalid response format")
                        else if (length (Json.items_of fl) =? 0)%nat then
                          Failed (Json.Error "No flashcards generated")
                        else
                          match flashcardsToInsert (user s) doc (Json.items_of fl) with
                          | inl e => Failed e
                          | inr rows =>
                              if negb (supabase s)
                              then Failed (Json.Error "Supabase is not configured")
                              else Generated rows
                          end
                    end
              end
          end
    end.


Definition alert_of (o : Outcome) : string :=
  match o with
  | Failed e => ("Error generating flashcards: " ++ Json.message_of e)%string
  | Generated rows =>
      ("Generated " ++ Json.decimal (Z.of_nat (length rows))
       ++ " flashcards! Go to Flashcards to study them.")%string
  end.




Definition sample_doc : Document :=
  {| Doc.id := "doc-1"; Doc.title := "Notes"; Doc.content := "Cells divide.";
     Doc.file_type := "text"; Doc.created_at := "2024-01-01" |}.

Definition sample_env : Env :=
  {| VITE_SUPABASE_URL := Some "https://example.supabase.co";
     VITE_SUPABASE_ANON_KEY := Some "anon" |}.

Definition sample_state : State :=
  {| user := Some "user-1"; supabase := true; documents := [];
     uploading := false; title := EmptyString; content := EmptyString |}.

(** The body a generation endpoint sends when it gives up: an [error]
    and no [flashcards]. *)
Definition error_body : Json.value :=
  Json.JObj [("error", Json.JStr "Document too short")].



(** The object passed to [insert] on [quizzes]. *)
Record QuizRow : Type := {
  quiz_user_id : string;
  quiz_document_id : string;
  quiz_title : Json.value;
  quiz_questions : Json.value;
  quiz_total_questions : Z
}.

Inductive QuizOutcome : Type :=
| QuizFailed (e : Json.exn)
| QuizGenerated (row : QuizRow).

(** The [try] block of [generateQuiz], statement by statement. *)
Definition generateQuiz (env : Env) (s : State) (doc : Document)
    (r : Json.reply) : QuizOutcome :=
  if negb (configured (VITE_SUPABASE_URL env))
     || negb (configured (VITE_SUPABASE_ANON_KEY env)) then
    QuizFailed (Json.Error "Supabase configuration is missing")
  else
    match r with
    | Json.FetchFailed m => QuizFailed (Json.TypeError m)
    | Json.Response ok statusText b =>
        if negb ok then QuizFailed (Json.Error ("API error: " ++ statusText))
        else
          match b with
          | Json.BadJson m => QuizFailed (Json.Error m)
          | Json.Parsed data =>
              match Json.get data "error" with
              | inl e => QuizFailed e
              | inr err =>
                  if Json.truthy err then QuizFailed (Json.Error (Json.to_string err))
                  else
                    match Json.get data "questions" with
                    | inl e => QuizFailed e
                    | inr qs =>
                        if negb (Json.truthy qs) || negb (Json.isArray qs) then
                          QuizFailed (Json.Error "Invalid response format")
                        else if (length (Json.items_of qs) =? 0)%nat then
                          QuizFailed (Json.Error "No quiz questions generated")
                        else if negb (supabase s) then
                          QuizFailed (Json.Error "Supabase is not configured")
                        else
                          match user s, Json.get data "title" with
                          | None, _ =>
                              QuizFailed (Json.TypeError
                                "Cannot read properties of null (reading 'id')")
                          | _, inl e => QuizFailed e
                          | Some uid, inr t =>
                              QuizGenerated
                                {| quiz_user_id := uid;
                                   quiz_document_id := Doc.id doc;
                                   quiz_title :=
                                     if Json.truthy t then t
                                     else Json.JStr "Untitled Quiz";
                                   quiz_questions := qs;
                                   quiz_total_questions :=
                                     Z.of_nat (length (Json.items_of qs)) |}
                          end
                    end
              end
          end
    end.

(** The rows that reach [quizzes]. *)
Definition quiz_inserted (o : QuizOutcome) : list QuizRow :=
  match o with QuizFailed _ => [] | QuizGenerated row => [row] end.


(** What [handleDelete] does besides changing the state: the ids it asks
    the store to delete and the alerts it shows. *)
Record Deletion : Type := {
  deletes : list string;
  delete_alerts : list string
}.

(** [handleDelete(id)]: [confirmed] is the answer to [confirm(...)],
    [store_error] whether the store reports an error for the delete. *)
Definition handleDelete (confirmed store_error : bool) (doc_id : string)
    (s : State) : State * Deletion :=
  if negb confirmed then (s, {| deletes := []; delete_alerts := [] |})
  else if negb (supabase s) then
    (s, {| deletes := []; delete_alerts := ["Supabase is not configured"] |})
  else if negb store_error then
    ({| user := user s; supabase := supabase s;
        documents := filter (fun d => negb (String.eqb (Doc.id d) doc_id))
                            (documents s);
        uploading := uploading s; title := title s; content := content s |},
     {| deletes := [doc_id]; delete_alerts := [] |})
  else (s, {| deletes := [doc_id]; delete_alerts := [] |}).

(** A well-formed quiz body of two questions without a title. *)
Definition quiz_body : Json.value :=
  Json.JObj [("questions",
              Json.JArr [Json.JObj [("question", Json.JStr "2 + 2 = ?")];
                         Json.JObj [("question", Json.JStr "3 + 3 = ?")]])].

(** The same body with a title. *)
Definition titled_quiz_body : Json.value :=
  Json.JObj [("title", Json.JStr "Cell biology");
             ("questions",
              Json.JArr [Json.JObj [("question", Json.JStr "2 + 2 = ?")];
                         Json.JObj [("question", Json.JStr "3 + 3 = ?")]])].

(** A well-formed flashcard body of two cards. *)
Definition flashcards_body : Json.value :=
  Json.JObj [("flashcards",
              Json.JArr [Json.JObj [("question", Json.JStr "Q1");
                                    ("answer", Json.JStr "A1");
                                    ("difficulty", Json.JStr "easy")];
                         Json.JObj [("question", Json.JStr "Q2");
                                    ("answer", Json.JStr "A2")]])].

(** The form filled in by hand, and a list of two documents. *)
Definition filled_state : State :=
  {| user := Some "user-1"; supabase := true;
     documents := [sample_doc;
                   {| Doc.id := "doc-0"; Doc.title := "Old"; Doc.content := "x";
                      Doc.file_type := "text"; Doc.created_at := "2023-12-31" |}];
     uploading := false; title := "Chapter 1"; content := " Cells divide. " |}.

Definition failing_store (r : DocumentRow) : db_reply := DbError "row too large".

Definition sample_txt : FileParser.File :=
  {| FileParser.name := "Lecture 1.TXT";
     FileParser.as_text := FileParser.ReadOk "  Cells divide.  ";
     FileParser.as_pdf := FileParser.PdfFailed "Invalid PDF structure" |}.

Definition sample_zip : FileParser.File :=
  {| FileParser.name := "notes.zip";
     FileParser.as_text := FileParser.ReadOk "PK";
     FileParser.as_pdf := FileParser.PdfFailed "Invalid PDF structure" |}.

End Documents.

(** ** Chat.tsx *)

Module Chat.

Import Doc(Document).

Inductive Role : Type := user_role | assistant.

(** A transcript entry.  The content is whatever was put there: a string
    written by the component, or a value taken from the reply. *)
Record Message : Type := {
  role : Role;
  content : Json.value
}.

(** A row inserted into [study_sessions] by [handleSubmit]. *)
Record StudySession : Type := {
  user_id : string;
  session_type : string;
  content_id : string;
  completed : bool;
  duration_minutes : Z
}.

Record State : Type := {
  user : option string;
  supabase : bool;
  selectedDoc : option Document;
  messages : list Message;
  input : string;
  loading : bool
}.

Definition say (r : Role) (c : Json.value) (s : State) : State :=
  {| user := user s; supabase := supabase s; selectedDoc := selectedDoc s;
     messages := messages s ++ [{| role := r; content := c |}];
     input := input s; loading := loading s |}.

Definition setLoading (b : bool) (s : State) : State :=
  {| user := user s; supabase := supabase s; selectedDoc := selectedDoc s;
     messages := messages s; input := input s; loading := b |}.

Definition setInput (i : string) (s : State) : State :=
  {| user := user s; supabase := supabase s; selectedDoc := selectedDoc s;
     messages := messages s; input := i; loading := loading s |}.

(** [data.response || 'No response from AI']. *)
Definition response_or_default (v : Json.value) : Json.value :=
  if Json.truthy v then v else Json.JStr "No response from AI".

Definition apology (e : Json.exn) : Json.value :=
  Json.JStr ("Sorry, I encountered an error: " ++ Json.message_of e
             ++ ". Please try again.").

(** The [try] block of [handleSubmit] after the user's message has been
    appended: the new state and the rows sent to [study_sessions]. *)
Definition exchange (env : Documents.Env) (uid : string) (doc : Document)
    (r : Json.reply) (s : State) : State * list StudySession :=
  if negb (Documents.configured (Documents.VITE_SUPABASE_URL env))
     || negb (Documents.configured (Documents.VITE_SUPABASE_ANON_KEY env)) then
    (say assistant
         (Json.JStr "Configuration error: Supabase URL or Key is missing.") s, [])
  else
    match r with
    | Json.FetchFailed m => (say assistant (apology (Json.TypeError m)) s, [])
    | Json.Response ok statusText b =>
        if negb ok then
          (say assistant (Json.JStr ("Service error: " ++ statusText)) s, [])
        else
          match b with
          | Json.BadJson m => (say assistant (apology (Json.Error m)) s, [])
          | Json.Parsed data =>
              match Json.get data "error" with
              | inl e => (say assistant (apology e) s, [])
              | inr err =>
                  if Json.truthy err then (say assistant err s, [])
                  else
                    match Json.get data "response" with
                    | inl e => (say assistant (apology e) s, [])
                    | inr resp =>
                        (say assistant (response_or_default resp) s,
                         [{| user_id := uid; session_type := "chat";
                             content_id := Doc.id doc; completed := true;
                             duration_minutes := 1 |}])
                    end
              end
          end
    end.

(** [handleSubmit]: the guard, the user's message, the exchange, and
    [setLoading(false)] in [finally]. *)
Definition handleSubmit (env : Documents.Env) (r : Json.reply) (s : State)
  : State * list StudySession :=
  match selectedDoc s, user s with
  | Some doc, Some uid =>
      if negb (Str.truthy (Str.trim (input s))) || loading s || negb (supabase s)
      then (s, [])
      else
        let s1 := say user_role (Json.JStr (Str.trim (input s))) s in
        let s2 := setLoading true (setInput EmptyString s1) in
        let (s3, rows) := exchange env uid doc r s2 in
        (setLoading false s3, rows)
  | _, _ => (s, [])
  end.

(** The turn was answered: the request went out and came back as a
    successful reply whose body carries no [error]. *)
Definition answered (env : Documents.Env) (r : Json.reply) : Prop :=
  Documents.configured (Documents.VITE_SUPABASE_URL env) = true /\
  Documents.configured (Documents.VITE_SUPABASE_ANON_KEY env) = true /\
  exists statusText data err,
    r = Json.Response true statusText (Json.Parsed data) /\
    Json.get data "error" = inr err /\ Json.truthy err = false.

(** A message can be sent: the guard of [handleSubmit] lets it through. *)
Definition ready (s : State) (uid : string) (doc : Document) : Prop :=
  selectedDoc s = Some doc /\ user s = Some uid /\
  Str.truthy (Str.trim (input s)) = true /\
  loading s = false /\ supabase s = true.

Definition sample_state : State :=
  {| user := Some "user-1"; supabase := true;
     selectedDoc := Some Documents.sample_doc;
     messages := [{| role := assistant; content := Json.JStr "Hi!" |}];
     input := "  What is mitosis? "; loading := false |}.

Definition sample_reply : Json.reply :=
  Json.Response true "OK"
    (Json.Parsed (Json.JObj [("response", Json.JStr "Cell division.")])).

(** [messages.slice(-n)]: the last [n] entries. *)
Definition slice_last {A : Type} (n : nat) (l : list A) : list A :=
  skipn (length l - n) l.

(** The body of the request to the chat endpoint. *)
Record Request : Type := {
  req_message : string;
  req_documentContent : string;
  req_conversationHistory : list Message
}.

(** The request [handleSubmit] builds: the history is read from the
    transcript as it was before the user's message was appended. *)
Definition request_of (doc : Document) (s : State) : Request :=
  {| req_message := Str.trim (input s);
     req_documentContent := Doc.content doc;
     req_conversationHistory := slice_last 6 (messages s) |}.

(** [handleSubmit] against a service that answers requests. *)
Definition handleSubmit_via (env : Documents.Env) (service : Request -> Json.reply)
    (s : State) : State * list StudySession :=
  match selectedDoc s with
  | Some doc => handleSubmit env (service (request_of doc s)) s
  | None => (s, [])
  end.

(** The double quote character. *)
Definition dquote : string := String (ascii_of_nat 34) EmptyString.

Definition greeting (doc : Document) : Message :=
  {| role := assistant;
     content := Json.JStr ("Hi! I'm ready to help you learn about " ++ dquote
                           ++ Doc.title doc ++ dquote
                           ++ ". What would you like to know?") |}.

Definition handleDocumentSelect (doc : Document) (s : State) : State :=
  {| user := user s; supabase := supabase s; selectedDoc := Some doc;
     messages := [greeting doc]; input := input s; loading := loading s |}.


End Chat.

(** ** Dashboard.tsx *)

Module Dashboard.

(** A row of [study_sessions] as selected by [loadStats]:
    [select('score, completed')]. *)
Record SessionRow : Type := {
  score : option Z;
  completed : bool
}.

Definition has_score (s : SessionRow) : bool :=
  match score s with Some _ => true | None => false end.

(** [s.score || 0]. *)
Definition score_or_zero (s : SessionRow) : Z :=
  match score s with Some z => z | None => 0 end.

(** [sessions.data?.filter(s => s.completed && s.score !== null) || []]. *)
Definition completedSessions (data : option (list SessionRow)) : list SessionRow :=
  match data with
  | Some rows => filter (fun s => completed s && has_score s) rows
  | None => []
  end.

(** [reduce((acc, s) => acc + (s.score || 0), 0)].  The sum is taken on
    integers: when the scores are integers in [0, 100] ([scores_in_range]
    below) every partial sum is an integer far below 2^53 for any list
    that fits in memory, and there the sum of doubles is exact.  Scores
    outside such a range are outside the model. *)
Definition total (rows : list SessionRow) : Z :=
  fold_left (fun acc s => acc + score_or_zero s) rows 0.

(** [Math.round(avgScore)] where [avgScore] is the total over the count
    when there is a completed scored session, and [0] otherwise. *)
Definition averageScore (data : option (list SessionRow)) : Z :=
  let cs := completedSessions data in
  if (0 <? length cs)%nat then Js.round_div (total cs) (Z.of_nat (length cs))
  else 0.

(** The same on doubles. *)
Definition averageScore_float (data : option (list SessionRow)) : Js.number :=
  let cs := completedSessions data in
  if (0 <? length cs)%nat then Js.round_div_float (total cs) (Z.of_nat (length cs))
  else Js.Int 0.

(** [sessions.data?.length || 0]. *)
Definition studySessions (data : option (list SessionRow)) : Z :=
  match data with Some rows => Z.of_nat (length rows) | None => 0 end.

(** Every score present lies between 0 and 100. *)
Definition scores_in_range (data : option (list SessionRow)) : Prop :=
  forall rows s z, data = Some rows -> In s rows -> score s = Some z ->
                   0 <= z <= 100.

(** Whether the exact and the double computation of [Math.round(t / n)]
    agree for every count [n] up to [bound] and every total [t] a list of
    [n] scores in [0, 100] can have. *)
Definition average_exact_up_to (bound : nat) : bool :=
  forallb (fun n =>
    forallb (fun t =>
      match Js.round_div_float (Z.of_nat t) (Z.of_nat n) with
      | Js.Int z => z =? Js.round_div (Z.of_nat t) (Z.of_nat n)
      | _ => false
      end) (seq 0 (S (100 * n)))) (seq 1 bound).

Definition sample_rows : list SessionRow :=
  [ {| score := Some 75; completed := true |};
    {| score := None; completed := true |};
    {| score := Some 100; completed := false |};
    {| score := Some 90; completed := true |} ].

End Dashboard.

(** ** The chat proxy (server/index.js) *)

Module Proxy.














End Proxy.

(** * Properties *)

(** ** Mastery model and deck navigation *)

Section FlashcardFacts.

Import Flashcards.

Lemma update_at_length (cards : list Flashcard) (i : nat) (m : Z) :
  length (update_at cards i m) = length cards.
Proof.
  revert i; induction cards as [|c r IH]; intros [|j]; simpl; auto.
Qed.

Lemma update_at_nth (cards : list Flashcard) (i : nat) (m : Z) (c : Flashcard) :
  nth_error cards i = Some c ->
  nth_error (update_at cards i m) i = Some (set_mastery c m).
Proof.
  revert i; induction cards as [|d r IH]; intros [|j]; simpl; try discriminate.
  - intros H; inversion H; reflexivity.
  - apply IH.
Qed.

Lemma card_at_bounds (cards : list Flashcard) (i : Z) (c : Flashcard) :
  card_at cards i = Some c -> 0 <= i < Z.of_nat (length cards).
Proof.
  unfold card_at; destruct (Z.ltb_spec i 0) as [|Hi]; [discriminate|].
  intros H.
  assert (Hlt : (Z.to_nat i < length cards)%nat)
    by (apply nth_error_Some; congruence).
  lia.
Qed.

(** Inside the range the two one-sided bounds of the source are the
    two-sided clamp of the contract. *)
Lemma newMasteryLevel_is_clamp (m : Z) (correct : bool) :
  -1 <= m <= 6 -> newMasteryLevel m correct = applyReview_spec m correct.
Proof.
  unfold newMasteryLevel, applyReview_spec, clamp; destruct correct; lia.
Qed.

(** The source bounds one side only: a level above the range comes down
    by one step at a time. *)
Lemma newMasteryLevel_outside_range :
  newMasteryLevel 7 false = 6 /\ applyReview_spec 7 false = 5 /\
  newMasteryLevel (-3) true = -2 /\ applyReview_spec (-3) true = 0.
Proof. repeat split. Qed.

Lemma rem_in_deck (a n : Z) :
  0 <= a -> 0 < n -> Js.rem a n = Some (a mod n).
Proof.
  intros Ha Hn; unfold Js.rem.
  destruct (Z.eqb_spec n 0); [lia|].
  now rewrite Z.rem_mod_nonneg by lia.
Qed.

Lemma handleNext_in_deck (s : State) :
  0 <= currentIndex s -> 0 < deck_size s ->
  handleNext s =
    Some {| flashcards := flashcards s;
            currentIndex := (currentIndex s + 1) mod deck_size s;
            flipped := false |}.
Proof.
  intros Hi Hn; unfold handleNext.
  now rewrite rem_in_deck by lia.
Qed.

Lemma handlePrevious_in_deck (s : State) :
  0 <= currentIndex s -> 0 < deck_size s ->
  handlePrevious s =
    Some {| flashcards := flashcards s;
            currentIndex := (currentIndex s - 1 + deck_size s) mod deck_size s;
            flipped := false |}.
Proof.
  intros Hi Hn; unfold handlePrevious.
  now rewrite rem_in_deck by lia.
Qed.

(** The two halves of [handleMastery]. *)
Lemma handleMastery_call_Some (now : Z) (correct : bool) (s : State)
      (q : Pending) (u : Update) :
  handleMastery_call now correct s = Some (q, u) ->
  exists card,
    card_at (flashcards s) (currentIndex s) = Some card /\
    q = {| at_index := currentIndex s;
           new_level := newMasteryLevel (mastery_level card) correct |} /\
    u = update_for card (now, correct).
Proof.
  unfold handleMastery_call; intros H.
  destruct (card_at (flashcards s) (currentIndex s)) as [card|];
    [|discriminate H].
  inversion H; subst. now exists card.
Qed.

Lemma handleMastery_resume_in_deck (q : Pending) (s : State) :
  0 <= currentIndex s < deck_size s ->
  handleMastery_resume q s =
    Some {| flashcards := update_at (flashcards s) (Z.to_nat (at_index q))
                            (new_level q);
            currentIndex := (currentIndex s + 1) mod deck_size s;
            flipped := false |}.
Proof.
  intros Hin; unfold handleMastery_resume.
  rewrite handleNext_in_deck; simpl.
  - unfold deck_size; simpl. now rewrite update_at_length.
  - lia.
  - unfold deck_size in *; simpl. rewrite update_at_length. lia.
Qed.

(** When nothing comes between the click and the settling of the update,
    the two halves make up [handleMastery]. *)
Lemma handleMastery_call_resume (now : Z) (correct : bool) (s : State) :
  handleMastery now correct s =
    match handleMastery_call now correct s with
    | Some (q, u) => option_map (fun s' => (s', u)) (handleMastery_resume q s)
    | None => None
    end.
Proof.
  unfold handleMastery, handleMastery_call, handleMastery_resume.
  destruct (card_at (flashcards s) (currentIndex s)) as [card|]; [|reflexivity].
  simpl. now destruct (handleNext _).
Qed.

End FlashcardFacts.

(** C1.  A review of the current card, whose level lies in [0, 5], sends
    and stores the level [clamp(old + (correct ? 1 : -1), 0, 5)]: the
    update goes to the card's id with that level and the time of the
    review, the card kept at the reviewed position has that level and the
    id, question, answer and difficulty it had; the result stays in
    [0, 5], differs from the old level by at most one, is 5 for a correct
    review at 5 and 0 for a failed review at 0.  The same holds with the
    call taken apart at its [await]: the update is sent at the click, and
    whatever the page shows when the update settles, the level computed at
    the click is written to the card at the position of the click. *)
Theorem handleMastery_clamps_review :
  forall (now : Z) (correct : bool) (s : Flashcards.State) (card : Flashcards.Flashcard),
    Flashcards.card_at (Flashcards.flashcards s) (Flashcards.currentIndex s) = Some card ->
    0 <= Flashcards.mastery_level card <= 5 ->
    let m := Flashcards.mastery_level card in
    let m' := Flashcards.applyReview_spec m correct in
    (exists s' u card',
        Flashcards.handleMastery now correct s = Some (s', u) /\
        Flashcards.upd_id u = Flashcards.id card /\
        Flashcards.upd_mastery_level u = m' /\
        Flashcards.upd_last_reviewed u = now /\
        Flashcards.card_at (Flashcards.flashcards s') (Flashcards.currentIndex s)
          = Some card' /\
        Flashcards.mastery_level card' = m' /\
        Flashcards.id card' = Flashcards.id card /\
        Flashcards.question card' = Flashcards.question card /\
        Flashcards.answer card' = Flashcards.answer card /\
        Flashcards.difficulty card' = Flashcards.difficulty card) /\
    0 <= m' <= 5 /\
    Z.abs (m' - m) <= 1 /\
    (m = 5 -> correct = true -> m' = 5) /\
    (m = 0 -> correct = false -> m' = 0) /\
    (exists q,
        Flashcards.handleMastery_call now correct s
        = Some (q, {| Flashcards.upd_id := Flashcards.id card;
                      Flashcards.upd_mastery_level := m';
                      Flashcards.upd_last_reviewed := now |}) /\
        Flashcards.at_index q = Flashcards.currentIndex s /\
        Flashcards.new_level q = m' /\
        forall (s2 : Flashcards.State) (card2 : Flashcards.Flashcard),
          0 <= Flashcards.currentIndex s2 < Flashcards.deck_size s2 ->
          Flashcards.card_at (Flashcards.flashcards s2) (Flashcards.currentIndex s)
            = Some card2 ->
          exists s3 card3,
            Flashcards.handleMastery_resume q s2 = Some s3 /\
            Flashcards.card_at (Flashcards.flashcards s3) (Flashcards.currentIndex s)
              = Some card3 /\
            Flashcards.mastery_level card3 = m' /\
            Flashcards.id card3 = Flashcards.id card2 /\
            Flashcards.question card3 = Flashcards.question card2 /\
            Flashcards.answer card3 = Flashcards.answer card2 /\
            Flashcards.difficulty card3 = Flashcards.difficulty card2).
Proof.
  intros now correct s card Hcard Hrange m m'.
  assert (Hm' : Flashcards.newMasteryLevel m correct = m')
    by (apply newMasteryLevel_is_clamp; subst m; lia).
  pose proof (card_at_bounds _ _ _ Hcard) as Hidx.
  split; [|split; [|split; [|split; [|split]]]].
  - unfold Flashcards.handleMastery.
    rewrite Hcard. fold m. rewrite Hm'.
    rewrite handleNext_in_deck; simpl.
    + eexists; eexists; eexists; split; [reflexivity|]. simpl.
      split; [reflexivity|]. split; [reflexivity|]. split; [reflexivity|].
      split.
      * unfold Flashcards.card_at in *.
        destruct (Z.ltb_spec (Flashcards.currentIndex s) 0); [lia|].
        apply update_at_nth. eassumption.
      * simpl. repeat split.
    + lia.
    + unfold Flashcards.deck_size; simpl. rewrite update_at_length. lia.
  - subst m'; unfold Flashcards.applyReview_spec, Flashcards.clamp.
    subst m. destruct correct; lia.
  - subst m'; unfold Flashcards.applyReview_spec, Flashcards.clamp.
    subst m. destruct correct; lia.
  - subst m'; unfold Flashcards.applyReview_spec, Flashcards.clamp.
    subst m. destruct correct; lia.
  - subst m'; unfold Flashcards.applyReview_spec, Flashcards.clamp.
    subst m. destruct correct; lia.
  - unfold Flashcards.handleMastery_call. rewrite Hcard. fold m. rewrite Hm'.
    eexists. split; [reflexivity|]. cbn [Flashcards.at_index Flashcards.new_level].
    split; [reflexivity|]. split; [reflexivity|].
    intros s2 card2 Hin2 Hcard2.
    rewrite (handleMastery_resume_in_deck _ _ Hin2).
    cbn [Flashcards.at_index Flashcards.new_level].
    eexists; eexists; split; [reflexivity|]. cbn [Flashcards.flashcards].
    split.
    + unfold Flashcards.card_at in *.
      destruct (Z.ltb_spec (Flashcards.currentIndex s) 0); [lia|].
      apply update_at_nth. eassumption.
    + simpl. repeat split.
Qed.

(** C1, at a deck of one card at level 5 reviewed as correct: level 5 is
    sent and level 5 is kept. *)
Lemma handleMastery_clamps_review_witness :
  exists s' u card',
    Flashcards.handleMastery 1700000000000 true Flashcards.sample_state = Some (s', u) /\
    Flashcards.upd_mastery_level u = 5 /\
    Flashcards.card_at (Flashcards.flashcards s') 0 = Some card' /\
    Flashcards.mastery_level card' = 5.
Proof.
  destruct (handleMastery_clamps_review 1700000000000 true Flashcards.sample_state
              Flashcards.sample_card eq_refl ltac:(simpl; lia))
    as [(s' & u & card' & H & _ & Hu & _ & Hc & Hl & _) _].
  exists s', u, card'. repeat split; [exact H | exact Hu | exact Hc | exact Hl].
Defined.

(** C5.  In a deck of [n] cards shown at index [i] with [0 <= i < n],
    "previous" moves to [(i - 1) mod n], "next" from there moves back to
    [i], and both leave the card unflipped and the deck as it was. *)
Theorem previous_then_next_returns :
  forall (s : Flashcards.State),
    0 <= Flashcards.currentIndex s < Flashcards.deck_size s ->
    exists s1 s2,
      Flashcards.handlePrevious s = Some s1 /\
      Flashcards.handleNext s1 = Some s2 /\
      Flashcards.currentIndex s1 = (Flashcards.currentIndex s - 1) mod Flashcards.deck_size s /\
      Flashcards.currentIndex s2 = Flashcards.currentIndex s /\
      Flashcards.flipped s1 = false /\
      Flashcards.flipped s2 = false /\
      Flashcards.flashcards s2 = Flashcards.flashcards s.
Proof.
  intros s Hi.
  set (n := Flashcards.deck_size s) in *.
  set (i := Flashcards.currentIndex s) in *.
  assert (Hp : (i - 1 + n) mod n = (i - 1) mod n).
  { replace (i - 1 + n) with (i - 1 + 1 * n) by lia. apply Z.mod_add; lia. }
  rewrite handlePrevious_in_deck by (fold i n; lia).
  fold i n. rewrite Hp.
  eexists; rewrite handleNext_in_deck.
  - eexists; split; [reflexivity|]; split; [reflexivity|]; simpl.
    repeat split.
    unfold Flashcards.deck_size; simpl. fold (Flashcards.deck_size s). fold n.
    rewrite Zplus_mod_idemp_l.
    replace (i - 1 + 1) with i by lia.
    apply Z.mod_small; lia.
  - simpl. apply Z.mod_pos_bound; lia.
  - unfold Flashcards.deck_size; simpl. fold (Flashcards.deck_size s). fold n. lia.
Qed.

(** C5, at the first of three cards, shown flipped: "previous" wraps to the
    last card. *)
Lemma previous_then_next_returns_witness :
  exists s1 s2,
    Flashcards.handlePrevious Flashcards.sample_deck = Some s1 /\
    Flashcards.handleNext s1 = Some s2 /\
    Flashcards.currentIndex s1 = 2 /\
    Flashcards.currentIndex s2 = 0 /\
    Flashcards.flipped s2 = false.
Proof.
  destruct (previous_then_next_returns Flashcards.sample_deck ltac:(vm_compute; split; congruence))
    as (s1 & s2 & H1 & H2 & H3 & H4 & _ & H6 & _).
  exists s1, s2. repeat split; assumption.
Defined.

(** ** Quiz score *)

Section ScoreFacts.

Import Quizzes.

Lemma filter_repeat_true (c : nat) :
  filter (fun a : bool => a) (repeat true c) = repeat true c.
Proof. induction c; simpl; congruence. Qed.

Lemma filter_repeat_false (k : nat) :
  filter (fun a : bool => a) (repeat false k) = [].
Proof. induction k; simpl; auto. Qed.

Lemma outcomes_of_counts (c n : nat) :
  (c <= n)%nat ->
  length (filter (fun a : bool => a) (outcomes_of c n)) = c /\
  length (outcomes_of c n) = n.
Proof.
  intros Hc; unfold outcomes_of.
  rewrite filter_app, filter_repeat_true, filter_repeat_false, app_nil_r.
  rewrite length_app, !repeat_length. lia.
Qed.

Lemma correct_le_total (outcomes : list bool) :
  (length (filter (fun a : bool => a) outcomes) <= length outcomes)%nat.
Proof. apply filter_length_le. Qed.

(** The score depends on the outcomes through two numbers only. *)
Lemma quizScore_by_counts (outcomes : list bool) :
  quizScore outcomes =
    quizScore (outcomes_of (length (filter (fun a : bool => a) outcomes))
                           (length outcomes)) /\
  score_spec outcomes =
    score_spec (outcomes_of (length (filter (fun a : bool => a) outcomes))
                            (length outcomes)).
Proof.
  destruct (outcomes_of_counts _ _ (correct_le_total outcomes)) as [Hc Hn].
  unfold quizScore, score_spec. rewrite Hc, Hn. split; reflexivity.
Qed.

Lemma score_exact_39 : score_exact_up_to 39 = true.
Proof. vm_compute. reflexivity. Qed.

(** Up to 39 questions the double computation is the exact percentage
    rounded half up, and it lies in [0, 100]. *)
Lemma quizScore_exact_small (outcomes : list bool) :
  (1 <= length outcomes <= 39)%nat ->
  quizScore outcomes = Js.Int (score_spec outcomes) /\
  0 <= score_spec outcomes <= 100.
Proof.
  intros Hn.
  destruct (quizScore_by_counts outcomes) as [Hq Hs].
  set (c := length (filter (fun a : bool => a) outcomes)) in *.
  set (n := length outcomes) in *.
  assert (Hc : (c <= n)%nat) by apply correct_le_total.
  pose proof score_exact_39 as H.
  unfold score_exact_up_to in H.
  rewrite forallb_forall in H.
  specialize (H n ltac:(apply in_seq; lia)).
  rewrite forallb_forall in H.
  specialize (H c ltac:(apply in_seq; lia)).
  rewrite Hq, Hs.
  destruct (quizScore (outcomes_of c n)) as [z| |]; try discriminate.
  apply andb_prop in H; destruct H as [H Hhi].
  apply andb_prop in H; destruct H as [Heq Hlo].
  apply Z.eqb_eq in Heq. apply Z.leb_le in Hlo, Hhi.
  rewrite <- Heq. split; [reflexivity | lia].
Qed.

Lemma quizScore_3_of_4 (a b c d : bool) :
  length (filter (fun x : bool => x) [a; b; c; d]) = 3%nat ->
  quizScore [a; b; c; d] = Js.Int 75.
Proof.
  destruct a, b, c, d; simpl; intros H; try discriminate; vm_compute; reflexivity.
Qed.

(** The doubles do not follow one tie rule: 1 of 8 is 12.5 and becomes 13,
    3 of 8 is 37.5 and becomes 38, 23 of 40 is 57.5 and becomes 57. *)
Lemma quizScore_ties :
  quizScore (outcomes_of 1 8) = Js.Int 13 /\
  quizScore (outcomes_of 3 8) = Js.Int 38 /\
  quizScore (outcomes_of 23 40) = Js.Int 57 /\
  2 * (100 * 1) = (2 * 12 + 1) * 8 /\
  2 * (100 * 3) = (2 * 37 + 1) * 8 /\
  2 * (100 * 23) = (2 * 57 + 1) * 40.
Proof. vm_compute. repeat split. Qed.

End ScoreFacts.

(** C2.  A 40-question quiz with 23 correct answers: the component computes
    [(23 / 40) * 100 = 57.49999999999999] on doubles and records 57, while
    the exact percentage is 57.5 and [round(100 * 23 / 40)] is 58, in exact
    arithmetic and on doubles alike. *)
Theorem quizScore_23_of_40_is_57 :
  let outcomes := Quizzes.outcomes_of 23 40 in
  length outcomes = 40%nat /\
  length (filter (fun a : bool => a) outcomes) = 23%nat /\
  Quizzes.quizScore outcomes = Js.Int 57 /\
  Quizzes.score_spec outcomes = 58 /\
  Quizzes.score_spec_float outcomes = Js.Int 58.
Proof. vm_compute. repeat split. Qed.

(** ** Quiz state machine *)

Section QuizFacts.

Import Quizzes.

(** Case analysis on every [match] of a hypothesis about [step]. *)
Ltac split_step H :=
  repeat match type of H with
         | context [match ?x with _ => _ end] => destruct x eqn:?
         | context [if ?b then _ else _] => destruct b eqn:?
         end;
  try discriminate H.

(** What the question page tells about the state. *)
Lemma view_Question (s : State) (q : Quiz) (qq : QuizQuestion) :
  view s = Question q qq ->
  selectedQuiz s = Some q /\ finished s = false /\
  nth_error (questions q) (currentQuestion s) = Some qq.
Proof.
  unfold view; intros H; split_step H.
  inversion H; subst; auto.
Qed.

Lemma view_Results (s : State) (q : Quiz) (sc : Js.number) (text : string) :
  view s = Results q sc text ->
  selectedQuiz s = Some q /\ finished s = true /\ quizzes s <> [].
Proof.
  unfold view; intros H; split_step H.
  inversion H; subst; repeat split; congruence.
Qed.

(** The events of each page, one by one. *)
Lemma step_cases (now : Z) (e : Event) (s s' : State) :
  step now e s = Some s' ->
  (e = InsertSettled /\ (0 < pending s)%nat /\ s' = finishQuiz_resume s) \/
  (exists k q, e = ClickStart k /\ view s = QuizList /\ s' = startQuiz q s) \/
  (exists q qq i, e = ClickOption i /\ view s = Question q qq /\
                  showResult s = false /\
                  s' = setSelectedAnswer (Some (Z.of_nat i)) s) \/
  (exists q qq a, e = ClickSubmit /\ view s = Question q qq /\
                  showResult s = false /\ selectedAnswer s = Some a /\
                  handleAnswer s = Some s') \/
  (exists q qq, e = ClickNext /\ view s = Question q qq /\
                showResult s = true /\ s' = handleNext now s) \/
  (exists q qq, e = ClickBack /\ view s = Question q qq /\
                s' = setSelectedQuiz None s) \/
  (exists q sc text, e = ClickRetake /\ view s = Results q sc text /\
                     s' = startQuiz q s) \/
  (exists q sc text, e = ClickBackToQuizzes /\ view s = Results q sc text /\
                     s' = setFinished false (setSelectedQuiz None s)).
Proof.
  unfold step; intros H.
  destruct (view s) as [|q sc text|q qq| |] eqn:Hv; destruct e; try discriminate H.
  all: try (destruct (pending s) eqn:Hp; [discriminate H|];
            inversion H; left; repeat split; lia).
  - right; right; right; right; right; right; left.
    inversion H. exists q, sc, text; auto.
  - right; right; right; right; right; right; right.
    inversion H. exists q, sc, text; auto.
  - destruct (showResult s) eqn:Hs; [discriminate H|].
    destruct (i <? length (options qq))%nat; [|discriminate H].
    inversion H. right; right; left. exists q, qq, i; auto.
  - destruct (showResult s) eqn:Hs; [discriminate H|].
    destruct (selectedAnswer s) as [a|] eqn:Ha; [|discriminate H].
    right; right; right; left. exists q, qq, a; auto.
  - destruct (showResult s) eqn:Hs; [|discriminate H].
    inversion H. right; right; right; right; left. exists q, qq; auto.
  - inversion H. right; right; right; right; right; left. exists q, qq; auto.
  - destruct (nth_error (quizzes s) k) as [q|] eqn:Hq; [|discriminate H].
    inversion H. right; left. exists k, q; auto.
Qed.

Lemma handleAnswer_appends (s s' : State) (q : Quiz) (qq : QuizQuestion) (a : Z) :
  selectedQuiz s = Some q -> selectedAnswer s = Some a ->
  nth_error (questions q) (currentQuestion s) = Some qq ->
  handleAnswer s = Some s' ->
  answers s' = answers s ++ [a =? correct_answer qq] /\
  showResult s' = true /\ currentQuestion s' = currentQuestion s /\
  selectedQuiz s' = selectedQuiz s /\ finished s' = finished s /\
  pending s' = pending s /\ sessionStart s' = sessionStart s.
Proof.
  unfold handleAnswer; intros Hq Ha Hn H.
  rewrite Ha, Hq, Hn in H. inversion H; subst; simpl. repeat split; auto.
Qed.

(** The outcomes grow with the position: one per question revealed. *)
Lemma step_in_step (now : Z) (e : Event) (s s' : State) :
  in_step s -> step now e s = Some s' -> in_step s'.
Proof.
  unfold in_step; intros Hin H.
  destruct (step_cases _ _ _ _ H) as
    [(_ & _ & ->) | [(k & q & _ & _ & ->) | [(q & qq & i & _ & _ & _ & ->) |
    [(q & qq & a & _ & Hv & Hs & Ha & Hh) | [(q & qq & _ & Hv & Hs & ->) |
    [(q & qq & _ & _ & ->) | [(q & sc & t & _ & _ & ->) |
     (q & sc & t & _ & _ & ->)]]]]]]]; simpl; auto.
  - destruct (view_Question _ _ _ Hv) as (Hq & _ & Hn).
    destruct (handleAnswer_appends _ _ _ _ _ Hq Ha Hn Hh) as (-> & -> & -> & _).
    rewrite length_app; simpl. rewrite Hs in Hin. lia.
  - destruct (view_Question _ _ _ Hv) as (Hq & _ & Hn).
    unfold handleNext, finishQuiz; rewrite Hq.
    rewrite Hs in Hin.
    destruct (Z.ltb _ _); simpl; rewrite ?Hs; lia.
Qed.

Lemma reachable_in_step (s : State) : reachable s -> in_step s.
Proof.
  induction 1 as [now u data | s now e s' _ IH H].
  - reflexivity.
  - eapply step_in_step; eauto.
Qed.

(** Whenever "Finish Quiz" runs [finishQuiz], whatever happened before and
    in whatever order, there is one outcome per question and at least one:
    the division in [finishQuiz] is never by zero. *)
Lemma finishQuiz_sees_all_outcomes (now : Z) (s s' : State)
      (q : Quiz) (qq : QuizQuestion) :
  reachable s ->
  view s = Question q qq ->
  step now ClickNext s = Some s' ->
  (Z.of_nat (currentQuestion s) <? Z.of_nat (length (questions q)) - 1) = false ->
  s' = finishQuiz now s /\
  length (answers s) = length (questions q) /\
  (1 <= length (answers s))%nat.
Proof.
  intros Hr Hv H Hlast.
  pose proof (reachable_in_step _ Hr) as Hin. unfold in_step in Hin.
  destruct (view_Question _ _ _ Hv) as (Hq & _ & Hn).
  assert (Hlt : (currentQuestion s < length (questions q))%nat)
    by (apply nth_error_Some; congruence).
  apply Z.ltb_ge in Hlast.
  unfold step in H. rewrite Hv in H.
  destruct (showResult s) eqn:Hs; [|discriminate H].
  inversion H. unfold handleNext. rewrite Hq.
  destruct (Z.ltb_spec (Z.of_nat (currentQuestion s))
                       (Z.of_nat (length (questions q)) - 1)); [lia|].
  repeat split; lia.
Qed.

(** [sessionStart] has no setter: no event changes it. *)
Lemma step_keeps_sessionStart (now : Z) (e : Event) (s s' : State) :
  step now e s = Some s' -> sessionStart s' = sessionStart s.
Proof.
  intros H.
  destruct (step_cases _ _ _ _ H) as
    [(_ & _ & ->) | [(k & q & _ & _ & ->) | [(q & qq & i & _ & _ & _ & ->) |
    [(q & qq & a & _ & Hv & Hs & Ha & Hh) | [(q & qq & _ & Hv & Hs & ->) |
    [(q & qq & _ & _ & ->) | [(q & sc & t & _ & _ & ->) |
     (q & sc & t & _ & _ & ->)]]]]]]]; simpl; auto.
  - destruct (view_Question _ _ _ Hv) as (Hq & _ & Hn).
    now destruct (handleAnswer_appends _ _ _ _ _ Hq Ha Hn Hh) as (_ & _ & _ & _ & _ & _ & ->).
  - unfold handleNext, finishQuiz.
    destruct (selectedQuiz s); [|reflexivity].
    destruct (_ <? _); reflexivity.
Qed.

Lemma run_keeps_sessionStart (trace : list (Z * Event)) (s s' : State) :
  run trace s = Some s' -> sessionStart s' = sessionStart s.
Proof.
  revert s; induction trace as [|[now e] rest IH]; simpl; intros s H.
  - inversion H; reflexivity.
  - destruct (step now e s) as [s1|] eqn:Hs; [|discriminate H].
    rewrite (IH _ H). eapply step_keeps_sessionStart; eauto.
Qed.

(** A day of half minutes: the duration on doubles is the exact one. *)
Lemma duration_exact_day : duration_exact_up_to 2880 = true.
Proof. vm_compute. reflexivity. Qed.

Lemma finishQuiz_sends_duration (now : Z) (s : State) (q : Quiz) :
  selectedQuiz s = Some q ->
  exists row,
    study_sessions (finishQuiz now s) = study_sessions s ++ [row] /\
    session_type row = "quiz" /\ content_id row = id q /\
    completed row = true /\
    duration_minutes row = sessionDuration now (sessionStart s).
Proof.
  intros Hq; unfold finishQuiz; rewrite Hq; simpl.
  eexists; split; [reflexivity|]; simpl; auto.
Qed.

End QuizFacts.

Section QuizMachine.

Import Quizzes.

Lemma run_reachable (trace : list (Z * Event)) (s s' : State) :
  reachable s -> run trace s = Some s' -> reachable s'.
Proof.
  revert s; induction trace as [|[now e] rest IH]; simpl; intros s Hr H.
  - inversion H; subst; exact Hr.
  - destruct (step now e s) as [s1|] eqn:Hs; [|discriminate H].
    eapply IH; [|exact H]. eapply reach_step; eauto.
Qed.

(** On the last question, once revealed, every question has its outcome. *)
Lemma last_question_outcomes (s : State) (q : Quiz) (qq : QuizQuestion) :
  in_step s -> view s = Question q qq -> showResult s = true ->
  (Z.of_nat (currentQuestion s) <? Z.of_nat (length (questions q)) - 1) = false ->
  length (answers s) = length (questions q) /\ (1 <= length (answers s))%nat.
Proof.
  unfold in_step; intros Hin Hv Hs Hlast.
  destruct (view_Question _ _ _ Hv) as (Hq & _ & Hn).
  assert (Hlt : (currentQuestion s < length (questions q))%nat)
    by (apply nth_error_Some; congruence).
  apply Z.ltb_ge in Hlast. rewrite Hs in Hin. lia.
Qed.

Lemma step_prompt_settled (now : Z) (e : Event) (s s' : State) :
  settled s -> step_prompt now e s = Some s' -> settled s'.
Proof.
  intros (Hp & Hin & Hfin) H.
  unfold step_prompt in H.
  destruct (step now e s) as [s1|] eqn:Hstep; [|discriminate H].
  simpl in H; inversion H as [Hs']; clear H.
  pose proof (step_in_step _ _ _ _ Hin Hstep) as Hin1.
  destruct (step_cases _ _ _ _ Hstep) as
    [(_ & Hpos & _) | [(k & q & _ & _ & ->) | [(q & qq & i & _ & Hv & _ & ->) |
    [(q & qq & a & _ & Hv & Hs & Ha & Hh) | [(q & qq & _ & Hv & Hs & ->) |
    [(q & qq & _ & Hv & ->) | [(q & sc & t & _ & _ & ->) |
     (q & sc & t & _ & _ & ->)]]]]]]].
  - lia.
  - unfold settle; simpl; rewrite Hp. repeat split; auto; simpl; discriminate.
  - destruct (view_Question _ _ _ Hv) as (_ & Hf & _).
    unfold settle; simpl; rewrite Hp. repeat split; auto; simpl; congruence.
  - destruct (view_Question _ _ _ Hv) as (Hq & Hf & Hn).
    destruct (handleAnswer_appends _ _ _ _ _ Hq Ha Hn Hh)
      as (_ & _ & _ & _ & Hf1 & Hp1 & _).
    unfold settle; rewrite Hp1, Hp. repeat split; auto; congruence.
  - destruct (view_Question _ _ _ Hv) as (Hq & Hf & Hn).
    unfold handleNext in *; rewrite Hq in *.
    destruct (Z.of_nat (currentQuestion s) <? Z.of_nat (length (questions q)) - 1)
      eqn:Hlast.
    + unfold settle; simpl; rewrite Hp. repeat split; auto; simpl; congruence.
    + destruct (last_question_outcomes _ _ _ Hin Hv Hs Hlast) as [Hlen Hpos].
      unfold finishQuiz in *; rewrite Hq in *.
      unfold settle; simpl. repeat split; auto.
      intros _. exists q; simpl; auto.
  - destruct (view_Question _ _ _ Hv) as (_ & Hf & _).
    unfold settle; simpl; rewrite Hp. repeat split; auto; simpl; congruence.
  - unfold settle; simpl; rewrite Hp. repeat split; auto; simpl; discriminate.
  - unfold settle; simpl; rewrite Hp. repeat split; auto; simpl; discriminate.
Qed.

(** When nothing comes between "Finish Quiz" and the settling of its
    insert, the results page always has one outcome per question. *)
Lemma results_complete_when_settled_at_once (s : State) :
  reachable_prompt s -> finished s = true ->
  exists q, selectedQuiz s = Some q /\
            length (answers s) = length (questions q) /\
            (1 <= length (answers s))%nat.
Proof.
  intros Hr.
  assert (Hs : settled s).
  { induction Hr as [now u data | s now e s' _ IH H].
    - repeat split; simpl; discriminate.
    - eapply step_prompt_settled; eauto. }
  destruct Hs as (_ & _ & Hf); exact Hf.
Qed.

Lemma retake_trace_reaches_results :
  run (firstn 5 retake_trace) (mount 0 "user-1" [sample_quiz]) = Some results_state.
Proof. vm_compute. reflexivity. Qed.

End QuizMachine.

(** C3.  The results page is reached with no outcomes: "Finish Quiz" is
    clicked on a one-question quiz, and while its insert is in flight the
    user leaves the quiz and starts it again; when the insert settles,
    [setFinished(true)] shows the results of the fresh attempt, whose score
    is [0 / 0]. *)
Theorem stale_finish_shows_results_without_outcomes :
  exists s,
    Quizzes.run Quizzes.stale_finish_trace
                (Quizzes.mount 0 "user-1" [Quizzes.sample_quiz]) = Some s /\
    Quizzes.reachable s /\
    Quizzes.finished s = true /\
    Quizzes.selectedQuiz s = Some Quizzes.sample_quiz /\
    Quizzes.answers s = [] /\
    Quizzes.view s = Quizzes.Results Quizzes.sample_quiz Js.NaN "Keep studying!".
Proof.
  destruct (Quizzes.run Quizzes.stale_finish_trace
              (Quizzes.mount 0 "user-1" [Quizzes.sample_quiz])) as [s|] eqn:Hrun;
    [|vm_compute in Hrun; discriminate Hrun].
  exists s. split; [reflexivity|]. split.
  - eapply run_reachable; [apply Quizzes.reach_mount | exact Hrun].
  - vm_compute in Hrun. inversion Hrun; subst s.
    vm_compute. repeat split.
Qed.

(** C4, as stated, fails: "Retake Quiz" clicked at minute 10 leaves
    [sessionStart] at the time of the mount, and the retaken attempt,
    finished one minute later, is recorded with 11 minutes. *)
Lemma retake_keeps_mount_time_counterexample :
  exists s' s_end,
    Quizzes.step 600000 Quizzes.ClickRetake Quizzes.results_state = Some s' /\
    Quizzes.sessionStart s' = 0 /\
    Quizzes.sessionStart s' <> 600000 /\
    Quizzes.run Quizzes.retake_trace
                (Quizzes.mount 0 "user-1" [Quizzes.sample_quiz]) = Some s_end /\
    map Quizzes.duration_minutes (Quizzes.study_sessions s_end) = [0; 11] /\
    Quizzes.sessionDuration 660000 600000 = 1.
Proof.
  eexists; eexists.
  split; [vm_compute; reflexivity|].
  split; [reflexivity|].
  split; [simpl; discriminate|].
  split; [vm_compute; reflexivity|].
  split; reflexivity.
Qed.

(** C4, amended.  "Retake Quiz" on the results page of a quiz returns to
    its first question with no outcomes, no selection and nothing revealed,
    keeps the quiz, and leaves [sessionStart] as it was; whatever follows,
    a [finishQuiz] at time [t] records [round((t - sessionStart) / 60000)]
    minutes, counted from the mount of the view. *)
Theorem retake_resets_quiz_keeps_sessionStart :
  forall (now : Z) (s : Quizzes.State) (q : Quizzes.Quiz)
         (sc : Js.number) (text : string),
    Quizzes.view s = Quizzes.Results q sc text ->
    exists s',
      Quizzes.step now Quizzes.ClickRetake s = Some s' /\
      Quizzes.selectedQuiz s' = Some q /\
      Quizzes.currentQuestion s' = 0%nat /\
      Quizzes.selectedAnswer s' = None /\
      Quizzes.showResult s' = false /\
      Quizzes.answers s' = [] /\
      Quizzes.finished s' = false /\
      Quizzes.sessionStart s' = Quizzes.sessionStart s /\
      forall (trace : list (Z * Quizzes.Event)) (s2 : Quizzes.State)
             (t : Z) (q2 : Quizzes.Quiz),
        Quizzes.run trace s' = Some s2 ->
        Quizzes.selectedQuiz s2 = Some q2 ->
        exists row,
          Quizzes.study_sessions (Quizzes.finishQuiz t s2)
            = Quizzes.study_sessions s2 ++ [row] /\
          Quizzes.duration_minutes row
            = Quizzes.sessionDuration t (Quizzes.sessionStart s).
Proof.
  intros now s q sc text Hv.
  exists (Quizzes.startQuiz q s).
  split; [unfold Quizzes.step; rewrite Hv; reflexivity|].
  simpl. repeat split.
  intros trace s2 t q2 Hrun Hq2.
  destruct (finishQuiz_sends_duration t s2 q2 Hq2) as (row & Hrow & _ & _ & _ & Hd).
  exists row; split; [exact Hrow|].
  rewrite Hd. f_equal.
  apply (run_keeps_sessionStart _ _ _ Hrun).
Qed.

(** C4, amended, at the results page of the sample quiz. *)
Lemma retake_resets_quiz_keeps_sessionStart_witness :
  exists s',
    Quizzes.step 600000 Quizzes.ClickRetake Quizzes.results_state = Some s' /\
    Quizzes.answers s' = [] /\
    Quizzes.sessionStart s' = 0.
Proof.
  destruct (retake_resets_quiz_keeps_sessionStart 600000 Quizzes.results_state
              Quizzes.sample_quiz (Js.Int 100) "Outstanding!" ltac:(vm_compute; reflexivity))
    as (s' & H & _ & _ & _ & _ & Ha & _ & Hs & _).
  exists s'. repeat split; assumption.
Defined.

(** C8.  The message of a score: "Outstanding!" from 90, "Great job!" from
    70, "Good effort!" from 50, "Keep studying!" below; so 92, 70 and 55
    fall in the first three tiers, and three wrong answers out of three
    score 0 and read "Keep studying!". *)
Theorem getScoreMessage_tiers :
  forall z : Z,
    (90 <= z -> fst (Quizzes.getScoreMessage (Js.Int z)) = "Outstanding!") /\
    (70 <= z < 90 -> fst (Quizzes.getScoreMessage (Js.Int z)) = "Great job!") /\
    (50 <= z < 70 -> fst (Quizzes.getScoreMessage (Js.Int z)) = "Good effort!") /\
    (z < 50 -> fst (Quizzes.getScoreMessage (Js.Int z)) = "Keep studying!") /\
    fst (Quizzes.getScoreMessage (Js.Int 92)) = "Outstanding!" /\
    fst (Quizzes.getScoreMessage (Js.Int 70)) = "Great job!" /\
    fst (Quizzes.getScoreMessage (Js.Int 55)) = "Good effort!" /\
    Quizzes.quizScore [false; false; false] = Js.Int 0 /\
    fst (Quizzes.getScoreMessage (Quizzes.quizScore [false; false; false]))
      = "Keep studying!".
Proof.
  intros z.
  assert (T : forall k, (k <= z -> Js.geb (Js.Int z) k = true) /\
                        (z < k -> Js.geb (Js.Int z) k = false)).
  { intros k; simpl; split; intros H; [apply Z.leb_le | apply Z.leb_gt]; lia. }
  destruct (T 90) as [T90 F90], (T 70) as [T70 F70], (T 50) as [T50 F50].
  unfold Quizzes.getScoreMessage.
  repeat split; try (vm_compute; reflexivity).
  - intros H. now rewrite T90 by lia.
  - intros H. now rewrite F90, T70 by lia.
  - intros H. now rewrite F90, F70, T50 by lia.
  - intros H. now rewrite F90, F70, F50 by lia.
Qed.

(** ** Flashcard generation *)

Section GenerationFacts.

Import Documents.

(** Rows reach the store only from a non-empty array. *)
Lemma generateFlashcards_Generated (env : Env) (s : State) (doc : Doc.Document)
      (r : Json.reply) (rows : list FlashcardRow) :
  generateFlashcards env s doc r = Generated rows ->
  exists statusText data item items,
    r = Json.Response true statusText (Json.Parsed data) /\
    Json.get data "flashcards" = inr (Json.JArr (item :: items)) /\
    flashcardsToInsert (user s) doc (item :: items) = inr rows.
Proof.
  unfold generateFlashcards; intros H.
  destruct (negb _ || negb _); [discriminate H|].
  destruct r as [m | ok statusText b]; [discriminate H|].
  destruct ok; simpl in H; [|discriminate H].
  destruct b as [m | data]; [discriminate H|].
  destruct (Json.get data "error") as [e | err]; [discriminate H|].
  destruct (Json.truthy err); [discriminate H|].
  destruct (Json.get data "flashcards") as [e | fl] eqn:Hget; [discriminate H|].
  destruct (negb (Json.truthy fl) || negb (Json.isArray fl)) eqn:Hfl;
    [discriminate H|].
  destruct fl as [| | | | | items |]; simpl in Hfl;
    rewrite ?orb_true_r in Hfl; try discriminate Hfl.
  unfold Json.items_of in H.
  destruct items as [|item items]; [discriminate H|].
  cbn [length Nat.eqb] in H.
  destruct (flashcardsToInsert (user s) doc (item :: items)) as [e | rows'] eqn:Hrows;
    [discriminate H|].
  destruct (negb (supabase s)); [discriminate H|].
  inversion H; subst. exists statusText, data, item, items; auto.
Qed.

Lemma flashcardsToInsert_length (u : option string) (doc : Doc.Document)
      (items : list Json.value) (rows : list FlashcardRow) :
  flashcardsToInsert u doc items = inr rows -> length rows = length items.
Proof.
  revert rows; induction items as [|fc rest IH]; simpl; intros rows H.
  - inversion H; reflexivity.
  - destruct u as [uid|]; [|discriminate H].
    destruct (Json.get fc "question"), (Json.get fc "answer"),
      (Json.get fc "difficulty"); try discriminate H.
    destruct (flashcardsToInsert (Some uid) doc rest); [discriminate H|].
    inversion H; simpl. f_equal. now apply IH.
Qed.

End GenerationFacts.




(** The other guards of C6, each at a reply without flashcards: an error
    body, a status that is not OK, and a missing configuration. *)
Example generateFlashcards_guard_errors :
  Documents.generateFlashcards Documents.sample_env Documents.sample_state
    Documents.sample_doc
    (Json.Response true "OK" (Json.Parsed Documents.error_body))
  = Documents.Failed (Json.Error "Document too short") /\
  Documents.generateFlashcards Documents.sample_env Documents.sample_state
    Documents.sample_doc
    (Json.Response false "Bad Gateway" (Json.Parsed Json.JNull))
  = Documents.Failed (Json.Error "API error: Bad Gateway") /\
  Documents.generateFlashcards
    {| Documents.VITE_SUPABASE_URL := None;
       Documents.VITE_SUPABASE_ANON_KEY := Documents.VITE_SUPABASE_ANON_KEY
                                             Documents.sample_env |}
    Documents.sample_state Documents.sample_doc
    (Json.Response true "OK" (Json.Parsed (Json.JObj [("flashcards", Json.JArr [])])))
  = Documents.Failed (Json.Error "Supabase configuration is missing").
Proof. repeat split; vm_compute; reflexivity. Qed.

(** ** Document upload *)

Section UploadFacts.

Import Documents.



End UploadFacts.



(** ** Chat sessions *)

Section ChatFacts.

Import Chat.

(** A submission sends at most one row, and only in an answered turn. *)
Lemma exchange_rows (env : Documents.Env) (uid : string) (doc : Doc.Document)
      (r : Json.reply) (s : State) :
  snd (exchange env uid doc r s) = [] \/
  snd (exchange env uid doc r s)
  = [{| user_id := uid; session_type := "chat"; content_id := Doc.id doc;
        completed := true; duration_minutes := 1 |}].
Proof.
  unfold exchange.
  destruct (negb _ || negb _); [left; reflexivity|].
  destruct r as [m | ok st b]; [left; reflexivity|].
  destruct ok; simpl; [|left; reflexivity].
  destruct b as [m | data]; [left; reflexivity|].
  destruct (Json.get data "error") as [e | err]; [left; reflexivity|].
  destruct (Json.truthy err); [left; reflexivity|].
  destruct (Json.get data "response") as [e | resp]; [left|right]; reflexivity.
Qed.

Lemma handleSubmit_at_most_one (env : Documents.Env) (r : Json.reply) (s : State) :
  (length (snd (handleSubmit env r s)) <= 1)%nat /\
  forall row, In row (snd (handleSubmit env r s)) ->
              session_type row = "chat" /\ completed row = true /\
              duration_minutes row = 1.
Proof.
  unfold handleSubmit.
  destruct (selectedDoc s) as [doc|], (user s) as [uid|];
    try (split; [simpl; lia | intros row []]).
  destruct (negb _ || loading s || negb (supabase s));
    [split; [simpl; lia | intros row []]|].
  match goal with |- context [exchange ?e ?u ?d ?r ?st] =>
    pose proof (exchange_rows e u d r st) as Hrows;
    destruct (exchange e u d r st) as [s3 rows] end.
  simpl in *. destruct Hrows as [-> | ->]; simpl.
  - split; [lia | intros row []].
  - split; [lia | intros row [<- | []]; auto].
Qed.

(** A body that can be asked for [error] can be asked for [response]. *)
Lemma get_total (data : Json.value) (k1 k2 : string) (v : Json.value) :
  Json.get data k1 = inr v -> exists w, Json.get data k2 = inr w.
Proof.
  destruct data; simpl; intros H; try discriminate H; eauto.
Qed.

End ChatFacts.

(** C7.  A chat turn that is answered (the message passes the guard, the
    request is configured, the reply is OK and its body has no [error])
    sends exactly one row to [study_sessions]: type "chat", the selected
    document, [completed] true and one minute, whatever was said. *)
Theorem chat_turn_records_one_session :
  forall (env : Documents.Env) (r : Json.reply) (s : Chat.State)
         (uid : string) (doc : Doc.Document),
    Chat.ready s uid doc ->
    Chat.answered env r ->
    snd (Chat.handleSubmit env r s)
    = [{| Chat.user_id := uid; Chat.session_type := "chat";
          Chat.content_id := Doc.id doc; Chat.completed := true;
          Chat.duration_minutes := 1 |}].
Proof.
  intros env r s uid doc (Hd & Hu & Hi & Hl & Hsb)
         (Hurl & Hkey & st & data & err & -> & Herr & Hfalsy).
  destruct (get_total data "error" "response" err Herr) as [resp Hresp].
  unfold Chat.handleSubmit. rewrite Hd, Hu, Hi, Hl, Hsb; simpl.
  unfold Chat.exchange. rewrite Hurl, Hkey, Herr, Hfalsy, Hresp; simpl.
  reflexivity.
Qed.

(** C7, at a question about the sample document. *)
Lemma chat_turn_records_one_session_witness :
  snd (Chat.handleSubmit Documents.sample_env Chat.sample_reply Chat.sample_state)
  = [{| Chat.user_id := "user-1"; Chat.session_type := "chat";
        Chat.content_id := "doc-1"; Chat.completed := true;
        Chat.duration_minutes := 1 |}].
Proof.
  apply (chat_turn_records_one_session Documents.sample_env Chat.sample_reply
           Chat.sample_state "user-1" Documents.sample_doc).
  - repeat split.
  - split; [reflexivity|]. split; [reflexivity|].
    exists "OK", (Json.JObj [("response", Json.JStr "Cell division.")]), Json.JUndefined.
    repeat split.
Defined.

(** ** Dashboard average *)

Section AverageFacts.

Import Dashboard.

Lemma fold_total (rows : list SessionRow) (acc : Z) :
  fold_left (fun a s => a + score_or_zero s) rows acc = acc + total rows.
Proof.
  unfold total; revert acc; induction rows as [|r rest IH];
    cbn [fold_left]; intros acc.
  - lia.
  - rewrite (IH (acc + score_or_zero r)), (IH (0 + score_or_zero r)). lia.
Qed.

Lemma total_cons (r : SessionRow) (rest : list SessionRow) :
  total (r :: rest) = score_or_zero r + total rest.
Proof. unfold total; cbn [fold_left]. rewrite fold_total. unfold total. lia. Qed.

Lemma total_bounds (rows : list SessionRow) :
  (forall s, In s rows -> 0 <= score_or_zero s <= 100) ->
  0 <= total rows <= 100 * Z.of_nat (length rows).
Proof.
  induction rows as [|r rest IH]; intros H.
  - unfold total; simpl; lia.
  - rewrite total_cons.
    pose proof (H r (or_introl eq_refl)).
    assert (0 <= total rest <= 100 * Z.of_nat (length rest))
      by (apply IH; intros s Hs; apply H; now right).
    simpl length. lia.
Qed.

(** [round_div t n] is the integer nearest to [t / n], the upper one at a
    tie. *)
Lemma round_div_nearest (t n : Z) :
  0 < n ->
  2 * t - n < 2 * n * Js.round_div t n <= 2 * t + n.
Proof.
  intros Hn; unfold Js.round_div.
  pose proof (Z.div_mod (2 * t + n) (2 * n) ltac:(lia)) as Hdm.
  pose proof (Z.mod_pos_bound (2 * t + n) (2 * n) ltac:(lia)) as Hb.
  lia.
Qed.

Lemma round_div_range (t n : Z) :
  0 < n -> 0 <= t <= 100 * n -> 0 <= Js.round_div t n <= 100.
Proof.
  intros Hn Ht.
  pose proof (round_div_nearest t n Hn) as H.
  split; nia.
Qed.

Lemma completedSessions_spec (data : option (list SessionRow)) (s : SessionRow) :
  In s (completedSessions data) <->
  exists rows, data = Some rows /\ In s rows /\
               completed s = true /\ score s <> None.
Proof.
  unfold completedSessions, has_score; destruct data as [rows|]; simpl.
  - rewrite filter_In. split.
    + intros [Hin Hb]. apply andb_prop in Hb. destruct Hb as [Hc Hs].
      exists rows. repeat split; auto. destruct (score s); congruence.
    + intros (rows' & Heq & Hin & Hc & Hs). inversion Heq; subst rows'.
      split; [exact Hin|]. rewrite Hc. destruct (score s); [reflexivity | congruence].
  - split; [intros [] | intros (rows & Heq & _); discriminate Heq].
Qed.

(** The rows that count all have a score, and their total is the sum of
    these scores. *)
Lemma completedSessions_scores (data : option (list SessionRow)) :
  exists scores,
    map score (completedSessions data) = map Some scores /\
    total (completedSessions data) = fold_right Z.add 0 scores.
Proof.
  assert (H : forall rows, (forall s, In s rows -> score s <> None) ->
              exists scores, map score rows = map Some scores /\
                             total rows = fold_right Z.add 0 scores).
  { induction rows as [|r rest IH]; intros Hs.
    - exists []. split; reflexivity.
    - destruct IH as (scores & Hm & Ht); [intros s Hin; apply Hs; now right|].
      destruct (score r) as [z|] eqn:Hz;
        [|exfalso; apply (Hs r (or_introl eq_refl)); exact Hz].
      exists (z :: scores). split.
      + cbn [map]. now rewrite Hz, Hm.
      + rewrite total_cons. unfold score_or_zero. rewrite Hz, Ht. reflexivity. }
  apply H. intros s Hin. apply completedSessions_spec in Hin.
  now destruct Hin as (_ & _ & _ & _ & Hsome).
Qed.

Lemma average_exact_25 : average_exact_up_to 25 = true.
Proof. vm_compute. reflexivity. Qed.

End AverageFacts.

(** C10.  The average is taken over the rows that are completed and have a
    score, and over no other; with no such row it is 0; otherwise it is
    the sum of their scores over their count, rounded to the nearest
    integer (a half goes up); and when every score lies in [0, 100] so
    does the average. *)
Theorem averageScore_well_defined :
  forall (data : option (list Dashboard.SessionRow)),
    Dashboard.scores_in_range data ->
    let cs := Dashboard.completedSessions data in
    let n := Z.of_nat (length cs) in
    (forall s, In s cs <->
               exists rows, data = Some rows /\ In s rows /\
                            Dashboard.completed s = true /\
                            Dashboard.score s <> None) /\
    (cs = [] -> Dashboard.averageScore data = 0) /\
    (cs <> [] ->
     Dashboard.averageScore data = Js.round_div (Dashboard.total cs) n /\
     2 * Dashboard.total cs - n < 2 * n * Dashboard.averageScore data
       <= 2 * Dashboard.total cs + n) /\
    0 <= Dashboard.averageScore data <= 100 /\
    (exists scores : list Z,
        map Dashboard.score cs = map Some scores /\
        (cs <> [] ->
         2 * fold_right Z.add 0 scores - n
           < 2 * n * Dashboard.averageScore data
           <= 2 * fold_right Z.add 0 scores + n)).
Proof.
  intros data Hrange cs n.
  split; [intros s; apply completedSessions_spec|].
  assert (Hcs : forall s, In s cs -> 0 <= Dashboard.score_or_zero s <= 100).
  { intros s Hs. apply completedSessions_spec in Hs.
    destruct Hs as (rows & Hd & Hin & _ & _).
    unfold Dashboard.score_or_zero.
    destruct (Dashboard.score s) as [z|] eqn:Hz; [|lia].
    exact (Hrange rows s z Hd Hin Hz). }
  pose proof (total_bounds cs Hcs) as Ht. fold n in Ht.
  destruct (completedSessions_scores data) as (scores & Hscores & Hsum).
  fold cs in Hscores, Hsum.
  unfold Dashboard.averageScore. fold cs. fold n.
  destruct cs as [|c rest] eqn:Hlist.
  - simpl. split; [reflexivity|]. split; [intros Hne; congruence|].
    split; [lia|]. exists scores. split; [exact Hscores | congruence].
  - assert (Hn : 0 < n) by (subst n; simpl length; lia).
    replace (0 <? length (c :: rest))%nat with true
      by (symmetry; apply Nat.ltb_lt; simpl; lia).
    split; [discriminate|]. split; [|split].
    + intros _. split; [reflexivity|]. now apply round_div_nearest.
    + now apply round_div_range.
    + exists scores. split; [exact Hscores|].
      intros _. rewrite <- Hsum. now apply round_div_nearest.
Qed.

(** C10, at four rows of which two count: 75 and 90 sum to 165 and average
    to 82.5, shown as 83. *)
Lemma averageScore_well_defined_witness :
  exists scores : list Z,
    map Dashboard.score (Dashboard.completedSessions (Some Dashboard.sample_rows))
    = map Some scores /\
    scores = [75; 90] /\
    2 * 165 - 2 < 2 * 2 * Dashboard.averageScore (Some Dashboard.sample_rows)
      <= 2 * 165 + 2 /\
    Dashboard.averageScore (Some Dashboard.sample_rows) = 83.
Proof.
  assert (Hrange : Dashboard.scores_in_range (Some Dashboard.sample_rows)).
  { intros rows s z Hd Hin Hz. inversion Hd; subst rows.
    simpl in Hin.
    destruct Hin as [<- | [<- | [<- | [<- | []]]]]; simpl in Hz;
      inversion Hz; subst z; split; discriminate. }
  destruct (averageScore_well_defined (Some Dashboard.sample_rows) Hrange)
    as (_ & _ & _ & _ & scores & Hscores & Hmean).
  exists scores. split; [exact Hscores|].
  assert (Hs : scores = [75; 90]).
  { cbn in Hscores.
    destruct scores as [|a [|b [|c scores]]]; try discriminate Hscores.
    now inversion Hscores. }
  split; [exact Hs|]. subst scores.
  split; [apply Hmean; discriminate | reflexivity].
Defined.

(** * Further properties of the components *)

(** ** Flashcards: reviews and navigation *)

Section DeckFacts.

Import Flashcards.

Lemma update_at_elsewhere (cards : list Flashcard) (i j : nat) (m : Z) :
  i <> j -> nth_error (update_at cards i m) j = nth_error cards j.
Proof.
  revert i j; induction cards as [|d r IH]; intros [|i] [|j] Hne; simpl;
    try reflexivity; try congruence.
  apply IH; congruence.
Qed.

Lemma update_at_face (cards : list Flashcard) (i : nat) (m : Z) :
  map face (update_at cards i m) = map face cards.
Proof.
  revert i; induction cards as [|c r IH]; intros [|j]; simpl; try reflexivity.
  now rewrite IH.
Qed.

Lemma update_at_levels (cards : list Flashcard) (i : nat) (m : Z) :
  0 <= m <= 5 -> levels_in_range cards -> levels_in_range (update_at cards i m).
Proof.
  unfold levels_in_range; intros Hm H; revert i.
  induction H as [|c r Hc Hr IH]; intros [|j]; simpl; constructor; auto.
Qed.

Lemma newMasteryLevel_range (m : Z) (correct : bool) :
  0 <= m <= 5 -> 0 <= newMasteryLevel m correct <= 5.
Proof. unfold newMasteryLevel; destruct correct; lia. Qed.

Lemma card_at_level (cards : list Flashcard) (i : Z) (c : Flashcard) :
  levels_in_range cards -> card_at cards i = Some c -> 0 <= mastery_level c <= 5.
Proof.
  unfold levels_in_range, card_at; intros H Hc.
  destruct (i <? 0); [discriminate Hc|].
  apply nth_error_In in Hc. rewrite Forall_forall in H. now apply H.
Qed.

(** What a successful review is made of. *)
Lemma handleMastery_Some (now : Z) (correct : bool) (s s' : State) (u : Update) :
  handleMastery now correct s = Some (s', u) ->
  exists card,
    card_at (flashcards s) (currentIndex s) = Some card /\
    u = {| upd_id := id card;
           upd_mastery_level := newMasteryLevel (mastery_level card) correct;
           upd_last_reviewed := now |} /\
    s' = {| flashcards := update_at (flashcards s) (Z.to_nat (currentIndex s))
                            (newMasteryLevel (mastery_level card) correct);
            currentIndex := (currentIndex s + 1) mod deck_size s;
            flipped := false |}.
Proof.
  unfold handleMastery; intros H.
  destruct (card_at (flashcards s) (currentIndex s)) as [card|] eqn:Hc;
    [|discriminate H].
  pose proof (card_at_bounds _ _ _ Hc) as Hb.
  rewrite handleNext_in_deck in H; simpl.
  - inversion H; subst. exists card. repeat split.
    unfold deck_size; simpl. now rewrite update_at_length.
  - simpl; lia.
  - unfold deck_size; simpl. rewrite update_at_length. lia.
Qed.

Lemma step_in_deck (now : Z) (e : Event) (p : Page) :
  0 <= currentIndex (shown p) < deck_size (shown p) ->
  step now e p =
    match e with
    | Flip => Some ({| shown := handleFlip (shown p); in_flight := in_flight p |}, [])
    | Next =>
        option_map (fun s' => ({| shown := s'; in_flight := in_flight p |}, []))
                   (handleNext (shown p))
    | Previous =>
        option_map (fun s' => ({| shown := s'; in_flight := in_flight p |}, []))
                   (handlePrevious (shown p))
    | Review correct =>
        if flipped (shown p)
        then option_map
               (fun r => ({| shown := shown p;
                             in_flight := in_flight p ++ [fst r] |}, [snd r]))
               (handleMastery_call now correct (shown p))
        else None
    | UpdateSettled k =>
        match nth_error (in_flight p) k with
        | Some q =>
            option_map
              (fun s' => ({| shown := s';
                             in_flight := remove_nth k (in_flight p) |}, []))
              (handleMastery_resume q (shown p))
        | None => None
        end
    end.
Proof.
  unfold step, deck_size; intros Hin.
  destruct (flashcards (shown p)); [simpl in Hin; lia | reflexivity].
Qed.

Lemma remove_nth_Forall {A : Type} (P : A -> Prop) (k : nat) (l : list A) :
  Forall P l -> Forall P (remove_nth k l).
Proof.
  intros H; unfold remove_nth. revert k.
  induction H as [|x l Hx Hl IH]; intros [|k]; simpl; auto.
Qed.

(** One event keeps the index inside the deck and the faces of the cards,
    sends an update exactly when it is a review, and keeps the levels in
    range: those of the cards, those sent and those still to be written. *)
Lemma step_keeps_deck (now : Z) (e : Event) (p p' : Page) (us : list Update) :
  step now e p = Some (p', us) ->
  0 <= currentIndex (shown p) < deck_size (shown p) ->
  0 <= currentIndex (shown p') < deck_size (shown p') /\
  map face (flashcards (shown p')) = map face (flashcards (shown p)) /\
  length us = (if is_review e then 1 else 0)%nat /\
  (Forall (fun q => 0 <= at_index q < deck_size (shown p)) (in_flight p) ->
   Forall (fun q => 0 <= at_index q < deck_size (shown p')) (in_flight p')) /\
  (levels_in_range (flashcards (shown p)) ->
   Forall (fun q => 0 <= new_level q <= 5) (in_flight p) ->
   levels_in_range (flashcards (shown p')) /\
   Forall (fun q => 0 <= new_level q <= 5) (in_flight p') /\
   Forall (fun u => 0 <= upd_mastery_level u <= 5) us).
Proof.
  intros H Hin. rewrite (step_in_deck _ _ _ Hin) in H.
  destruct e as [| | |correct|k].
  - inversion H; subst; simpl. unfold deck_size in *; simpl.
    split; [lia|]. split; [reflexivity|]. split; [reflexivity|].
    split; [auto|]. intros Hl Hq; repeat split; auto.
  - rewrite handleNext_in_deck in H by lia. inversion H; subst; simpl.
    unfold deck_size in *; simpl.
    split; [apply Z.mod_pos_bound; lia|]. split; [reflexivity|].
    split; [reflexivity|].
    split; [auto|]. intros Hl Hq; repeat split; auto.
  - rewrite handlePrevious_in_deck in H by lia. inversion H; subst; simpl.
    unfold deck_size in *; simpl.
    split; [apply Z.mod_pos_bound; lia|]. split; [reflexivity|].
    split; [reflexivity|].
    split; [auto|]. intros Hl Hq; repeat split; auto.
  - destruct (flipped (shown p)); [|discriminate H].
    destruct (handleMastery_call now correct (shown p)) as [[q u]|] eqn:Hm;
      [|discriminate H].
    simpl in H; inversion H; subst p' us; simpl.
    destruct (handleMastery_call_Some _ _ _ _ _ Hm) as (card & Hc & -> & ->).
    split; [exact Hin|]. split; [reflexivity|]. split; [reflexivity|].
    split.
    + intros Hq. apply Forall_app; split; [exact Hq|].
      constructor; [exact Hin | constructor].
    + intros Hl Hq.
      pose proof (newMasteryLevel_range _ correct (card_at_level _ _ _ Hl Hc)) as Hr.
      split; [exact Hl|]. split.
      * apply Forall_app; split; [exact Hq|]. constructor; [exact Hr | constructor].
      * constructor; [exact Hr | constructor].
  - destruct (nth_error (in_flight p) k) as [q|] eqn:Hk; [|discriminate H].
    rewrite (handleMastery_resume_in_deck _ _ Hin) in H.
    simpl in H; inversion H; subst p' us; simpl.
    unfold deck_size in *; simpl. rewrite update_at_length.
    split; [apply Z.mod_pos_bound; lia|].
    split; [apply update_at_face|]. split; [reflexivity|].
    split; [intros Hq; now apply remove_nth_Forall|].
    intros Hl Hq.
    assert (Hr : 0 <= new_level q <= 5).
    { rewrite Forall_forall in Hq. apply Hq. eapply nth_error_In; eassumption. }
    split; [now apply update_at_levels|].
    split; [now apply remove_nth_Forall | constructor].
Qed.

Lemma run_keeps_deck (trace : list (Z * Event)) (p p' : Page) (us : list Update) :
  run trace p = Some (p', us) ->
  0 <= currentIndex (shown p) < deck_size (shown p) ->
  0 <= currentIndex (shown p') < deck_size (shown p') /\
  map face (flashcards (shown p')) = map face (flashcards (shown p)) /\
  length us = length (filter is_review (map snd trace)) /\
  (Forall (fun q => 0 <= at_index q < deck_size (shown p)) (in_flight p) ->
   Forall (fun q => 0 <= at_index q < deck_size (shown p')) (in_flight p')) /\
  (levels_in_range (flashcards (shown p)) ->
   Forall (fun q => 0 <= new_level q <= 5) (in_flight p) ->
   levels_in_range (flashcards (shown p')) /\
   Forall (fun q => 0 <= new_level q <= 5) (in_flight p') /\
   Forall (fun u => 0 <= upd_mastery_level u <= 5) us).
Proof.
  revert p us; induction trace as [|[now e] rest IH]; simpl; intros p us H Hin.
  - inversion H; subst. split; [exact Hin|]. split; [reflexivity|].
    split; [reflexivity|]. split; [auto|].
    intros Hl Hq; repeat split; auto.
  - destruct (step now e p) as [[p1 us1]|] eqn:Hs; [|discriminate H].
    destruct (run rest p1) as [[p2 us2]|] eqn:Hr; [|discriminate H].
    inversion H; subst p' us.
    destruct (step_keeps_deck _ _ _ _ _ Hs Hin) as (Hin1 & Hf1 & Hl1 & Hq1 & Hlev1).
    destruct (IH _ _ Hr Hin1) as (Hin2 & Hf2 & Hl2 & Hq2 & Hlev2).
    split; [exact Hin2|]. split; [congruence|].
    split; [rewrite length_app, Hl1, Hl2; now destruct (is_review e)|].
    split; [auto|].
    intros Hl Hq. destruct (Hlev1 Hl Hq) as (Hl1' & Hq1' & Hu1).
    destruct (Hlev2 Hl1' Hq1') as (Hl2' & Hq2' & Hu2).
    split; [exact Hl2'|]. split; [exact Hq2' | apply Forall_app; auto].
Qed.

Lemma mount_in_deck (data : list Flashcard) :
  data <> [] ->
  mount false (Some data) = {| flashcards := data; currentIndex := 0; flipped := false |} /\
  0 <= currentIndex (mount false (Some data)) < deck_size (mount false (Some data)).
Proof.
  intros Hne. destruct data as [|c r]; [congruence|].
  split; [reflexivity|]. unfold deck_size; simpl. lia.
Qed.

Lemma run_app_pages (t1 t2 : list (Z * Event)) (p : Page) :
  run (t1 ++ t2) p =
    match run t1 p with
    | Some (p1, us1) =>
        match run t2 p1 with
        | Some (p2, us2) => Some (p2, us1 ++ us2)
        | None => None
        end
    | None => None
    end.
Proof.
  revert p; induction t1 as [|[now e] rest IH]; intros p; simpl.
  - now destruct (run t2 p) as [[p2 us2]|].
  - destruct (step now e p) as [[p1 us1]|]; [|reflexivity].
    rewrite IH. destruct (run rest p1) as [[p2 us2]|]; [|reflexivity].
    destruct (run t2 p2) as [[p3 us3]|]; [|reflexivity].
    now rewrite app_assoc.
Qed.

(** Reviews clicked one after the other on a flipped card, before any of
    their updates settles: every call reads the same card. *)
Lemma run_reviews (clicks : list (Z * bool)) (p : Page) (card : Flashcard) :
  flipped (shown p) = true ->
  card_at (flashcards (shown p)) (currentIndex (shown p)) = Some card ->
  run (map (fun tc => (fst tc, Review (snd tc))) clicks) p =
    Some ({| shown := shown p;
             in_flight :=
               in_flight p
               ++ map (fun tc =>
                         {| at_index := currentIndex (shown p);
                            new_level := newMasteryLevel (mastery_level card) (snd tc) |})
                      clicks |},
          map (update_for card) clicks).
Proof.
  intros Hf Hc. pose proof (card_at_bounds _ _ _ Hc) as Hin.
  revert p Hf Hc Hin; induction clicks as [|[t c] rest IH]; intros p Hf Hc Hin.
  - simpl. rewrite app_nil_r. now destruct p.
  - cbn [map run fst snd].
    rewrite step_in_deck by exact Hin.
    rewrite Hf. unfold handleMastery_call. rewrite Hc. cbn [option_map fst snd].
    rewrite IH by (simpl; assumption).
    cbn [shown in_flight]. rewrite <- app_assoc. reflexivity.
Qed.

(** The same card written twice keeps the second level. *)
Lemma update_at_twice (cards : list Flashcard) (i : nat) (a b : Z) :
  update_at (update_at cards i a) i b = update_at cards i b.
Proof.
  revert i; induction cards as [|c r IH]; intros [|j]; simpl; try reflexivity.
  now rewrite IH.
Qed.

Lemma last_shift {A : Type} (l : list A) (x d : A) :
  last (x :: l) d = last l x.
Proof.
  revert x d; induction l as [|y l IH]; intros x d; [reflexivity|].
  change (last (x :: y :: l) d) with (last (y :: l) d).
  now rewrite !IH.
Qed.

(** The updates of calls made at one index settle, oldest first: the card
    keeps the level of the last call, and each settling moves the view on
    by one card. *)
Lemma run_settles (times : list Z) (qs : list Pending) (q : Pending)
      (i : Z) (s : State) :
  length times = length (q :: qs) ->
  Forall (fun x => at_index x = i) (q :: qs) ->
  0 <= currentIndex s < deck_size s ->
  run (map (fun t => (t, UpdateSettled 0)) times)
      {| shown := s; in_flight := q :: qs |} =
    Some ({| shown :=
               {| flashcards := update_at (flashcards s) (Z.to_nat i)
                                  (new_level (last qs q));
                  currentIndex :=
                    (currentIndex s + Z.of_nat (length (q :: qs))) mod deck_size s;
                  flipped := false |};
             in_flight := [] |}, []).
Proof.
  revert times q s; induction qs as [|q' qs IH]; intros times q s Hlen Hall Hin.
  - destruct times as [|t [|t' ts]]; try discriminate Hlen.
    cbn [map run]. rewrite step_in_deck by exact Hin.
    cbn [in_flight nth_error shown].
    rewrite handleMastery_resume_in_deck by exact Hin.
    inversion Hall; subst. reflexivity.
  - destruct times as [|t ts]; [discriminate Hlen|].
    cbn [map run]. rewrite step_in_deck by exact Hin.
    cbn [in_flight nth_error shown].
    rewrite handleMastery_resume_in_deck by exact Hin.
    cbn [option_map remove_nth firstn skipn app].
    inversion Hall as [|x l Hq Hrest]; subst.
    rewrite (IH ts q').
    + cbn [flashcards currentIndex deck_size].
      unfold deck_size; cbn [flashcards].
      rewrite update_at_length, update_at_twice.
      rewrite (last_shift qs q' q), Zplus_mod_idemp_l.
      do 4 f_equal. f_equal. cbn [length]. lia.
    + simpl in Hlen |- *. lia.
    + exact Hrest.
    + cbn [currentIndex]. unfold deck_size in *; cbn [flashcards].
      rewrite update_at_length. apply Z.mod_pos_bound; lia.
Qed.

Lemma next_times_index (k : nat) (s : State) :
  0 <= currentIndex s < deck_size s ->
  next_times k s =
    Some {| flashcards := flashcards s;
            currentIndex := (currentIndex s + Z.of_nat k) mod deck_size s;
            flipped := match k with O => flipped s | S _ => false end |}.
Proof.
  revert s; induction k as [|k IH]; intros s Hin.
  - simpl. rewrite Z.add_0_r, Z.mod_small by lia. now destruct s.
  - cbn [next_times]. rewrite handleNext_in_deck by lia.
    rewrite IH; unfold deck_size in *; simpl.
    + f_equal. f_equal.
      * rewrite Zplus_mod_idemp_l. f_equal. lia.
      * now destruct k.
    + apply Z.mod_pos_bound; lia.
Qed.

End DeckFacts.

(** X1.  A review rewrites the level of the card it was called for and
    nothing else: every other card is the same object as before, no card
    changes its id, question, answer or difficulty, the update goes to the
    reviewed card's id, and the view moves to the next card, unflipped. *)
Theorem review_changes_only_reviewed_card :
  forall (now : Z) (correct : bool) (s s' : Flashcards.State) (u : Flashcards.Update),
    Flashcards.handleMastery now correct s = Some (s', u) ->
    map Flashcards.face (Flashcards.flashcards s')
      = map Flashcards.face (Flashcards.flashcards s) /\
    (forall j, j <> Z.to_nat (Flashcards.currentIndex s) ->
               nth_error (Flashcards.flashcards s') j
               = nth_error (Flashcards.flashcards s) j) /\
    (exists card,
        Flashcards.card_at (Flashcards.flashcards s) (Flashcards.currentIndex s)
          = Some card /\
        Flashcards.upd_id u = Flashcards.id card /\
        Flashcards.card_at (Flashcards.flashcards s') (Flashcards.currentIndex s)
          = Some (Flashcards.set_mastery card (Flashcards.upd_mastery_level u))) /\
    Flashcards.currentIndex s'
      = (Flashcards.currentIndex s + 1) mod Flashcards.deck_size s /\
    Flashcards.flipped s' = false.
Proof.
  intros now correct s s' u H.
  destruct (handleMastery_Some _ _ _ _ _ H) as (card & Hc & -> & ->); simpl.
  split; [apply update_at_face|].
  split; [intros j Hj; apply update_at_elsewhere; congruence|].
  split; [|split; reflexivity].
  exists card. split; [exact Hc|]. split; [reflexivity|].
  pose proof (card_at_bounds _ _ _ Hc) as Hb.
  unfold Flashcards.card_at in *.
  destruct (Z.ltb_spec (Flashcards.currentIndex s) 0); [lia|].
  now apply update_at_nth.
Qed.

(** X1, at the first of three cards, reviewed as not known. *)
Lemma review_changes_only_reviewed_card_witness :
  exists s' u,
    Flashcards.handleMastery 1 false Flashcards.sample_deck = Some (s', u) /\
    nth_error (Flashcards.flashcards s') 1
      = nth_error (Flashcards.flashcards Flashcards.sample_deck) 1 /\
    Flashcards.currentIndex s' = 1.
Proof.
  destruct (Flashcards.handleMastery 1 false Flashcards.sample_deck)
    as [[s' u]|] eqn:H; [|vm_compute in H; discriminate H].
  exists s', u. split; [reflexivity|].
  destruct (review_changes_only_reviewed_card _ _ _ _ _ H) as (_ & Ho & _ & Hi & _).
  split; [apply Ho; vm_compute; discriminate | exact Hi].
Defined.

(** X2.  Whatever is clicked on the study page of a loaded, non-empty deck,
    and whenever and in whatever order the updates of the reviews settle
    (also with several reviews waiting at once), the index stays inside the
    deck, the cards keep their order, ids, questions, answers and
    difficulties, one update is sent for each review click and none for any
    other event, and every review still waiting will write to a position
    inside the deck. *)
Theorem deck_invariants_along_run :
  forall (data : list Flashcards.Flashcard)
         (trace : list (Z * Flashcards.Event))
         (p : Flashcards.Page) (us : list Flashcards.Update),
    data <> [] ->
    Flashcards.run trace (Flashcards.loaded false (Some data)) = Some (p, us) ->
    0 <= Flashcards.currentIndex (Flashcards.shown p) < Z.of_nat (length data) /\
    map Flashcards.face (Flashcards.flashcards (Flashcards.shown p))
      = map Flashcards.face data /\
    length us = length (filter Flashcards.is_review (map snd trace)) /\
    (length us <= length trace)%nat /\
    Forall (fun q => 0 <= Flashcards.at_index q < Z.of_nat (length data))
           (Flashcards.in_flight p).
Proof.
  intros data trace p us Hne Hrun.
  destruct (mount_in_deck data Hne) as [Hm Hin].
  destruct (run_keeps_deck _ _ _ _ Hrun Hin) as (H1 & H2 & H3 & H4 & _).
  unfold Flashcards.loaded in *. cbn [Flashcards.shown Flashcards.in_flight] in *.
  rewrite Hm in H2. cbn [Flashcards.flashcards] in H2.
  assert (Hn : Flashcards.deck_size (Flashcards.shown p) = Z.of_nat (length data)).
  { unfold Flashcards.deck_size.
    now rewrite <- (length_map Flashcards.face), H2, length_map. }
  rewrite Hn in *.
  split; [exact H1|]. split; [exact H2|]. split; [exact H3|]. split.
  - rewrite H3. etransitivity; [apply filter_length_le|].
    now rewrite length_map.
  - apply H4. constructor.
Qed.

(** X2, at three cards: the first card is flipped and reviewed twice, as
    known and as not known, before either update has settled; the second
    update settles first, the user goes back, then the first update
    settles.  Two updates were sent and the page shows the second card. *)
Lemma deck_invariants_along_run_witness :
  exists p us,
    Flashcards.run [(1, Flashcards.Flip); (2, Flashcards.Review true);
                    (3, Flashcards.Review false);
                    (4, Flashcards.UpdateSettled 1); (5, Flashcards.Previous);
                    (6, Flashcards.UpdateSettled 0)]
      (Flashcards.loaded false (Some (Flashcards.flashcards Flashcards.sample_deck)))
    = Some (p, us) /\
    0 <= Flashcards.currentIndex (Flashcards.shown p) < 3 /\
    length us = 2%nat /\
    Flashcards.currentIndex (Flashcards.shown p) = 1.
Proof.
  destruct (Flashcards.run [(1, Flashcards.Flip); (2, Flashcards.Review true);
                            (3, Flashcards.Review false);
                            (4, Flashcards.UpdateSettled 1); (5, Flashcards.Previous);
                            (6, Flashcards.UpdateSettled 0)]
              (Flashcards.loaded false
                 (Some (Flashcards.flashcards Flashcards.sample_deck))))
    as [[p us]|] eqn:H; [|vm_compute in H; discriminate H].
  exists p, us. split; [reflexivity|].
  destruct (deck_invariants_along_run
              (Flashcards.flashcards Flashcards.sample_deck) _ _ _
              ltac:(simpl; discriminate) H) as (Hi & _ & Hl & _).
  split; [exact Hi|]. split; [exact Hl|].
  vm_compute in H. inversion H; reflexivity.
Defined.

(** X3.  If every loaded card has its level in [0, 5], then after any
    sequence of events, with updates settling at any moment and in any
    order, every card still has a level in [0, 5], every update sent to
    the store carries one, and so does every review still waiting to be
    written. *)
Theorem levels_stay_in_range_along_run :
  forall (data : list Flashcards.Flashcard)
         (trace : list (Z * Flashcards.Event))
         (p : Flashcards.Page) (us : list Flashcards.Update),
    Flashcards.levels_in_range data ->
    Flashcards.run trace (Flashcards.loaded false (Some data)) = Some (p, us) ->
    Forall (fun c => 0 <= Flashcards.mastery_level c <= 5)
           (Flashcards.flashcards (Flashcards.shown p)) /\
    Forall (fun u => 0 <= Flashcards.upd_mastery_level u <= 5) us /\
    Forall (fun q => 0 <= Flashcards.new_level q <= 5) (Flashcards.in_flight p).
Proof.
  intros data trace p us Hl Hrun.
  destruct data as [|c r].
  - destruct trace as [|[now e] rest]; simpl in Hrun; [|discriminate Hrun].
    inversion Hrun; subst. repeat split; constructor.
  - destruct (mount_in_deck (c :: r) ltac:(discriminate)) as [Hm Hin].
    destruct (run_keeps_deck _ _ _ _ Hrun Hin) as (_ & _ & _ & _ & H).
    unfold Flashcards.loaded in H. cbn [Flashcards.shown Flashcards.in_flight] in H.
    rewrite Hm in H. destruct (H Hl ltac:(constructor)) as (H1 & H2 & H3).
    auto.
Qed.

(** X3, at three cards with levels 5, 0 and 2: the top card is reviewed as
    known and, before that update settles, as not known; both updates
    settle; the next card is reviewed as not known and left waiting. *)
Lemma levels_stay_in_range_along_run_witness :
  exists p us,
    Flashcards.run [(1, Flashcards.Flip); (2, Flashcards.Review true);
                    (3, Flashcards.Review false);
                    (4, Flashcards.UpdateSettled 0); (5, Flashcards.UpdateSettled 0);
                    (6, Flashcards.Previous); (7, Flashcards.Flip);
                    (8, Flashcards.Review false)]
      (Flashcards.loaded false (Some (Flashcards.flashcards Flashcards.sample_deck)))
    = Some (p, us) /\
    Forall (fun c => 0 <= Flashcards.mastery_level c <= 5)
           (Flashcards.flashcards (Flashcards.shown p)) /\
    map Flashcards.upd_mastery_level us = [5; 4; 0] /\
    map Flashcards.mastery_level (Flashcards.flashcards (Flashcards.shown p))
      = [4; 0; 2].
Proof.
  destruct (Flashcards.run [(1, Flashcards.Flip); (2, Flashcards.Review true);
                            (3, Flashcards.Review false);
                            (4, Flashcards.UpdateSettled 0);
                            (5, Flashcards.UpdateSettled 0);
                            (6, Flashcards.Previous); (7, Flashcards.Flip);
                            (8, Flashcards.Review false)]
              (Flashcards.loaded false
                 (Some (Flashcards.flashcards Flashcards.sample_deck))))
    as [[p us]|] eqn:H; [|vm_compute in H; discriminate H].
  exists p, us. split; [reflexivity|].
  split.
  - refine (proj1 (levels_stay_in_range_along_run _ _ _ _ _ H)).
    repeat constructor; simpl; lia.
  - vm_compute in H. inversion H; split; reflexivity.
Defined.

(** X4.  "Next" clicked [k] times on a deck of [n] cards moves from index
    [i] to [(i + k) mod n] and leaves the deck alone; clicked [n] times it
    is back at [i]. *)
Theorem next_cycles_through_deck :
  forall (s : Flashcards.State) (k : nat),
    0 <= Flashcards.currentIndex s < Flashcards.deck_size s ->
    (exists s',
        Flashcards.next_times k s = Some s' /\
        Flashcards.currentIndex s'
          = (Flashcards.currentIndex s + Z.of_nat k) mod Flashcards.deck_size s /\
        Flashcards.flashcards s' = Flashcards.flashcards s) /\
    (exists s',
        Flashcards.next_times (length (Flashcards.flashcards s)) s = Some s' /\
        Flashcards.currentIndex s' = Flashcards.currentIndex s).
Proof.
  intros s k Hin. split.
  - rewrite next_times_index by exact Hin. eexists; split; [reflexivity|].
    split; reflexivity.
  - rewrite next_times_index by exact Hin. eexists; split; [reflexivity|].
    simpl. fold (Flashcards.deck_size s).
    replace (Flashcards.currentIndex s + Flashcards.deck_size s)
      with (Flashcards.currentIndex s + 1 * Flashcards.deck_size s) by lia.
    rewrite Z.mod_add by lia. apply Z.mod_small; exact Hin.
Qed.

(** X4, at three cards: four clicks from the first card end on the
    second. *)
Lemma next_cycles_through_deck_witness :
  exists s',
    Flashcards.next_times 4 Flashcards.sample_deck = Some s' /\
    Flashcards.currentIndex s' = 1.
Proof.
  destruct (next_cycles_through_deck Flashcards.sample_deck 4
              ltac:(vm_compute; split; congruence))
    as [(s' & H & Hi & _) _].
  exists s'. split; [exact H | exact Hi].
Defined.

(** X5.  Reviews of one card overlap: the review buttons stay on the page
    while an update is awaited, so a flipped card can be reviewed several
    times before the first update settles.  Every one of these calls reads
    the level the card had at the first click: each sends an update to the
    card's id with that level moved by its own verdict and the time of its
    click, and once all the updates have settled, oldest first, the card
    has the level computed by the last call (one step from the level it
    started from, however many reviews there were), its face is unchanged,
    the view has moved on by one card for each review and shows it
    unflipped, and nothing is left waiting. *)
Theorem overlapping_reviews_read_the_same_level :
  forall (p : Flashcards.Page) (card : Flashcards.Flashcard)
         (first : Z * bool) (more : list (Z * bool)) (settles : list Z),
    Flashcards.in_flight p = [] ->
    Flashcards.flipped (Flashcards.shown p) = true ->
    Flashcards.card_at (Flashcards.flashcards (Flashcards.shown p))
      (Flashcards.currentIndex (Flashcards.shown p)) = Some card ->
    length settles = length (first :: more) ->
    let i := Flashcards.currentIndex (Flashcards.shown p) in
    let m := Flashcards.mastery_level card in
    exists (p' : Flashcards.Page) (us : list Flashcards.Update)
           (card' : Flashcards.Flashcard),
      Flashcards.run
        (map (fun tc : Z * bool => (fst tc, Flashcards.Review (snd tc))) (first :: more)
         ++ map (fun t : Z => (t, Flashcards.UpdateSettled 0)) settles) p
      = Some (p', us) /\
      map Flashcards.upd_id us = map (fun _ : Z * bool => Flashcards.id card) (first :: more) /\
      map Flashcards.upd_mastery_level us
        = map (fun tc : Z * bool => if snd tc then Z.min (m + 1) 5 else Z.max (m - 1) 0)
              (first :: more) /\
      map Flashcards.upd_last_reviewed us = map fst (first :: more) /\
      Flashcards.card_at (Flashcards.flashcards (Flashcards.shown p')) i
        = Some card' /\
      Flashcards.mastery_level card'
        = (if snd (last more first) then Z.min (m + 1) 5 else Z.max (m - 1) 0) /\
      Flashcards.face card' = Flashcards.face card /\
      Flashcards.currentIndex (Flashcards.shown p')
        = (i + Z.of_nat (length (first :: more)))
            mod Z.of_nat (length (Flashcards.flashcards (Flashcards.shown p))) /\
      Flashcards.flipped (Flashcards.shown p') = false /\
      Flashcards.in_flight p' = [].
Proof.
  intros p card first more settles Hidle Hflip Hcard Hlen i m.
  pose proof (card_at_bounds _ _ _ Hcard) as Hin.
  assert (Hlast : forall (g : Z * bool -> Flashcards.Pending) l d,
             last (map g l) (g d) = g (last l d)).
  { intros g l d; induction l as [|x l IH]; [reflexivity|].
    destruct l; [reflexivity | exact IH]. }
  rewrite run_app_pages, (run_reviews _ _ _ Hflip Hcard), Hidle.
  cbn [app map].
  rewrite (run_settles settles _ _ i).
  - eexists; eexists; exists (Flashcards.set_mastery card
        (Flashcards.newMasteryLevel m (snd (last more first)))).
    split; [reflexivity|].
    cbn [Flashcards.shown Flashcards.in_flight Flashcards.flashcards
         Flashcards.currentIndex Flashcards.flipped app].
    rewrite app_nil_r.
    split; [cbn [map]; f_equal; rewrite map_map; reflexivity|].
    split; [cbn [map]; f_equal; rewrite map_map; reflexivity|].
    split; [cbn [map]; f_equal; rewrite map_map; reflexivity|].
    split.
    + unfold Flashcards.card_at in *. fold i in Hcard |- *.
      destruct (Z.ltb_spec i 0); [discriminate Hcard|].
      rewrite (update_at_nth _ _ _ _ Hcard). do 2 f_equal.
      now rewrite (Hlast (fun tc => {| Flashcards.at_index := i;
                                       Flashcards.new_level :=
                                         Flashcards.newMasteryLevel m (snd tc) |})).
    + split; [reflexivity|]. split; [reflexivity|].
      split; [|split; reflexivity].
      unfold Flashcards.deck_size. cbn [length]. rewrite length_map. reflexivity.
  - cbn [length]. rewrite length_map. exact Hlen.
  - constructor; [reflexivity|].
    apply Forall_forall. intros x Hx. apply in_map_iff in Hx.
    destruct Hx as (tc & <- & _). reflexivity.
  - exact Hin.
Qed.

(** X5, at a card of level 2 reviewed twice as known before the first
    update settles: level 3 is sent twice and the card ends at 3. *)
Lemma overlapping_reviews_read_the_same_level_witness :
  exists p' us card',
    Flashcards.run [(1, Flashcards.Review true); (2, Flashcards.Review true);
                    (3, Flashcards.UpdateSettled 0); (4, Flashcards.UpdateSettled 0)]
      {| Flashcards.shown := Flashcards.level_two_deck; Flashcards.in_flight := [] |}
    = Some (p', us) /\
    map Flashcards.upd_mastery_level us = [3; 3] /\
    Flashcards.card_at (Flashcards.flashcards (Flashcards.shown p')) 0 = Some card' /\
    Flashcards.mastery_level card' = 3.
Proof.
  destruct (overlapping_reviews_read_the_same_level
              {| Flashcards.shown := Flashcards.level_two_deck;
                 Flashcards.in_flight := [] |}
              (Flashcards.set_mastery Flashcards.sample_card 2)
              (1, true) [(2, true)] [3; 4] eq_refl eq_refl eq_refl eq_refl)
    as (p' & us & card' & H & _ & Hu & _ & Hc & Hl & _).
  exists p', us, card'. repeat split; [exact H | exact Hu | exact Hc | exact Hl].
Defined.

(** X6.  The minutes recorded for a flashcard session and for a quiz are
    the elapsed time rounded to the nearest minute: they differ from it by
    at most thirty seconds, and are never negative unless the clock went
    back by more than that. *)
Theorem recorded_duration_is_nearest_minute :
  forall (now start : Z) (u : string) (fs : Flashcards.State)
         (qs : Quizzes.State) (q : Quizzes.Quiz),
    let d := Flashcards.duration_minutes (Flashcards.finishSession now start u fs) in
    60000 * d - 30000 <= now - start < 60000 * d + 30000 /\
    (start - 30000 <= now -> 0 <= d) /\
    (Quizzes.selectedQuiz qs = Some q -> Quizzes.sessionStart qs = start ->
     map Quizzes.duration_minutes
         (Quizzes.study_sessions (Quizzes.finishQuiz now qs))
     = map Quizzes.duration_minutes (Quizzes.study_sessions qs) ++ [d]).
Proof.
  intros now start u fs qs q d. subst d.
  cbn [Flashcards.duration_minutes Flashcards.finishSession].
  pose proof (round_div_nearest (now - start) 60000 ltac:(lia)) as H.
  split; [lia|]. split; [intros; lia|].
  intros Hq Hs. unfold Quizzes.finishQuiz. rewrite Hq.
  cbn [Quizzes.study_sessions]. rewrite map_app.
  cbn [map Quizzes.duration_minutes]. unfold Quizzes.sessionDuration.
  now rewrite Hs.
Qed.

(** ** Quiz: a whole attempt, and what reaches the store *)

Section AttemptFacts.

Import Quizzes.

Lemma skipn_head {A : Type} (l : list A) (i : nat) (x : A) (r : list A) :
  skipn i l = x :: r -> nth_error l i = Some x /\ skipn (S i) l = r.
Proof.
  revert i; induction l as [|y l IH]; intros [|i] H; simpl in *;
    try discriminate H.
  - inversion H; auto.
  - apply IH in H. exact H.
Qed.

Lemma skipn_nil_length {A : Type} (l : list A) (i : nat) :
  skipn i l = [] -> (length l <= i)%nat.
Proof.
  revert i; induction l as [|y l IH]; intros [|i] H; simpl in *;
    try discriminate H; try lia.
  apply IH in H. lia.
Qed.

Lemma skipn_cons_length {A : Type} (l : list A) (i : nat) (x : A) (r : list A) :
  skipn i l = x :: r -> (i < length l)%nat.
Proof.
  intros H. apply skipn_head in H. destruct H as [H _].
  apply nth_error_Some. congruence.
Qed.

Lemma view_is_Question (s : State) (q : Quiz) (qq : QuizQuestion) :
  quizzes s <> [] -> selectedQuiz s = Some q -> finished s = false ->
  nth_error (questions q) (currentQuestion s) = Some qq ->
  view s = Question q qq.
Proof.
  unfold view; intros Hq Hs Hf Hn.
  destruct (quizzes s); [congruence|]. now rewrite Hs, Hf, Hn.
Qed.

Lemma run_app (t1 t2 : list (Z * Event)) (s : State) :
  run (t1 ++ t2) s =
    match run t1 s with
    | Some s1 => run t2 s1
    | None => None
    end.
Proof.
  revert s; induction t1 as [|[now e] rest IH]; simpl; intros s; [reflexivity|].
  destruct (step now e s); auto.
Qed.

Lemma outcomes_for_length (qs : list QuizQuestion) (moves : list (Z * nat)) :
  valid_moves qs moves -> length (outcomes_for qs moves) = length qs.
Proof.
  revert moves; induction qs as [|qq qs IH]; intros [|[t c] ms] H; simpl in *;
    try contradiction; auto.
  destruct H as [_ H]. f_equal. now apply IH.
Qed.

(** The three clicks on one question. *)
Lemma answer_one (t : Z) (c : nat) (s : State) (q : Quiz) (qq : QuizQuestion) :
  view s = Question q qq -> showResult s = false ->
  (c < length (options qq))%nat ->
  run [(t, ClickOption c); (t, ClickSubmit); (t, ClickNext)] s =
    Some (handleNext t
            {| user := user s; quizzes := quizzes s; selectedQuiz := Some q;
               currentQuestion := currentQuestion s;
               selectedAnswer := Some (Z.of_nat c); showResult := true;
               answers := answers s ++ [Z.of_nat c =? correct_answer qq];
               finished := false; sessionStart := sessionStart s;
               study_sessions := study_sessions s; pending := pending s |}).
Proof.
  intros Hv Hs Hc.
  destruct (view_Question _ _ _ Hv) as (Hq & Hf & Hn).
  assert (Hne : quizzes s <> []).
  { unfold view in Hv. destruct (quizzes s); [discriminate Hv | discriminate]. }
  cbn [run]. unfold step at 1. rewrite Hv, Hs.
  apply Nat.ltb_lt in Hc. rewrite Hc.
  set (s1 := setSelectedAnswer (Some (Z.of_nat c)) s).
  assert (Hv1 : view s1 = Question q qq) by (apply view_is_Question; auto).
  unfold step at 1. rewrite Hv1. cbn [showResult selectedAnswer s1 setSelectedAnswer].
  rewrite Hs. unfold handleAnswer.
  cbn [selectedAnswer selectedQuiz questions currentQuestion s1 setSelectedAnswer].
  rewrite Hq, Hn.
  match goal with |- context [step t ClickNext ?x] => set (s2 := x) end.
  assert (Hv2 : view s2 = Question q qq) by (apply view_is_Question; auto).
  unfold step. rewrite Hv2. cbn [showResult s2].
  subst s2 s1. cbn. rewrite ?Hq, ?Hf. reflexivity.
Qed.

(** From any question of an attempt to the click on "Finish Quiz". *)
Lemma play_from (q : Quiz) (qs : list QuizQuestion) :
  forall (moves : list (Z * nat)) (s : State),
    quizzes s <> [] -> selectedQuiz s = Some q -> finished s = false ->
    showResult s = false ->
    skipn (currentQuestion s) (questions q) = qs -> qs <> [] ->
    valid_moves qs moves ->
    exists s' qq',
      run (play moves) s = Some s' /\
      view s' = Question q qq' /\
      answers s' = answers s ++ outcomes_for qs moves /\
      pending s' = S (pending s) /\
      study_sessions s' =
        study_sessions s ++
        [{| user_id := user s; session_type := "quiz"; content_id := id q;
            score := quizScore (answers s ++ outcomes_for qs moves);
            completed := true;
            duration_minutes :=
              sessionDuration (fst (last moves (0, 0%nat))) (sessionStart s) |}].
Proof.
  induction qs as [|qq qs IH]; intros moves s Hne Hq Hf Hs Hskip Hqs Hvalid;
    [congruence|].
  destruct moves as [|[t c] ms]; [contradiction|].
  destruct Hvalid as [Hc Hms].
  destruct (skipn_head _ _ _ _ Hskip) as [Hn Hrest].
  pose proof (skipn_cons_length _ _ _ _ Hskip) as Hlt.
  assert (Hv : view s = Question q qq) by (apply view_is_Question; auto).
  change (play ((t, c) :: ms))
    with ([(t, ClickOption c); (t, ClickSubmit); (t, ClickNext)] ++ play ms).
  rewrite run_app, (answer_one t c s q qq Hv Hs Hc).
  unfold handleNext. cbn [selectedQuiz currentQuestion].
  destruct qs as [|qq2 qs].
  - (* the last question *)
    destruct ms as [|m ms]; [|contradiction].
    apply skipn_nil_length in Hrest.
    destruct (Z.ltb_spec (Z.of_nat (currentQuestion s))
                         (Z.of_nat (length (questions q)) - 1)); [lia|].
    unfold finishQuiz. cbn [selectedQuiz play run].
    eexists; exists qq. split; [reflexivity|].
    split; [apply view_is_Question; auto|].
    cbn. repeat split.
  - (* a question in the middle *)
    pose proof (skipn_cons_length _ _ _ _ Hrest) as Hlt2.
    destruct (Z.ltb_spec (Z.of_nat (currentQuestion s))
                         (Z.of_nat (length (questions q)) - 1)); [|lia].
    match goal with |- context [run (play ms) ?x] => set (s3 := x) end.
    destruct (IH ms s3) as (s' & qq' & Hrun & Hv' & Ha & Hp & Hrows);
      subst s3; cbn; auto; try discriminate.
    exists s', qq'. split; [exact Hrun|]. split; [exact Hv'|].
    cbn in Ha, Hp, Hrows.
    rewrite <- app_assoc in Ha, Hrows. cbn in Ha, Hrows.
    split; [exact Ha|]. split; [exact Hp|].
    rewrite Hrows. destruct ms; [contradiction | reflexivity].
Qed.

Lemma step_ClickStart (now : Z) (k : nat) (s s' : State) :
  step now (ClickStart k) s = Some s' ->
  exists q, nth_error (quizzes s) k = Some q /\ s' = startQuiz q s.
Proof.
  unfold step; intros H.
  destruct (view s); try discriminate H.
  destruct (nth_error (quizzes s) k) as [q|]; [|discriminate H].
  inversion H. now exists q.
Qed.

Lemma handleAnswer_frame (s s' : State) :
  handleAnswer s = Some s' ->
  user s' = user s /\ quizzes s' = quizzes s /\
  selectedQuiz s' = selectedQuiz s /\ study_sessions s' = study_sessions s.
Proof.
  unfold handleAnswer; intros H.
  destruct (selectedAnswer s) as [a|] eqn:Ha;
    [|inversion H; subst; repeat split; congruence].
  destruct (selectedQuiz s) as [q|] eqn:Hq;
    [|inversion H; subst; repeat split; congruence].
  destruct (nth_error (questions q) (currentQuestion s)); [|discriminate H].
  inversion H; subst; simpl. repeat split; auto.
Qed.

Lemma step_rows (u : string) (data : list Quiz) (now : Z) (e : Event)
      (s s' : State) :
  step now e s = Some s' -> rows_kept u data s ->
  rows_kept u data s' /\
  (length (study_sessions s') <=
   length (study_sessions s) + next_clicks [(now, e)])%nat.
Proof.
  intros H (Hu & Hd & Hsel & Hrows).
  pose proof H as H0.
  assert (Hkeep : forall s1, user s1 = user s -> quizzes s1 = quizzes s ->
            study_sessions s1 = study_sessions s ->
            (forall q, selectedQuiz s1 = Some q -> In q data) ->
            rows_kept u data s1 /\
            (length (study_sessions s1) <= length (study_sessions s) + 0)%nat).
  { intros s1 E1 E2 E3 E4. unfold rows_kept. rewrite E1, E2, E3.
    repeat split; auto. lia. }
  assert (Hle : forall (s1 : State) (n : nat),
            rows_kept u data s1 /\
            (length (study_sessions s1) <= length (study_sessions s) + 0)%nat ->
            rows_kept u data s1 /\
            (length (study_sessions s1) <= length (study_sessions s) + n)%nat).
  { intros s1 n [A B]. split; [exact A | lia]. }
  destruct (step_cases _ _ _ _ H) as
    [(-> & _ & ->) | [(k & q & -> & _ & ->) | [(q & qq & i & -> & _ & _ & ->) |
    [(q & qq & a & -> & Hv & Hs & Ha & Hh) | [(q & qq & -> & Hv & Hs & ->) |
    [(q & qq & -> & Hv & ->) | [(q & sc & t & -> & Hv & ->) |
     (q & sc & t & -> & Hv & ->)]]]]]]].
  - apply Hle, Hkeep; auto.
  - destruct (step_ClickStart _ _ _ _ H0) as (q' & Hk & Heq).
    assert (q' = q) by (apply (f_equal selectedQuiz) in Heq; simpl in Heq; congruence).
    subst q'. apply Hle, Hkeep; auto.
    simpl; intros q2 Hq2; inversion Hq2; subst q2.
    apply nth_error_In in Hk. congruence.
  - apply Hle, Hkeep; auto.
  - destruct (handleAnswer_frame _ _ Hh) as (E1 & E2 & E3 & E4).
    apply Hle, Hkeep; auto. rewrite E3. exact Hsel.
  - destruct (view_Question _ _ _ Hv) as (Hq & _ & _).
    unfold handleNext, finishQuiz. rewrite Hq.
    destruct (Z.of_nat (currentQuestion s) <? Z.of_nat (length (questions q)) - 1).
    + apply Hle, Hkeep; auto.
      simpl; intros q2 Hq2; inversion Hq2; subst q2; auto.
    + split; [|simpl; rewrite length_app; simpl; lia].
      unfold rows_kept; simpl. repeat split; auto.
      * intros q2 Hq2; inversion Hq2; subst q2; auto.
      * apply Forall_app; split; [exact Hrows|].
        constructor; [|constructor].
        unfold quiz_row; simpl. repeat split; auto.
        apply in_map. auto.
  - apply Hle, Hkeep; auto. simpl; discriminate.
  - destruct (view_Results _ _ _ _ Hv) as (Hq & _ & _).
    apply Hle, Hkeep; auto.
    simpl; intros q2 Hq2; inversion Hq2; subst q2; auto.
  - apply Hle, Hkeep; auto. simpl; discriminate.
Qed.

Lemma run_rows (u : string) (data : list Quiz) (trace : list (Z * Event))
      (s s' : State) :
  run trace s = Some s' -> rows_kept u data s ->
  rows_kept u data s' /\
  (length (study_sessions s') <=
   length (study_sessions s) + next_clicks trace)%nat.
Proof.
  revert s; induction trace as [|[now e] rest IH]; simpl; intros s H Hk.
  - inversion H; subst. split; [exact Hk | lia].
  - destruct (step now e s) as [s1|] eqn:Hs; [|discriminate H].
    destruct (step_rows _ _ _ _ _ _ Hs Hk) as [Hk1 Hl1].
    destruct (IH _ H Hk1) as [Hk2 Hl2].
    split; [exact Hk2|]. simpl in Hl1. destruct e; simpl; lia.
Qed.

(** "Finish Quiz" on the revealed last question, from the inside. *)
Lemma finish_click (now : Z) (s : State) (q : Quiz) (qq : QuizQuestion) :
  view s = Question q qq -> showResult s = true ->
  (Z.of_nat (currentQuestion s) <? Z.of_nat (length (questions q)) - 1) = false ->
  step now ClickNext s = Some (finishQuiz now s) /\
  view (finishQuiz now s) = Question q qq /\
  showResult (finishQuiz now s) = true /\
  currentQuestion (finishQuiz now s) = currentQuestion s /\
  answers (finishQuiz now s) = answers s /\
  sessionStart (finishQuiz now s) = sessionStart s /\
  user (finishQuiz now s) = user s /\
  pending (finishQuiz now s) = S (pending s) /\
  study_sessions (finishQuiz now s) =
    study_sessions s ++
    [{| user_id := user s; session_type := "quiz"; content_id := id q;
        score := quizScore (answers s); completed := true;
        duration_minutes := sessionDuration now (sessionStart s) |}].
Proof.
  intros Hv Hs Hlast.
  destruct (view_Question _ _ _ Hv) as (Hq & Hf & Hn).
  assert (Hne : quizzes s <> []).
  { unfold view in Hv. destruct (quizzes s); [discriminate Hv | discriminate]. }
  split.
  - unfold step. rewrite Hv, Hs. unfold handleNext. now rewrite Hq, Hlast.
  - unfold finishQuiz. rewrite Hq. cbn.
    split; [apply view_is_Question; auto|]. repeat split; auto.
Qed.

End AttemptFacts.

(** X7.  An attempt played to the end: the quiz is started, each question
    gets a choice, "Submit Answer" and "Next Question" (or "Finish Quiz"),
    and the insert settles.  The outcomes are, in order, whether each
    choice was the question's [correct_answer]; there is one per question;
    exactly one row was sent, with the score of these outcomes and the
    minutes from the mount to the last click; and the results page shows
    that score. *)
Theorem playing_a_quiz_records_each_answer :
  forall (now t_end : Z) (u : string) (data : list Quizzes.Quiz) (k : nat)
         (q : Quizzes.Quiz) (moves : list (Z * nat)),
    nth_error data k = Some q ->
    Quizzes.questions q <> [] ->
    Quizzes.valid_moves (Quizzes.questions q) moves ->
    exists s',
      Quizzes.run ((now, Quizzes.ClickStart k) :: Quizzes.play moves
                   ++ [(t_end, Quizzes.InsertSettled)])
                  (Quizzes.mount now u data) = Some s' /\
      Quizzes.answers s' = Quizzes.outcomes_for (Quizzes.questions q) moves /\
      length (Quizzes.answers s') = length (Quizzes.questions q) /\
      Quizzes.study_sessions s' =
        [{| Quizzes.user_id := u; Quizzes.session_type := "quiz";
            Quizzes.content_id := Quizzes.id q;
            Quizzes.score := Quizzes.quizScore (Quizzes.answers s');
            Quizzes.completed := true;
            Quizzes.duration_minutes :=
              Quizzes.sessionDuration (fst (last moves (0, 0%nat))) now |}] /\
      Quizzes.view s' =
        Quizzes.Results q (Quizzes.quizScore (Quizzes.answers s'))
          (fst (Quizzes.getScoreMessage (Quizzes.quizScore (Quizzes.answers s')))).
Proof.
  intros now t_end u data k q moves Hk Hqs Hvalid.
  assert (Hdata : data <> []) by (destruct data; [destruct k; discriminate Hk | discriminate]).
  cbn [Quizzes.run].
  assert (Hstart : Quizzes.step now (Quizzes.ClickStart k) (Quizzes.mount now u data)
                   = Some (Quizzes.startQuiz q (Quizzes.mount now u data))).
  { unfold Quizzes.step, Quizzes.view; simpl.
    destruct data; [congruence|]. now rewrite Hk. }
  rewrite Hstart, run_app.
  destruct (play_from q (Quizzes.questions q) moves
              (Quizzes.startQuiz q (Quizzes.mount now u data)))
    as (s1 & qq' & Hrun & Hv & Ha & Hp & Hrows); simpl; auto.
  rewrite Hrun. cbn [Quizzes.run].
  unfold Quizzes.step. rewrite Hv, Hp.
  exists (Quizzes.finishQuiz_resume s1). split; [reflexivity|].
  simpl in Ha, Hrows. cbn [Quizzes.answers Quizzes.finishQuiz_resume
                           Quizzes.study_sessions].
  rewrite Ha, Hrows.
  split; [reflexivity|].
  split; [now apply outcomes_for_length|].
  split; [reflexivity|].
  destruct (view_Question _ _ _ Hv) as (Hq1 & _ & _).
  unfold Quizzes.view; simpl.
  assert (Hqz : Quizzes.quizzes s1 <> []).
  { unfold Quizzes.view in Hv. destruct (Quizzes.quizzes s1);
      [discriminate Hv | discriminate]. }
  destruct (Quizzes.quizzes s1); [congruence|].
  now rewrite Hq1, Ha.
Qed.

(** X7, at a quiz of two questions answered right, then wrong. *)
Lemma playing_a_quiz_records_each_answer_witness :
  exists s',
    Quizzes.run ((0, Quizzes.ClickStart 0%nat)
                 :: Quizzes.play [(10000, 1%nat); (95000, 2%nat)]
                 ++ [(96000, Quizzes.InsertSettled)])
                (Quizzes.mount 0 "user-1" [Quizzes.two_questions]) = Some s' /\
    Quizzes.answers s' = [true; false] /\
    map Quizzes.duration_minutes (Quizzes.study_sessions s') = [2].
Proof.
  destruct (playing_a_quiz_records_each_answer 0 96000 "user-1"
              [Quizzes.two_questions] 0 Quizzes.two_questions
              [(10000, 1%nat); (95000, 2%nat)] eq_refl
              ltac:(simpl; discriminate) ltac:(simpl; lia))
    as (s' & Hrun & Ha & _ & Hrows & _).
  exists s'. split; [exact Hrun|]. split; [exact Ha|].
  rewrite Hrows. reflexivity.
Defined.

(** X8.  Whatever happens on the quiz page, in whatever order, every row
    sent to [study_sessions] belongs to the signed-in user, has type
    "quiz", is marked completed and refers to one of the loaded quizzes;
    and there are at most as many rows as clicks on "Next Question" /
    "Finish Quiz". *)
Theorem quiz_rows_are_well_formed :
  forall (now : Z) (u : string) (data : list Quizzes.Quiz)
         (trace : list (Z * Quizzes.Event)) (s : Quizzes.State),
    Quizzes.run trace (Quizzes.mount now u data) = Some s ->
    Forall (Quizzes.quiz_row u data) (Quizzes.study_sessions s) /\
    (length (Quizzes.study_sessions s) <= Quizzes.next_clicks trace)%nat /\
    Quizzes.user s = u /\ Quizzes.quizzes s = data.
Proof.
  intros now u data trace s Hrun.
  destruct (run_rows u data trace _ _ Hrun) as [(Hu & Hd & _ & Hrows) Hlen].
  - repeat split; simpl; auto. discriminate.
  - simpl in Hlen. auto.
Qed.

(** X8, at the attempt that is restarted while its insert is in flight. *)
Lemma quiz_rows_are_well_formed_witness :
  exists s,
    Quizzes.run Quizzes.stale_finish_trace
                (Quizzes.mount 0 "user-1" [Quizzes.sample_quiz]) = Some s /\
    length (Quizzes.study_sessions s) = 1%nat /\
    Forall (Quizzes.quiz_row "user-1" [Quizzes.sample_quiz])
           (Quizzes.study_sessions s).
Proof.
  destruct (Quizzes.run Quizzes.stale_finish_trace
              (Quizzes.mount 0 "user-1" [Quizzes.sample_quiz])) as [s|] eqn:H;
    [|vm_compute in H; discriminate H].
  exists s. split; [reflexivity|].
  split; [vm_compute in H; inversion H; reflexivity|].
  exact (proj1 (quiz_rows_are_well_formed _ _ _ _ _ H)).
Defined.

(** X9.  "Finish Quiz" stays on the page until the insert settles, and
    every click on it runs [finishQuiz] again: clicks at the times [times],
    before the first insert has settled, send one row each, equal in user,
    quiz, score and [completed] and each with the minutes from the mount to
    its own click, and leave as many more inserts in flight. *)
Theorem finish_clicks_repeat_the_row :
  forall (times : list Z) (s : Quizzes.State)
         (q : Quizzes.Quiz) (qq : Quizzes.QuizQuestion),
    Quizzes.view s = Quizzes.Question q qq ->
    Quizzes.showResult s = true ->
    (Z.of_nat (Quizzes.currentQuestion s)
     <? Z.of_nat (length (Quizzes.questions q)) - 1) = false ->
    exists s',
      Quizzes.run (map (fun t : Z => (t, Quizzes.ClickNext)) times) s = Some s' /\
      Quizzes.study_sessions s' =
        Quizzes.study_sessions s ++
        map (fun t : Z =>
               {| Quizzes.user_id := Quizzes.user s;
                  Quizzes.session_type := "quiz";
                  Quizzes.content_id := Quizzes.id q;
                  Quizzes.score := Quizzes.quizScore (Quizzes.answers s);
                  Quizzes.completed := true;
                  Quizzes.duration_minutes :=
                    Quizzes.sessionDuration t (Quizzes.sessionStart s) |}) times /\
      Quizzes.pending s' = (Quizzes.pending s + length times)%nat /\
      Quizzes.view s' = Quizzes.Question q qq.
Proof.
  intros times; induction times as [|now times IH]; intros s q qq Hv Hs Hlast.
  - exists s. simpl. rewrite app_nil_r. repeat split; auto.
  - destruct (finish_click now s q qq Hv Hs Hlast)
      as (Hstep & Hv1 & Hs1 & Hc1 & Ha1 & Ht1 & Hu1 & Hp1 & Hrows1).
    cbn [map Quizzes.run]. rewrite Hstep.
    destruct (IH (Quizzes.finishQuiz now s) q qq Hv1 Hs1)
      as (s' & Hrun & Hrows & Hp & Hv').
    + now rewrite Hc1.
    + exists s'. split; [exact Hrun|].
      rewrite Hrows, Hrows1, Hp, Hp1, Ha1, Ht1, Hu1.
      split; [now rewrite <- app_assoc|]. split; [cbn [length]; lia | exact Hv'].
Qed.

(** X9, at the revealed last question of the sample quiz, mounted at time
    0 and clicked after 20 and after 100 seconds: two rows, with 0 and 2
    minutes. *)
Lemma finish_clicks_repeat_the_row_witness :
  exists s',
    Quizzes.run [(20000, Quizzes.ClickNext); (100000, Quizzes.ClickNext)]
                Quizzes.revealed_state = Some s' /\
    map Quizzes.duration_minutes (Quizzes.study_sessions s') = [0; 2] /\
    Quizzes.pending s' = 2%nat.
Proof.
  destruct (finish_clicks_repeat_the_row [20000; 100000] Quizzes.revealed_state
              Quizzes.sample_quiz Quizzes.sample_question
              ltac:(vm_compute; reflexivity) eq_refl ltac:(vm_compute; reflexivity))
    as (s' & Hrun & Hrows & Hp & _).
  exists s'. split; [exact Hrun|].
  rewrite Hrows, Hp. split; vm_compute; reflexivity.
Defined.

(** A whole multiple divides without rounding. *)
Lemma round_div_multiple (k n : Z) :
  0 < n -> Js.round_div (k * n) n = k.
Proof.
  intros Hn; unfold Js.round_div.
  symmetry; apply Z.div_unique with (r := n); [lia|ring].
Qed.

(** X10.  For a quiz of up to 39 questions, all answers right score 100 and
    all answers wrong score 0. *)
Theorem perfect_and_empty_scores :
  forall n : nat,
    (1 <= n <= 39)%nat ->
    Quizzes.quizScore (repeat true n) = Js.Int 100 /\
    Quizzes.quizScore (repeat false n) = Js.Int 0.
Proof.
  intros n Hn.
  assert (Hz : 0 < Z.of_nat n) by lia.
  destruct (quizScore_exact_small (repeat true n)) as [Ht _];
    [rewrite repeat_length; exact Hn|].
  destruct (quizScore_exact_small (repeat false n)) as [Hf _];
    [rewrite repeat_length; exact Hn|].
  rewrite Ht, Hf. unfold Quizzes.score_spec.
  rewrite filter_repeat_true, filter_repeat_false, !repeat_length. simpl length.
  split; f_equal.
  - now apply round_div_multiple.
  - change (Js.round_div (0 * Z.of_nat n) (Z.of_nat n) = 0).
    now apply round_div_multiple.
Qed.

(** X10, at five questions. *)
Lemma perfect_and_empty_scores_witness :
  Quizzes.quizScore [true; true; true; true; true] = Js.Int 100 /\
  Quizzes.quizScore [false; false; false; false; false] = Js.Int 0.
Proof.
  exact (perfect_and_empty_scores 5 ltac:(lia)).
Defined.

(** ** Documents: generation, deletion, submission *)

Section DocumentFacts.

Import Documents.

(** What a generated quiz is made of. *)
Lemma generateQuiz_Generated (env : Env) (s : State) (doc : Doc.Document)
      (r : Json.reply) (row : QuizRow) :
  generateQuiz env s doc r = QuizGenerated row ->
  exists statusText data item items uid t,
    r = Json.Response true statusText (Json.Parsed data) /\
    Json.get data "questions" = inr (Json.JArr (item :: items)) /\
    Json.get data "title" = inr t /\
    user s = Some uid /\
    row = {| quiz_user_id := uid; quiz_document_id := Doc.id doc;
             quiz_title := if Json.truthy t then t else Json.JStr "Untitled Quiz";
             quiz_questions := Json.JArr (item :: items);
             quiz_total_questions := Z.of_nat (length (item :: items)) |}.
Proof.
  unfold generateQuiz; intros H.
  destruct (negb _ || negb _); [discriminate H|].
  destruct r as [m | ok statusText b]; [discriminate H|].
  destruct ok; simpl in H; [|discriminate H].
  destruct b as [m | data]; [discriminate H|].
  destruct (Json.get data "error") as [e | err]; [discriminate H|].
  destruct (Json.truthy err); [discriminate H|].
  destruct (Json.get data "questions") as [e | qs] eqn:Hget; [discriminate H|].
  destruct (negb (Json.truthy qs) || negb (Json.isArray qs)) eqn:Hqs;
    [discriminate H|].
  destruct qs as [| | | | | items |]; simpl in Hqs;
    rewrite ?orb_true_r in Hqs; try discriminate Hqs.
  unfold Json.items_of in H.
  destruct items as [|item items]; [discriminate H|].
  cbn [length Nat.eqb] in H.
  destruct (negb (supabase s)); [discriminate H|].
  destruct (user s) as [uid|] eqn:Hu; [|discriminate H].
  destruct (Json.get data "title") as [e | t] eqn:Ht; [discriminate H|].
  inversion H; subst.
  exists statusText, data, item, items, uid, t. repeat split; auto.
Qed.

Lemma flashcardsToInsert_rows (u : option string) (doc : Doc.Document)
      (items : list Json.value) (rows : list FlashcardRow) :
  flashcardsToInsert u doc items = inr rows ->
  Forall2 (fun item row =>
             u = Some (fc_user_id row) /\
             fc_document_id row = Doc.id doc /\
             Json.get item "question" = inr (fc_question row) /\
             Json.get item "answer" = inr (fc_answer row) /\
             Json.get item "difficulty" = inr (fc_difficulty row))
          items rows.
Proof.
  revert rows; induction items as [|fc rest IH]; simpl; intros rows H.
  - inversion H; constructor.
  - destruct u as [uid|]; [|discriminate H].
    destruct (Json.get fc "question") as [|qv] eqn:Hq; [discriminate H|].
    destruct (Json.get fc "answer") as [|av] eqn:Ha; [discriminate H|].
    destruct (Json.get fc "difficulty") as [|dv] eqn:Hd; [discriminate H|].
    destruct (flashcardsToInsert (Some uid) doc rest) as [|rows']; [discriminate H|].
    inversion H; subst. constructor; [simpl; auto | now apply IH].
Qed.

End DocumentFacts.



(** X12.  When [generateQuiz] sends a row, it is one row for the signed-in
    user and the document: it holds the reply's questions as they came,
    [total_questions] is their number and at least 1, and the title is the
    reply's title, or "Untitled Quiz" when the reply's title is missing,
    [null], [false], 0 or the empty string; it is never an empty one. *)
Theorem generateQuiz_stores_the_questions :
  forall (env : Documents.Env) (s : Documents.State) (doc : Doc.Document)
         (r : Json.reply) (row : Documents.QuizRow),
    Documents.generateQuiz env s doc r = Documents.QuizGenerated row ->
    Documents.quiz_inserted (Documents.generateQuiz env s doc r) = [row] /\
    Documents.user s = Some (Documents.quiz_user_id row) /\
    Documents.quiz_document_id row = Doc.id doc /\
    (exists statusText data t,
        r = Json.Response true statusText (Json.Parsed data) /\
        Json.get data "questions" = inr (Documents.quiz_questions row) /\
        Json.get data "title" = inr t /\
        Documents.quiz_title row
        = match t with
          | Json.JUndefined | Json.JNull | Json.JBool false
          | Json.JNum 0 | Json.JStr EmptyString => Json.JStr "Untitled Quiz"
          | _ => t
          end) /\
    Documents.quiz_total_questions row
      = Z.of_nat (length (Json.items_of (Documents.quiz_questions row))) /\
    1 <= Documents.quiz_total_questions row /\
    Json.truthy (Documents.quiz_title row) = true.
Proof.
  intros env s doc r row H.
  destruct (generateQuiz_Generated _ _ _ _ _ H)
    as (st & data & item & items & uid & t & Hr & Hqs & Ht & Hu & Hrow).
  rewrite H. subst row; cbn [Documents.quiz_inserted Documents.quiz_user_id
    Documents.quiz_document_id Documents.quiz_questions
    Documents.quiz_total_questions Documents.quiz_title Json.items_of].
  split; [reflexivity|]. split; [exact Hu|]. split; [reflexivity|].
  split.
  { exists st, data, t. repeat split; auto.
    destruct t as [| | [|] | [|z|z] | [|c str] | |]; reflexivity. }
  split; [reflexivity|].
  split; [simpl length; lia|].
  destruct (Json.truthy t) eqn:E; [exact E | reflexivity].
Qed.

(** X12, at a body of two questions without a title, and at the same body
    with a title. *)
Lemma generateQuiz_stores_the_questions_witness :
  (exists row,
      Documents.generateQuiz Documents.sample_env Documents.sample_state
        Documents.sample_doc
        (Json.Response true "OK" (Json.Parsed Documents.quiz_body))
      = Documents.QuizGenerated row /\
      Documents.quiz_total_questions row = 2 /\
      Documents.quiz_title row = Json.JStr "Untitled Quiz") /\
  (exists row,
      Documents.generateQuiz Documents.sample_env Documents.sample_state
        Documents.sample_doc
        (Json.Response true "OK" (Json.Parsed Documents.titled_quiz_body))
      = Documents.QuizGenerated row /\
      Documents.quiz_title row = Json.JStr "Cell biology").
Proof.
  split.
  - destruct (Documents.generateQuiz Documents.sample_env Documents.sample_state
                Documents.sample_doc
                (Json.Response true "OK" (Json.Parsed Documents.quiz_body)))
      as [e | row] eqn:H; [vm_compute in H; discriminate H|].
    exists row. split; [reflexivity|].
    destruct (generateQuiz_stores_the_questions _ _ _ _ _ H)
      as (_ & _ & _ & _ & Htot & _).
    vm_compute in H. inversion H; subst row. split; reflexivity.
  - destruct (Documents.generateQuiz Documents.sample_env Documents.sample_state
                Documents.sample_doc
                (Json.Response true "OK" (Json.Parsed Documents.titled_quiz_body)))
      as [e | row] eqn:H; [vm_compute in H; discriminate H|].
    exists row. split; [reflexivity|].
    destruct (generateQuiz_stores_the_questions _ _ _ _ _ H)
      as (_ & _ & _ & (st & data & t & Hr & _ & Ht & Htitle) & _).
    inversion Hr; subst data.
    vm_compute in Ht. inversion Ht; subst t. exact Htitle.
Defined.

(** X13.  When [generateFlashcards] sends rows, it sends one per element
    of the reply's array, in order: each for the signed-in user and the
    document, with the element's [question], [answer] and [difficulty] as
    they came (absent ones included).  There is no partial insert. *)
Theorem generated_rows_match_items :
  forall (env : Documents.Env) (s : Documents.State) (doc : Doc.Document)
         (r : Json.reply) (rows : list Documents.FlashcardRow),
    Documents.generateFlashcards env s doc r = Documents.Generated rows ->
    exists statusText data items,
      r = Json.Response true statusText (Json.Parsed data) /\
      Json.get data "flashcards" = inr (Json.JArr items) /\
      items <> [] /\
      length rows = length items /\
      Forall2 (fun item row =>
                 Documents.user s = Some (Documents.fc_user_id row) /\
                 Documents.fc_document_id row = Doc.id doc /\
                 Json.get item "question" = inr (Documents.fc_question row) /\
                 Json.get item "answer" = inr (Documents.fc_answer row) /\
                 Json.get item "difficulty" = inr (Documents.fc_difficulty row))
              items rows.
Proof.
  intros env s doc r rows H.
  destruct (generateFlashcards_Generated _ _ _ _ _ H)
    as (st & data & item & items & Hr & Hget & Hrows).
  exists st, data, (item :: items).
  split; [exact Hr|]. split; [exact Hget|]. split; [discriminate|].
  split; [now apply flashcardsToInsert_length in Hrows|].
  now apply flashcardsToInsert_rows.
Qed.

(** X13, at a body of two cards, the second without a difficulty. *)
Lemma generated_rows_match_items_witness :
  exists rows,
    Documents.generateFlashcards Documents.sample_env Documents.sample_state
      Documents.sample_doc
      (Json.Response true "OK" (Json.Parsed Documents.flashcards_body))
    = Documents.Generated rows /\
    length rows = 2%nat /\
    map Documents.fc_difficulty rows = [Json.JStr "easy"; Json.JUndefined].
Proof.
  destruct (Documents.generateFlashcards Documents.sample_env Documents.sample_state
              Documents.sample_doc
              (Json.Response true "OK" (Json.Parsed Documents.flashcards_body)))
    as [e | rows] eqn:H; [vm_compute in H; discriminate H|].
  exists rows. split; [reflexivity|].
  destruct (generated_rows_match_items _ _ _ _ _ H)
    as (st & data & items & Hr & Hget & _ & Hlen & _).
  vm_compute in H. inversion H; subst rows. split; reflexivity.
Defined.

(** X14.  Deleting a document: when the user confirms, the client is
    configured and the store reports no error, exactly the documents with
    that id leave the list and the others keep their order; in every other
    case the list is as it was.  The delete request goes out whenever the
    user confirmed and the client is configured, and the form is never
    touched. *)
Theorem handleDelete_removes_that_document :
  forall (confirmed store_error : bool) (doc_id : string) (s : Documents.State),
    let s' := fst (Documents.handleDelete confirmed store_error doc_id s) in
    let eff := snd (Documents.handleDelete confirmed store_error doc_id s) in
    (confirmed = true -> Documents.supabase s = true -> store_error = false ->
     Documents.documents s'
     = filter (fun d => negb (String.eqb (Doc.id d) doc_id)) (Documents.documents s) /\
     (forall d, In d (Documents.documents s') <->
                In d (Documents.documents s) /\ Doc.id d <> doc_id)) /\
    (confirmed = false \/ Documents.supabase s = false \/ store_error = true ->
     s' = s) /\
    (Documents.deletes eff
     = if confirmed && Documents.supabase s then [doc_id] else []) /\
    Documents.title s' = Documents.title s /\
    Documents.content s' = Documents.content s.
Proof.
  intros confirmed store_error doc_id s s' eff. subst s' eff.
  unfold Documents.handleDelete.
  destruct confirmed; cbn [negb andb].
  - destruct (Documents.supabase s) eqn:Hsb; cbn [negb].
    + destruct store_error; cbn [negb fst snd Documents.deletes].
      * split; [intros _ _ E; discriminate E|].
        split; [intros _; reflexivity|]. repeat split.
      * split.
        { intros _ _ _. cbn [Documents.documents].
          split; [reflexivity|]. intros d. rewrite filter_In.
          split; intros [Hin Hd]; (split; [exact Hin|]).
          - intros Heq. apply String.eqb_eq in Heq.
            rewrite Heq in Hd. discriminate Hd.
          - apply String.eqb_neq in Hd. now rewrite Hd. }
        split; [intros [E | [E | E]]; discriminate E|]. repeat split.
    + cbn [fst snd Documents.deletes].
      split; [intros _ E; discriminate E|].
      split; [intros _; reflexivity|]. repeat split.
  - cbn [fst snd Documents.deletes].
    split; [intros E; discriminate E|].
    split; [intros _; reflexivity|]. repeat split.
Qed.

(** X15.  Submitting the form sends a row only when a user is signed in,
    title and content are non-empty and the client is configured, and then
    exactly one, holding the title and the content as typed.  Either the
    list of documents, the title and the content come out as they were
    (every refusal and every failure), or the store accepted the row: then
    the stored document is put first and the form is cleared. *)
Theorem handleSubmit_sends_when_ready :
  forall (store : Documents.DocumentRow -> Documents.db_reply)
         (s : Documents.State),
    let s' := fst (Documents.handleSubmit store s) in
    let sent := Documents.inserts (snd (Documents.handleSubmit store s)) in
    (sent = [] \/
     exists uid,
       Documents.user s = Some uid /\
       Str.truthy (Documents.title s) = true /\
       Str.truthy (Documents.content s) = true /\
       Documents.supabase s = true /\
       sent = [{| Documents.row_user_id := uid;
                  Documents.row_title := Documents.title s;
                  Documents.row_content := Documents.content s;
                  Documents.row_file_type := "text" |}]) /\
    ((Documents.documents s' = Documents.documents s /\
      Documents.title s' = Documents.title s /\
      Documents.content s' = Documents.content s /\
      forall row data, sent = [row] -> store row <> Documents.DbData data) \/
     (exists row data,
        sent = [row] /\ store row = Documents.DbData data /\
        Documents.documents s' = data :: Documents.documents s /\
        Documents.title s' = EmptyString /\
        Documents.content s' = EmptyString)).
Proof.
  intros store s s' sent. subst s' sent.
  unfold Documents.handleSubmit.
  destruct (Documents.user s) as [uid|] eqn:Hu; simpl;
    [|split; [left; reflexivity | left; repeat split; intros; discriminate]].
  destruct (Str.truthy (Documents.title s)) eqn:Ht; simpl;
    [|split; [left; reflexivity | left; repeat split; intros; discriminate]].
  destruct (Str.truthy (Documents.content s)) eqn:Hc; simpl;
    [|split; [left; reflexivity | left; repeat split; intros; discriminate]].
  destruct (Documents.supabase s) eqn:Hsb; simpl;
    [|split; [left; reflexivity | left; repeat split; intros; discriminate]].
  destruct (store _) as [m | data] eqn:Hstore; simpl.
  - split; [right; exists uid; repeat split; auto|].
    left. repeat split. intros row data' Hrow. inversion Hrow; subst row.
    rewrite Hstore. discriminate.
  - split; [right; exists uid; repeat split; auto|].
    right. eexists; exists data. repeat split; auto.
Qed.

(** ** File names and file contents *)

Section StringFacts.

Local Open Scope string_scope.

Lemma is_wide_single (c : ascii) : Str.is_wide (String c EmptyString) = false.
Proof. reflexivity. Qed.

Lemma trim_end_idem (s : string) : Str.trim_end (Str.trim_end s) = Str.trim_end s.
Proof.
  induction s as [|c r IH]; [reflexivity|].
  cbn [Str.trim_end].
  destruct (Str.is_wide (String c (Str.trim_end r))) eqn:Hw; [reflexivity|].
  destruct (Str.trim_end r) as [|c' r'] eqn:Hr.
  - destruct (Str.is_space c) eqn:Hc; [reflexivity|].
    cbn [Str.trim_end]. now rewrite is_wide_single, Hc.
  - cbn [Str.trim_end]. cbn [Str.trim_end] in IH. rewrite IH.
    now rewrite Hw.
Qed.

(** [trim_start] drops leading white space one character at a time. *)
Lemma trim_start_strip1 (s : string) :
  Str.trim_start s =
    match Str.strip1 s with
    | Some r => Str.trim_start r
    | None => s
    end.
Proof.
  destruct s as [|a [|b [|c r3]]]; cbn [Str.trim_start Str.strip1];
    try reflexivity.
  - now destruct (Str.is_space a).
  - destruct (Str.is_space a); [reflexivity|].
    now destruct (Str.wide2 a b).
  - destruct (Str.is_space a); [reflexivity|].
    destruct (Str.wide2 a b); [reflexivity|].
    now destruct (Str.wide3 a b c).
Qed.

Lemma strip1_shorter (s r : string) :
  Str.strip1 s = Some r -> (String.length r < String.length s)%nat.
Proof.
  destruct s as [|a [|b [|c r3]]]; cbn [Str.strip1]; try discriminate.
  - destruct (Str.is_space a); intros H; inversion H; simpl; lia.
  - destruct (Str.is_space a); [intros H; inversion H; simpl; lia|].
    destruct (Str.wide2 a b); intros H; inversion H; simpl; lia.
  - destruct (Str.is_space a); [intros H; inversion H; simpl; lia|].
    destruct (Str.wide2 a b); [intros H; inversion H; simpl; lia|].
    destruct (Str.wide3 a b c); intros H; inversion H; simpl; lia.
Qed.

(** After [trim_start] no white space character leads the text. *)
Lemma trim_start_done (s : string) : Str.strip1 (Str.trim_start s) = None.
Proof.
  assert (H : forall n s, (String.length s <= n)%nat ->
                          Str.strip1 (Str.trim_start s) = None).
  { induction n as [|n IH]; intros t Ht.
    - destruct t; [reflexivity | simpl in Ht; lia].
    - rewrite trim_start_strip1.
      destruct (Str.strip1 t) as [r|] eqn:Hs; [|exact Hs].
      apply IH. apply strip1_shorter in Hs. lia. }
  now apply (H (String.length s)).
Qed.

Lemma strip1_app (p r x : string) :
  Str.strip1 p = Some r -> Str.strip1 (p ++ x) = Some (r ++ x).
Proof.
  destruct p as [|a [|b [|c r3]]]; cbn [Str.strip1 append]; try discriminate.
  - destruct (Str.is_space a); [|discriminate].
    intros H; inversion H; reflexivity.
  - destruct (Str.is_space a); [intros H; inversion H; reflexivity|].
    destruct (Str.wide2 a b); [|discriminate].
    intros H; inversion H; subst. destruct x; reflexivity.
  - destruct (Str.is_space a); [intros H; inversion H; reflexivity|].
    destruct (Str.wide2 a b); [intros H; inversion H; reflexivity|].
    destruct (Str.wide3 a b c); [|discriminate].
    intros H; inversion H; reflexivity.
Qed.

(** [trim_end] keeps a beginning of the text. *)
Lemma trim_end_prefix (s : string) : exists rest, s = Str.trim_end s ++ rest.
Proof.
  induction s as [|c r [rest IH]]; [now exists EmptyString|].
  cbn [Str.trim_end].
  destruct (Str.is_wide (String c (Str.trim_end r))); [now exists (String c r)|].
  destruct (Str.trim_end r) as [|c' r'] eqn:Hr.
  - destruct (Str.is_space c); [now exists (String c r)|].
    exists r. reflexivity.
  - exists rest. change (String c r = String c (String c' r' ++ rest)).
    now rewrite <- IH.
Qed.

Lemma trim_idem (s : string) : Str.trim (Str.trim s) = Str.trim s.
Proof.
  unfold Str.trim.
  pose proof (trim_start_done s) as Hs.
  set (t := Str.trim_start s) in *.
  destruct (trim_end_prefix t) as [rest Hrest].
  assert (He : Str.strip1 (Str.trim_end t) = None).
  { destruct (Str.strip1 (Str.trim_end t)) as [r|] eqn:H; [|reflexivity].
    apply (strip1_app _ _ rest) in H. rewrite <- Hrest in H. congruence. }
  rewrite (trim_start_strip1 (Str.trim_end t)), He.
  apply trim_end_idem.
Qed.

(** White space outside ASCII is removed at both ends and kept inside;
    a text made of white space only trims to nothing. *)
Example trim_unicode_space :
  Str.trim (Str.byte_order_mark ++ Str.nbsp ++ " a" ++ Str.nbsp ++ "b "
            ++ Str.ideographic_space ++ Str.nbsp)%string
  = ("a" ++ Str.nbsp ++ "b")%string /\
  Str.trim (Str.nbsp ++ Str.ideographic_space ++ " " ++ Str.byte_order_mark)%string
  = EmptyString.
Proof. split; vm_compute; reflexivity. Qed.

Lemma trim_truthy (s : string) :
  Str.truthy (Str.trim s) = true -> Str.truthy s = true.
Proof. destruct s; [discriminate | reflexivity]. Qed.

Lemma split_nonempty (sep : ascii) (s : string) : Str.split sep s <> [].
Proof.
  induction s as [|c r IH]; simpl; [discriminate|].
  destruct (Ascii.eqb c sep); [discriminate|].
  destruct (Str.split sep r); [congruence | discriminate].
Qed.

Lemma split_app_sep (sep : ascii) (a b : string) :
  Str.split sep (a ++ String sep b) = (Str.split sep a ++ Str.split sep b)%list.
Proof.
  induction a as [|c r IH]; simpl.
  - now rewrite Ascii.eqb_refl.
  - destruct (Ascii.eqb c sep); [now rewrite IH|].
    rewrite IH. pose proof (split_nonempty sep r) as Hne.
    destruct (Str.split sep r); [congruence | reflexivity].
Qed.

Lemma split_without_sep (sep : ascii) (s : string) :
  Str.contains sep s = false -> Str.split sep s = [s].
Proof.
  induction s as [|c r IH]; simpl; [reflexivity|].
  intros H. apply orb_false_iff in H. destruct H as [Hc Hr].
  rewrite Ascii.eqb_sym, Hc, (IH Hr). reflexivity.
Qed.

(** Joining what was split gives the text back. *)
Lemma join_split (sep : ascii) (s : string) :
  Str.join (String sep EmptyString) (Str.split sep s) = s.
Proof.
  induction s as [|c r IH]; [reflexivity|].
  cbn [Str.split]. destruct (Ascii.eqb_spec c sep) as [-> | Hne].
  - pose proof (split_nonempty sep r) as Hn.
    destruct (Str.split sep r) as [|h t] eqn:Hs; [congruence|].
    cbn [Str.join]. cbn [Str.join] in IH. rewrite IH. reflexivity.
  - pose proof (split_nonempty sep r) as Hn.
    destruct (Str.split sep r) as [|h t] eqn:Hs; [congruence|].
    destruct t as [|h2 t2]; cbn [Str.join] in *.
    + now rewrite IH.
    + rewrite <- IH. reflexivity.
Qed.

End StringFacts.

(** X16.  [parseFile] accepts exactly two kinds of file: one whose
    lower-cased extension is pdf and whose pages hold some text, and one
    whose extension is txt, md, doc or docx and whose content is not
    blank.  Everything else is an error. *)
Theorem parseFile_accepts_exactly :
  forall (f : FileParser.File),
    (exists p, FileParser.parseFile f = inr p) <->
    (FileParser.extension_of (FileParser.name f) = "pdf" /\
     exists pages,
       FileParser.as_pdf f = FileParser.PdfPages pages /\
       Str.truthy (Str.trim (FileParser.fullText pages)) = true) \/
    (In (FileParser.extension_of (FileParser.name f)) FileParser.text_extensions /\
     exists t,
       FileParser.as_text f = FileParser.ReadOk t /\
       Str.truthy (Str.trim t) = true).
Proof.
  intros f. unfold FileParser.parseFile.
  set (ext := FileParser.extension_of (FileParser.name f)).
  destruct (String.eqb_spec ext "pdf") as [Hpdf | Hnot].
  - unfold FileParser.parsePDF. split.
    + intros [p H]. left. split; [exact Hpdf|].
      destruct (FileParser.as_pdf f) as [m | pages]; [discriminate H|].
      destruct (Str.truthy (Str.trim (FileParser.fullText pages))) eqn:Ht;
        [|discriminate H].
      now exists pages.
    + intros [(_ & pages & Hp & Ht) | (Hin & _)].
      * rewrite Hp, Ht. eexists; reflexivity.
      * exfalso. rewrite Hpdf in Hin. simpl in Hin.
        repeat (destruct Hin as [Hin | Hin]; [discriminate Hin|]). exact Hin.
  - destruct (FileParser.includes FileParser.text_extensions ext) eqn:Hinc.
    + unfold FileParser.parseTextFile. split.
      * intros [p H]. right. split.
        { unfold FileParser.includes in Hinc. apply existsb_exists in Hinc.
          destruct Hinc as (x & Hin & Heq). apply String.eqb_eq in Heq.
          now rewrite Heq. }
        destruct (FileParser.as_text f) as [m | t]; [discriminate H|].
        destruct (Str.truthy t); simpl in H; [|discriminate H].
        destruct (Str.truthy (Str.trim t)) eqn:Ht; simpl in H; [|discriminate H].
        now exists t.
      * intros [(Hp & _) | (_ & t & Hr & Ht)]; [congruence|].
        rewrite Hr, (trim_truthy _ Ht), Ht; simpl. eexists; reflexivity.
    + split.
      * intros [p H]; discriminate H.
      * intros [(Hp & _) | (Hin & _)]; [congruence|].
        exfalso. assert (FileParser.includes FileParser.text_extensions ext = true).
        { unfold FileParser.includes. apply existsb_exists.
          exists ext. split; [exact Hin | apply String.eqb_refl]. }
        congruence.
Qed.

(** X17.  A text file that is accepted is stored as it was read: the
    content is not trimmed or changed in any way, and the type reported is
    the lower-cased extension. *)
Theorem text_content_is_kept_as_read :
  forall (f : FileParser.File) (p : FileParser.Parsed) (s : Documents.State),
    FileParser.parseFile f = inr p ->
    FileParser.extension_of (FileParser.name f) <> "pdf" ->
    FileParser.as_text f = FileParser.ReadOk (FileParser.content p) /\
    FileParser.type p = FileParser.extension_of (FileParser.name f) /\
    Str.truthy (Str.trim (FileParser.content p)) = true /\
    Documents.content (fst (Documents.handleFileUpload (Some f) s))
      = FileParser.content p.
Proof.
  intros f p s H Hnot.
  assert (Hup : Documents.content (fst (Documents.handleFileUpload (Some f) s))
                = FileParser.content p).
  { unfold Documents.handleFileUpload. now rewrite H. }
  unfold FileParser.parseFile in H.
  destruct (String.eqb_spec (FileParser.extension_of (FileParser.name f)) "pdf");
    [congruence|].
  destruct (FileParser.includes _ _); [|discriminate H].
  unfold FileParser.parseTextFile in H.
  destruct (FileParser.as_text f) as [m | t]; [discriminate H|].
  destruct (Str.truthy t); simpl in H; [|discriminate H].
  destruct (Str.truthy (Str.trim t)) eqn:Ht; simpl in H; [|discriminate H].
  inversion H; subst p; simpl in *. auto.
Qed.

(** X17, at "Lecture 1.TXT" whose text has blanks at both ends. *)
Lemma text_content_is_kept_as_read_witness :
  FileParser.as_text Documents.sample_txt = FileParser.ReadOk "  Cells divide.  " /\
  FileParser.parseFile Documents.sample_txt
  = inr {| FileParser.content := "  Cells divide.  "; FileParser.type := "txt" |}.
Proof.
  split; [reflexivity|].
  destruct (FileParser.parseFile Documents.sample_txt) as [e | p] eqn:H;
    [vm_compute in H; discriminate H|].
  destruct (text_content_is_kept_as_read Documents.sample_txt p
              Documents.sample_state H
              ltac:(vm_compute; discriminate)) as (Hc & Ht & _).
  destruct p as [c t]; simpl in *.
  inversion Hc; subst c. rewrite Ht. reflexivity.
Defined.

(** X18.  What [parsePDF] returns is the pages' text, one line per page,
    trimmed: it is not empty, and it has no blank at either end (trimming
    it again changes nothing).  Every failure is reported as "Failed to
    parse PDF: ...". *)
Theorem parsePDF_returns_trimmed_text :
  forall (f : FileParser.File),
    match FileParser.parsePDF f with
    | inr t =>
        (exists pages,
            FileParser.as_pdf f = FileParser.PdfPages pages /\
            t = Str.trim (FileParser.fullText pages)) /\
        Str.trim t = t /\ Str.truthy t = true
    | inl e =>
        exists reason, Json.message_of e = ("Failed to parse PDF: " ++ reason)%string
    end.
Proof.
  intros f. unfold FileParser.parsePDF.
  destruct (FileParser.as_pdf f) as [m | pages].
  - now exists m.
  - destruct (Str.truthy (Str.trim (FileParser.fullText pages))) eqn:Ht.
    + split; [now exists pages|]. split; [apply trim_idem | exact Ht].
    + now exists "PDF contains no readable text".
Qed.

(** X19.  For a file named [base.ext], where [ext] is not empty and has no
    dot or slash, the title proposed by the upload handler is [base] (dots
    inside [base] are kept), and a name without any dot is its own title.
    When [ext] is ASCII, the extension the parser looks at is [ext] with
    its letters A to Z in lower case and every other character unchanged:
    it has the length of [ext], and at each position the character of
    [ext], 32 code points up when that is one of A to Z. *)
Theorem file_name_title_and_extension :
  forall (base ext : string),
    Str.truthy ext = true ->
    Str.contains "." ext = false ->
    Str.contains "/" ext = false ->
    Documents.strip_extension (base ++ "." ++ ext) = base /\
    Documents.strip_extension ext = ext /\
    (Str.ascii_only ext = true ->
     FileParser.extension_of (base ++ "." ++ ext) = FileParser.extension_of ext /\
     String.length (FileParser.extension_of ext) = String.length ext /\
     (forall (i : nat) (c : ascii),
         String.get i ext = Some c ->
         String.get i (FileParser.extension_of ext)
         = Some (if ((65 <=? nat_of_ascii c) && (nat_of_ascii c <=? 90))%nat
                 then ascii_of_nat (nat_of_ascii c + 32) else c))).
Proof.
  intros base ext Ht Hdot Hslash.
  assert (Hsplit : Str.split "." (base ++ "." ++ ext)
                   = Str.split "." base ++ [ext]).
  { change (base ++ "." ++ ext)%string with (base ++ String "." ext)%string.
    now rewrite split_app_sep, (split_without_sep _ _ Hdot). }
  unfold Documents.strip_extension, FileParser.extension_of.
  rewrite Hsplit, rev_app_distr, last_last, (split_without_sep _ _ Hdot).
  cbn [rev app last].
  pose proof (split_nonempty "." base) as Hne.
  destruct (rev (Str.split "." base)) as [|b0 bs] eqn:Hrev.
  - exfalso. apply Hne. apply (f_equal (@rev string)) in Hrev.
    now rewrite rev_involutive in Hrev.
  - rewrite Ht, Hslash. cbn [negb andb].
    rewrite <- Hrev, rev_involutive.
    split; [apply (join_split "." base)|]. split; [reflexivity|].
    intros _. split; [reflexivity|]. split.
    + clear. induction ext as [|c r IH]; [reflexivity|].
      cbn [Str.toLowerCase String.length]. now rewrite IH.
    + clear. induction ext as [|c r IH]; intros i c0 Hget; [discriminate Hget|].
      destruct i as [|i].
      * cbn [String.get] in Hget. inversion Hget; subst c0.
        cbn [Str.toLowerCase String.get]. reflexivity.
      * cbn [Str.toLowerCase String.get] in *. now apply IH.
Qed.

(** X19, at "Biology.Notes.PDF". *)
Lemma file_name_title_and_extension_witness :
  Documents.strip_extension "Biology.Notes.PDF" = "Biology.Notes" /\
  FileParser.extension_of "Biology.Notes.PDF" = "pdf".
Proof.
  destruct (file_name_title_and_extension "Biology.Notes" "PDF"
              eq_refl eq_refl eq_refl) as (H1 & _ & H2).
  destruct (H2 eq_refl) as (H3 & _).
  split; [exact H1 | exact (eq_trans H3 eq_refl)].
Defined.

(** ** Chat: the transcript and the request *)

Section TranscriptFacts.

Import Chat.


(** A row is sent only on the path of an answered turn. *)
Lemma exchange_row_answered (env : Documents.Env) (uid : string)
      (doc : Doc.Document) (r : Json.reply) (s : State) :
  snd (exchange env uid doc r s) <> [] -> answered env r.
Proof.
  unfold exchange, answered.
  destruct (Documents.configured (Documents.VITE_SUPABASE_URL env)); simpl;
    [|congruence].
  destruct (Documents.configured (Documents.VITE_SUPABASE_ANON_KEY env)); simpl;
    [|congruence].
  destruct r as [m | ok st b]; simpl; [congruence|].
  destruct ok; simpl; [|congruence].
  destruct b as [m | data]; simpl; [congruence|].
  destruct (Json.get data "error") as [e | err] eqn:He; simpl; [congruence|].
  destruct (Json.truthy err) eqn:Ht; simpl; [congruence|].
  intros _. repeat split. exists st, data, err. auto.
Qed.

Lemma skipn_suffix {A : Type} (n : nat) (l : list A) :
  firstn n l ++ skipn n l = l /\ length (skipn n l) = (length l - n)%nat.
Proof. split; [apply firstn_skipn | apply length_skipn]. Qed.

End TranscriptFacts.



(** X21.  A submission that the guard stops (blank input, a request still
    running, no selected document, no user, no client) changes nothing and
    sends nothing. *)
Theorem rejected_message_changes_nothing :
  forall (env : Documents.Env) (r : Json.reply) (s : Chat.State),
    Str.truthy (Str.trim (Chat.input s)) = false \/
    Chat.loading s = true \/
    Chat.selectedDoc s = None \/
    Chat.user s = None \/
    Chat.supabase s = false ->
    Chat.handleSubmit env r s = (s, []).
Proof.
  intros env r s H. unfold Chat.handleSubmit.
  destruct (Chat.selectedDoc s) as [doc|], (Chat.user s) as [uid|];
    try reflexivity.
  destruct H as [H | [H | [H | [H | H]]]]; try discriminate H;
    rewrite H; simpl; rewrite ?orb_true_r; reflexivity.
Qed.

(** X21, at an input of blanks only. *)
Lemma rejected_message_changes_nothing_witness :
  Chat.handleSubmit Documents.sample_env Chat.sample_reply
    (Chat.setInput "   " Chat.sample_state)
  = (Chat.setInput "   " Chat.sample_state, []).
Proof.
  apply rejected_message_changes_nothing. left. reflexivity.
Defined.

(** X22.  A chat session is recorded only for an answered turn: if
    [handleSubmit] sends a row, the message had passed the guard, the
    request was configured, the reply was OK and its body had no [error].
    Failures of any kind record nothing. *)
Theorem session_only_when_answered :
  forall (env : Documents.Env) (r : Json.reply) (s : Chat.State),
    snd (Chat.handleSubmit env r s) <> [] ->
    (exists uid doc, Chat.ready s uid doc) /\ Chat.answered env r.
Proof.
  intros env r s. unfold Chat.handleSubmit.
  destruct (Chat.selectedDoc s) as [doc|] eqn:Hd; [|simpl; congruence].
  destruct (Chat.user s) as [uid|] eqn:Hu; [|simpl; congruence].
  destruct (Str.truthy (Str.trim (Chat.input s))) eqn:Hi; simpl; [|congruence].
  destruct (Chat.loading s) eqn:Hl; simpl; [congruence|].
  destruct (Chat.supabase s) eqn:Hsb; simpl; [|congruence].
  match goal with |- context [Chat.exchange ?e ?u ?d ?rr ?st] =>
    pose proof (exchange_row_answered e u d rr st) as Hrow;
    destruct (Chat.exchange e u d rr st) as [s3 rows] end.
  simpl in *. intros Hne. split; [|auto].
  exists uid, doc. repeat split; auto.
Qed.

(** X22, at the sample question and answer. *)
Lemma session_only_when_answered_witness :
  Chat.answered Documents.sample_env Chat.sample_reply.
Proof.
  exact (proj2 (session_only_when_answered Documents.sample_env
                  Chat.sample_reply Chat.sample_state
                  ltac:(vm_compute; discriminate))).
Defined.

(** X23.  The request carries the trimmed input, the selected document's
    content, and as history the last six entries of the transcript as it
    stood before this message: at most six, the whole transcript when it
    has six or fewer, and always its end. *)
Theorem history_is_the_last_six :
  forall (doc : Doc.Document) (s : Chat.State),
    let req := Chat.request_of doc s in
    Chat.req_message req = Str.trim (Chat.input s) /\
    Chat.req_documentContent req = Doc.content doc /\
    (length (Chat.req_conversationHistory req) <= 6)%nat /\
    length (Chat.req_conversationHistory req) = Nat.min 6 (length (Chat.messages s)) /\
    (exists older, Chat.messages s = older ++ Chat.req_conversationHistory req) /\
    ((length (Chat.messages s) <= 6)%nat ->
     Chat.req_conversationHistory req = Chat.messages s).
Proof.
  intros doc s req. subst req.
  cbn [Chat.request_of Chat.req_message Chat.req_documentContent
       Chat.req_conversationHistory].
  unfold Chat.slice_last.
  set (l := Chat.messages s). set (n := (length l - 6)%nat).
  destruct (skipn_suffix n l) as [Happ Hlen].
  split; [reflexivity|]. split; [reflexivity|].
  split; [rewrite Hlen; subst n; lia|].
  split; [rewrite Hlen; subst n; lia|].
  split; [exists (firstn n l); now rewrite Happ|].
  intros Hle. replace n with 0%nat by (subst n; lia). reflexivity.
Qed.

(** ** Dashboard: what the average depends on *)

Section StatsFacts.

Import Dashboard.

Lemma total_between (rows : list SessionRow) (lo hi : Z) :
  (forall s, In s rows -> lo <= score_or_zero s <= hi) ->
  lo * Z.of_nat (length rows) <= total rows <= hi * Z.of_nat (length rows).
Proof.
  induction rows as [|r rest IH]; intros H.
  - unfold total; simpl; lia.
  - rewrite total_cons.
    pose proof (H r (or_introl eq_refl)).
    assert (lo * Z.of_nat (length rest) <= total rest <= hi * Z.of_nat (length rest))
      by (apply IH; intros s Hs; apply H; now right).
    cbn [length]. lia.
Qed.

Lemma round_div_between (t n lo hi : Z) :
  0 < n -> lo * n <= t <= hi * n -> lo <= Js.round_div t n <= hi.
Proof.
  intros Hn Ht.
  pose proof (round_div_nearest t n Hn) as H.
  split.
  - assert (2 * n * (lo - 1) < 2 * n * Js.round_div t n) by nia.
    apply Z.mul_lt_mono_pos_l in H0; lia.
  - assert (2 * n * Js.round_div t n < 2 * n * (hi + 1)) by nia.
    apply Z.mul_lt_mono_pos_l in H0; lia.
Qed.

Lemma completedSessions_skip (before after : list SessionRow) (x : SessionRow) :
  completed x = false \/ score x = None ->
  completedSessions (Some (before ++ x :: after))
  = completedSessions (Some (before ++ after)).
Proof.
  intros H. unfold completedSessions. rewrite !filter_app. f_equal.
  cbn [filter]. unfold has_score.
  destruct H as [H | H]; rewrite H; [reflexivity|].
  now rewrite andb_false_r.
Qed.

End StatsFacts.

(** X24.  A session that is not completed, or has no score, does not move
    the average wherever it stands in the list, while the session counter
    of the dashboard counts it. *)
Theorem average_ignores_uncounted_session :
  forall (before after : list Dashboard.SessionRow) (x : Dashboard.SessionRow),
    Dashboard.completed x = false \/ Dashboard.score x = None ->
    Dashboard.averageScore (Some (before ++ x :: after))
    = Dashboard.averageScore (Some (before ++ after)) /\
    Dashboard.studySessions (Some (before ++ x :: after))
    = Dashboard.studySessions (Some (before ++ after)) + 1.
Proof.
  intros before after x H. split.
  - unfold Dashboard.averageScore. now rewrite (completedSessions_skip _ _ _ H).
  - unfold Dashboard.studySessions. rewrite !length_app. cbn [length]. lia.
Qed.

(** X24, at a chat session (no score) between two quizzes. *)
Lemma average_ignores_uncounted_session_witness :
  Dashboard.averageScore
    (Some [ {| Dashboard.score := Some 60; Dashboard.completed := true |};
            {| Dashboard.score := None; Dashboard.completed := true |};
            {| Dashboard.score := Some 80; Dashboard.completed := true |} ])
  = 70.
Proof.
  refine (eq_trans (proj1 (average_ignores_uncounted_session
    [ {| Dashboard.score := Some 60; Dashboard.completed := true |} ]
    [ {| Dashboard.score := Some 80; Dashboard.completed := true |} ]
    {| Dashboard.score := None; Dashboard.completed := true |}
    (or_intror eq_refl))) _).
  reflexivity.
Defined.

(** X25.  When every score lies in [0, 100] and at least one session
    counts, the average lies between any two bounds that hold for the
    counted scores: it is never below the lowest or above the highest of
    them, and when they are all equal it is that score. *)
Theorem average_between_counted_scores :
  forall (data : option (list Dashboard.SessionRow)) (lo hi : Z),
    Dashboard.scores_in_range data ->
    Dashboard.completedSessions data <> [] ->
    (forall s z, In s (Dashboard.completedSessions data) ->
                 Dashboard.score s = Some z -> lo <= z <= hi) ->
    lo <= Dashboard.averageScore data <= hi.
Proof.
  intros data lo hi _ Hne Hb.
  unfold Dashboard.averageScore.
  destruct (Dashboard.completedSessions data) as [|c rest] eqn:Hcs; [congruence|].
  replace (0 <? length (c :: rest))%nat with true
    by (symmetry; apply Nat.ltb_lt; simpl; lia).
  apply round_div_between; [cbn [length]; lia|].
  apply total_between. intros s Hs.
  unfold Dashboard.score_or_zero.
  destruct (Dashboard.score s) as [z|] eqn:Hz; [now apply (Hb s z)|].
  exfalso.
  assert (Hin : In s (Dashboard.completedSessions data)) by (rewrite Hcs; exact Hs).
  apply completedSessions_spec in Hin.
  destruct Hin as (_ & _ & _ & _ & Hsome). congruence.
Qed.

(** X25, at three quizzes that all scored 70. *)
Lemma average_between_counted_scores_witness :
  Dashboard.averageScore
    (Some [ {| Dashboard.score := Some 70; Dashboard.completed := true |};
            {| Dashboard.score := Some 70; Dashboard.completed := true |};
            {| Dashboard.score := Some 70; Dashboard.completed := true |} ])
  = 70.
Proof.
  pose proof (average_between_counted_scores
    (Some [ {| Dashboard.score := Some 70; Dashboard.completed := true |};
            {| Dashboard.score := Some 70; Dashboard.completed := true |};
            {| Dashboard.score := Some 70; Dashboard.completed := true |} ])
    70 70) as H.
  assert (Hin3 : forall (s : Dashboard.SessionRow) (z : Z),
             In s [ {| Dashboard.score := Some 70; Dashboard.completed := true |};
                    {| Dashboard.score := Some 70; Dashboard.completed := true |};
                    {| Dashboard.score := Some 70; Dashboard.completed := true |} ] ->
             Dashboard.score s = Some z -> z = 70).
  { intros s z Hin Hz; simpl in Hin.
    destruct Hin as [<- | [<- | [<- | []]]]; now inversion Hz. }
  assert (Hr : Dashboard.scores_in_range
                 (Some [ {| Dashboard.score := Some 70; Dashboard.completed := true |};
                         {| Dashboard.score := Some 70; Dashboard.completed := true |};
                         {| Dashboard.score := Some 70; Dashboard.completed := true |} ])).
  { intros rows s z Hd Hin Hz. inversion Hd; subst rows.
    rewrite (Hin3 s z Hin Hz). lia. }
  specialize (H Hr ltac:(simpl; discriminate)).
  apply Z.le_antisymm; apply H;
    intros s z Hin Hz; rewrite (Hin3 s z Hin Hz); lia.
Defined.

(** ** The chat proxy *)

Section ProxyFacts.

Import Proxy.





End ProxyFacts.


